(** * hsgame.game_objects: a shallow embedding of the rules engine

    The Python module [hsgame/game_objects.py] is embedded class by class:
    [Deck] first (it depends on nothing else), then the event registry of
    [Bindable], the combatants ([Character], [Minion], [Hero]), the cards and
    the [Game].  Python integers are unbounded and are modelled by [Z];
    object references are modelled by identifiers into explicit stores. *)

From stdpp Require Import base option list gmap strings fin_maps.
From Stdlib Require Import ZArith Lia.

Open Scope string_scope.
Open Scope list_scope.
Open Scope Z_scope.

(** ** Exceptions and outcomes *)

(** The exceptions the embedded code can raise: the module's own
    [GameException] and the built-in errors of the list, dict and attribute
    operations it performs. *)
Inductive exn :=
| GameException (message : string)
| IndexError
| ValueError
| KeyError
| AttributeError.

(** The outcome of running a method on a state [S].  An exception does not
    roll anything back: [Raise] carries the state as it was when the
    exception left the method.  [Undef] is an outcome of the model only: the
    recursion bound of an unbounded loop or call chain was reached, or a
    reference was followed to an object that does not exist. *)
Inductive outcome (S A : Type) :=
| Ok (a : A) (s : S)
| Raise (e : exn) (s : S)
| Undef.
Arguments Ok {S A} a s.
Arguments Raise {S A} e s.
Arguments Undef {S A}.

Definition is_raise {S A} (o : outcome S A) : Prop :=
  match o with Raise _ _ => True | _ => False end.

(** ** Python list indexing *)

(** [l[i]] with Python's rules: a negative index counts from the end, and an
    index outside [-len, len) is an [IndexError] (here [None]). *)
Definition py_index {A} (l : list A) (i : Z) : option nat :=
  let n := Z.of_nat (length l) in
  if (0 <=? i) && (i <? n) then Some (Z.to_nat i)
  else if (- n <=? i) && (i <? 0) then Some (Z.to_nat (n + i))
  else None.

Definition py_get {A} (l : list A) (i : Z) : option A :=
  match py_index l i with
  | Some k => l !! k
  | None => None
  end.

Definition py_set {A} (l : list A) (i : Z) (x : A) : option (list A) :=
  match py_index l i with
  | Some k => Some (<[k := x]> l)
  | None => None
  end.

(** [l.remove(x)]: the first element equal to [x] goes; [None] is the
    [ValueError] of a list that holds no such element. *)
Fixpoint py_remove `{EqDecision A} (x : A) (l : list A) : option (list A) :=
  match l with
  | [] => None
  | y :: l' =>
      if decide (y = x) then Some l'
      else match py_remove x l' with
           | Some r => Some (y :: r)
           | None => None
           end
  end.

(** ** Deck *)

Module Deck.

(** A card of a deck is a reference to a [Card] object; [Card] defines no
    [__eq__], so [==] on cards is identity of references. *)
Record t := mk {
  cards : list nat;
  used : list bool;
  left : Z
}.

(** [Deck.__init__] *)
Definition init (cs : list nat) : t :=
  {| cards := cs; used := replicate 30 false; left := 30 |}.

(** [Deck.can_draw] *)
Definition can_draw (d : t) : bool := 0 <? left d.

(** The [while count <= index] loop of [Deck.draw], started at slot [i]
    with [rest] the slots from [i] on; [None] is the [IndexError] of
    reading [used[i]] past the end. The result is the final value of [i]. *)
Fixpoint draw_loop (index : Z) (rest : list bool) (count : Z) (i : nat)
  : option nat :=
  if count <=? index then
    match rest with
    | [] => None
    | u :: rest' =>
        draw_loop index rest' (if u then count else count + 1) (S i)
    end
  else Some i.

(** [Deck.draw]; [random_func] is the random source handed in by the
    caller ([random.randint] by default). *)
Definition draw (random_func : Z → Z → Z) (d : t) : outcome t nat :=
  if negb (can_draw d) then
    Raise (GameException "Cannot draw more than 30 cards") d
  else
    let index := random_func 0 (left d - 1) in
    match draw_loop index (used d) 0 0%nat with
    | None => Raise IndexError d
    | Some i =>
        match py_set (used d) (Z.of_nat i - 1) true with
        | None => Raise IndexError d
        | Some used' =>
            let d' := {| cards := cards d; used := used'; left := left d - 1 |} in
            match py_get (cards d) (Z.of_nat i - 1) with
            | None => Raise IndexError d'
            | Some c => Ok c d'
            end
        end
    end.

(** The [for index in range(0, 30)] loop of [Deck.put_back], from slot
    [index] with [n] slots still to visit. *)
Fixpoint put_back_loop (card : nat) (d : t) (index n : nat) : outcome t unit :=
  match n with
  | O => Raise (GameException "Tried to put back a card that didn't come from this deck") d
  | S n' =>
      match cards d !! index with
      | None => Raise IndexError d
      | Some c =>
          if decide (c = card) then
            match used d !! index with
            | None => Raise IndexError d
            | Some false =>
                Raise (GameException "Tried to put back a card that hadn't been used yet") d
            | Some true =>
                Ok tt {| cards := cards d;
                         used := <[index := false]> (used d);
                         left := left d + 1 |}
            end
          else put_back_loop card d (S index) n'
      end
  end.

(** [Deck.put_back] *)
Definition put_back (card : nat) (d : t) : outcome t unit :=
  put_back_loop card d 0 30.

(** The number of slots marked used. *)
Definition count_used (u : list bool) : Z :=
  Z.of_nat (length (filter (λ b, b = true) u)).

(** The number of slots not yet used. *)
Definition count_unused (u : list bool) : Z :=
  Z.of_nat (length (filter (λ b, b = false) u)).

(** The deck invariant of the specification. *)
Definition invariant (d : t) : Prop :=
  length (used d) = 30%nat ∧ left d + count_used (used d) = 30.

(** A sequence of deck operations; every draw comes with the random
    source it is called with. *)
Inductive op :=
| Draw (random_func : Z → Z → Z)
| PutBack (card : nat).

(** The state a single operation leaves behind, whether it returns or
    raises. *)
Definition state_after {A} (o : outcome t A) (d : t) : t :=
  match o with
  | Ok _ d' => d'
  | Raise _ d' => d'
  | Undef => d
  end.

Definition step (d : t) (o : op) : t :=
  match o with
  | Draw random_func => state_after (draw random_func d) d
  | PutBack card => state_after (put_back card d) d
  end.

Definition run (ops : list op) (d : t) : t := foldl step d ops.

(** The contract of the random source: [random_func a b] lies in [a, b]. *)
Definition in_range (random_func : Z → Z → Z) : Prop :=
  ∀ a b, a ≤ b → a ≤ random_func a b ≤ b.

Definition op_in_range (o : op) : Prop :=
  match o with
  | Draw random_func => in_range random_func
  | PutBack _ => True
  end.

(** Slot [i] is the first slot of the deck that holds [card]. *)
Definition first_slot (card : nat) (d : t) (i : nat) : Prop :=
  cards d !! i = Some card ∧ ∀ j c, (j < i)%nat → cards d !! j = Some c → c ≠ card.

(** The deck [put_back] leaves behind when it returns from slot [i]. *)
Definition restored (d : t) (i : nat) : t :=
  {| cards := cards d; used := <[i := false]> (used d); left := left d + 1 |}.

(** The deck [draw] leaves behind when it picks slot [s]. *)
Definition drawn (d : t) (s : nat) : t :=
  {| cards := cards d; used := <[s := true]> (used d); left := left d - 1 |}.

End Deck.


(** ** Objects, values and function objects *)

(** The two players of a game: the indices into [Game.players]. *)
Inductive pid := P0 | P1.

(** References to the objects of a game.  There is one [Game]; a player and
    its hero are named by the player's index; minions and cards are named by
    their identifier in the store. *)
Inductive obj :=
| OGame
| OPlayer (p : pid)
| OHero (p : pid)
| OMinion (m : nat)
| OCard (c : nat).

#[global] Instance pid_eq_dec : EqDecision pid.
Proof. solve_decision. Defined.

#[global] Instance obj_eq_dec : EqDecision obj.
Proof. solve_decision. Defined.

Definition obj_encode (o : obj) : nat * nat :=
  match o with
  | OGame => (0, 0)
  | OPlayer P0 => (1, 0)
  | OPlayer P1 => (1, 1)
  | OHero P0 => (2, 0)
  | OHero P1 => (2, 1)
  | OMinion m => (3, m)
  | OCard c => (4, c)
  end%nat.

Definition obj_decode (x : nat * nat) : obj :=
  match x with
  | (1, 0) => OPlayer P0
  | (1, _) => OPlayer P1
  | (2, 0) => OHero P0
  | (2, _) => OHero P1
  | (3, m) => OMinion m
  | (4, c) => OCard c
  | _ => OGame
  end%nat.

#[global] Instance obj_countable : Countable obj.
Proof.
  apply (inj_countable' obj_encode obj_decode).
  intros [|[]|[]|m|c]; reflexivity.
Defined.

(** The values passed to handlers and kept in list objects: integers,
    references, [None], and the dict [{'event': e, 'args': a}] of a delayed
    event. *)
#[warnings="-register-all"]
Inductive val :=
| VInt (z : Z)
| VRef (o : obj)
| VNone
| VDict (event : string) (args : list val).

(** Function objects.  The engine itself binds three of them; every other
    function (a handler of the card catalogue, a battlecry, a deathrattle,
    the body a card subclass gives to [use], [activate] or [deactivate]) is
    code from outside this module. *)
Inductive fn :=
| Minion_die_lambda (m : nat)
| Bound_turn_complete (self : obj)
| Bound_game_over
| External (k : nat)
| Subclass_use (c : nat)
| Subclass_activate (c : nat)
| Subclass_deactivate (c : nat).

#[global] Instance fn_eq_dec : EqDecision fn.
Proof. solve_decision. Defined.

(** The class a card object was made from. *)
Inductive card_kind := Spell | MinionCard | SecretCard.

(** The journal: a call of [trigger], the invocation of a handler by
    [trigger], and the entry of a method. *)
Inductive Ev :=
| Triggered (o : obj) (event : string) (args : list val)
| Invoked (handler : nat) (function : fn) (args : list val)
| Entered (method : string) (self : obj).

(** ** Records *)

Module Handler.

(** A [Handler] object of [Bindable.bind] / [Bindable.bind_once]. *)
Record t := mk {
  args : list val;
  function : fn;
  remove : bool;
  active : bool
}.

Definition set_args (v : list val) (x : t) : t :=
  mk v (function x) (remove x) (active x).

Definition set_function (v : fn) (x : t) : t :=
  mk (args x) v (remove x) (active x).

Definition set_remove (v : bool) (x : t) : t :=
  mk (args x) (function x) v (active x).

Definition set_active (v : bool) (x : t) : t :=
  mk (args x) (function x) (remove x) v.

End Handler.

Module Character.

(** The attributes [Character.__init__] sets; [delayed] is a reference to a list object, [events] lives in the registry of the world. *)
Record t := mk {
  health : Z;
  max_health : Z;
  attack_power : Z;
  active : bool;
  dead : bool;
  wind_fury : bool;
  used_wind_fury : bool;
  frozen : bool;
  frozen_this_turn : bool;
  temp_attack : Z;
  player : option pid;
  immune : bool;
  delayed : nat;
  stealth : bool
}.

Definition set_health (v : Z) (x : t) : t :=
  mk v (max_health x) (attack_power x) (active x) (dead x) (wind_fury x) (used_wind_fury x) (frozen x) (frozen_this_turn x) (temp_attack x) (player x) (immune x) (delayed x) (stealth x).

Definition set_max_health (v : Z) (x : t) : t :=
  mk (health x) v (attack_power x) (active x) (dead x) (wind_fury x) (used_wind_fury x) (frozen x) (frozen_this_turn x) (temp_attack x) (player x) (immune x) (delayed x) (stealth x).

Definition set_attack_power (v : Z) (x : t) : t :=
  mk (health x) (max_health x) v (active x) (dead x) (wind_fury x) (used_wind_fury x) (frozen x) (frozen_this_turn x) (temp_attack x) (player x) (immune x) (delayed x) (stealth x).

Definition set_active (v : bool) (x : t) : t :=
  mk (health x) (max_health x) (attack_power x) v (dead x) (wind_fury x) (used_wind_fury x) (frozen x) (frozen_this_turn x) (temp_attack x) (player x) (immune x) (delayed x) (stealth x).

Definition set_dead (v : bool) (x : t) : t :=
  mk (health x) (max_health x) (attack_power x) (active x) v (wind_fury x) (used_wind_fury x) (frozen x) (frozen_this_turn x) (temp_attack x) (player x) (immune x) (delayed x) (stealth x).

Definition set_wind_fury (v : bool) (x : t) : t :=
  mk (health x) (max_health x) (attack_power x) (active x) (dead x) v (used_wind_fury x) (frozen x) (frozen_this_turn x) (temp_attack x) (player x) (immune x) (delayed x) (stealth x).

Definition set_used_wind_fury (v : bool) (x : t) : t :=
  mk (health x) (max_health x) (attack_power x) (active x) (dead x) (wind_fury x) v (frozen x) (frozen_this_turn x) (temp_attack x) (player x) (immune x) (delayed x) (stealth x).

Definition set_frozen (v : bool) (x : t) : t :=
  mk (health x) (max_health x) (attack_power x) (active x) (dead x) (wind_fury x) (used_wind_fury x) v (frozen_this_turn x) (temp_attack x) (player x) (immune x) (delayed x) (stealth x).

Definition set_frozen_this_turn (v : bool) (x : t) : t :=
  mk (health x) (max_health x) (attack_power x) (active x) (dead x) (wind_fury x) (used_wind_fury x) (frozen x) v (temp_attack x) (player x) (immune x) (delayed x) (stealth x).

Definition set_temp_attack (v : Z) (x : t) : t :=
  mk (health x) (max_health x) (attack_power x) (active x) (dead x) (wind_fury x) (used_wind_fury x) (frozen x) (frozen_this_turn x) v (player x) (immune x) (delayed x) (stealth x).

Definition set_player (v : option pid) (x : t) : t :=
  mk (health x) (max_health x) (attack_power x) (active x) (dead x) (wind_fury x) (used_wind_fury x) (frozen x) (frozen_this_turn x) (temp_attack x) v (immune x) (delayed x) (stealth x).

Definition set_immune (v : bool) (x : t) : t :=
  mk (health x) (max_health x) (attack_power x) (active x) (dead x) (wind_fury x) (used_wind_fury x) (frozen x) (frozen_this_turn x) (temp_attack x) (player x) v (delayed x) (stealth x).

Definition set_delayed (v : nat) (x : t) : t :=
  mk (health x) (max_health x) (attack_power x) (active x) (dead x) (wind_fury x) (used_wind_fury x) (frozen x) (frozen_this_turn x) (temp_attack x) (player x) (immune x) v (stealth x).

Definition set_stealth (v : bool) (x : t) : t :=
  mk (health x) (max_health x) (attack_power x) (active x) (dead x) (wind_fury x) (used_wind_fury x) (frozen x) (frozen_this_turn x) (temp_attack x) (player x) (immune x) (delayed x) v.

End Character.

Module Minion.

(** A [Minion]: the [Character] part and the attributes [Minion.__init__] adds. [game] tells whether [self.game] is set (there is one [Game]). *)
Record t := mk {
  base : Character.t;
  minion_type : Z;
  taunt : bool;
  game : bool;
  card : option nat;
  index : Z;
  charge : bool;
  spell_power : Z;
  divine_shield : bool;
  battlecry : option fn;
  deathrattle : option fn
}.

Definition set_base (v : Character.t) (x : t) : t :=
  mk v (minion_type x) (taunt x) (game x) (card x) (index x) (charge x) (spell_power x) (divine_shield x) (battlecry x) (deathrattle x).

Definition set_minion_type (v : Z) (x : t) : t :=
  mk (base x) v (taunt x) (game x) (card x) (index x) (charge x) (spell_power x) (divine_shield x) (battlecry x) (deathrattle x).

Definition set_taunt (v : bool) (x : t) : t :=
  mk (base x) (minion_type x) v (game x) (card x) (index x) (charge x) (spell_power x) (divine_shield x) (battlecry x) (deathrattle x).

Definition set_game (v : bool) (x : t) : t :=
  mk (base x) (minion_type x) (taunt x) v (card x) (index x) (charge x) (spell_power x) (divine_shield x) (battlecry x) (deathrattle x).

Definition set_card (v : option nat) (x : t) : t :=
  mk (base x) (minion_type x) (taunt x) (game x) v (index x) (charge x) (spell_power x) (divine_shield x) (battlecry x) (deathrattle x).

Definition set_index (v : Z) (x : t) : t :=
  mk (base x) (minion_type x) (taunt x) (game x) (card x) v (charge x) (spell_power x) (divine_shield x) (battlecry x) (deathrattle x).

Definition set_charge (v : bool) (x : t) : t :=
  mk (base x) (minion_type x) (taunt x) (game x) (card x) (index x) v (spell_power x) (divine_shield x) (battlecry x) (deathrattle x).

Definition set_spell_power (v : Z) (x : t) : t :=
  mk (base x) (minion_type x) (taunt x) (game x) (card x) (index x) (charge x) v (divine_shield x) (battlecry x) (deathrattle x).

Definition set_divine_shield (v : bool) (x : t) : t :=
  mk (base x) (minion_type x) (taunt x) (game x) (card x) (index x) (charge x) (spell_power x) v (battlecry x) (deathrattle x).

Definition set_battlecry (v : option fn) (x : t) : t :=
  mk (base x) (minion_type x) (taunt x) (game x) (card x) (index x) (charge x) (spell_power x) (divine_shield x) v (deathrattle x).

Definition set_deathrattle (v : option fn) (x : t) : t :=
  mk (base x) (minion_type x) (taunt x) (game x) (card x) (index x) (charge x) (spell_power x) (divine_shield x) (battlecry x) v.

End Minion.

Module Hero.

(** A [Hero]: the [Character] part and the armour. *)
Record t := mk {
  base : Character.t;
  armour : Z
}.

Definition set_base (v : Character.t) (x : t) : t :=
  mk v (armour x).

Definition set_armour (v : Z) (x : t) : t :=
  mk (base x) v.

End Hero.

Module Card.

(** A [Card]; [kind] is the class it was made from, [player] the attribute [SecretCard] adds. [targets] and [target] are [None] for Python's [None]. *)
Record t := mk {
  name : string;
  mana : Z;
  cancel : bool;
  targetable : bool;
  targets : option (list obj);
  target : option obj;
  kind : card_kind;
  player : option pid
}.

Definition set_name (v : string) (x : t) : t :=
  mk v (mana x) (cancel x) (targetable x) (targets x) (target x) (kind x) (player x).

Definition set_mana (v : Z) (x : t) : t :=
  mk (name x) v (cancel x) (targetable x) (targets x) (target x) (kind x) (player x).

Definition set_cancel (v : bool) (x : t) : t :=
  mk (name x) (mana x) v (targetable x) (targets x) (target x) (kind x) (player x).

Definition set_targetable (v : bool) (x : t) : t :=
  mk (name x) (mana x) (cancel x) v (targets x) (target x) (kind x) (player x).

Definition set_targets (v : option (list obj)) (x : t) : t :=
  mk (name x) (mana x) (cancel x) (targetable x) v (target x) (kind x) (player x).

Definition set_target (v : option obj) (x : t) : t :=
  mk (name x) (mana x) (cancel x) (targetable x) (targets x) v (kind x) (player x).

Definition set_kind (v : card_kind) (x : t) : t :=
  mk (name x) (mana x) (cancel x) (targetable x) (targets x) (target x) v (player x).

Definition set_player (v : option pid) (x : t) : t :=
  mk (name x) (mana x) (cancel x) (targetable x) (targets x) (target x) (kind x) v.

End Card.

Module ManaFilter.

(** A mana filter of [Player.mana_filters]: an object with [amount], [filter] and [min]. *)
Record t := mk {
  amount : Z;
  filter : Card.t → bool;
  min : Z
}.

Definition set_amount (v : Z) (x : t) : t :=
  mk v (filter x) (min x).

Definition set_filter (v : Card.t → bool) (x : t) : t :=
  mk (amount x) v (min x).

Definition set_min (v : Z) (x : t) : t :=
  mk (amount x) (filter x) v.

End ManaFilter.

Module Player.

(** A [Player]; its [Hero] is owned by it and never replaced. *)
Record t := mk {
  hero : Hero.t;
  name : string;
  mana : Z;
  max_mana : Z;
  deck : Deck.t;
  spell_power : Z;
  minions : list nat;
  hand : list nat;
  fatigue : Z;
  secrets : list nat;
  mana_filters : list ManaFilter.t
}.

Definition set_hero (v : Hero.t) (x : t) : t :=
  mk v (name x) (mana x) (max_mana x) (deck x) (spell_power x) (minions x) (hand x) (fatigue x) (secrets x) (mana_filters x).

Definition set_name (v : string) (x : t) : t :=
  mk (hero x) v (mana x) (max_mana x) (deck x) (spell_power x) (minions x) (hand x) (fatigue x) (secrets x) (mana_filters x).

Definition set_mana (v : Z) (x : t) : t :=
  mk (hero x) (name x) v (max_mana x) (deck x) (spell_power x) (minions x) (hand x) (fatigue x) (secrets x) (mana_filters x).

Definition set_max_mana (v : Z) (x : t) : t :=
  mk (hero x) (name x) (mana x) v (deck x) (spell_power x) (minions x) (hand x) (fatigue x) (secrets x) (mana_filters x).

Definition set_deck (v : Deck.t) (x : t) : t :=
  mk (hero x) (name x) (mana x) (max_mana x) v (spell_power x) (minions x) (hand x) (fatigue x) (secrets x) (mana_filters x).

Definition set_spell_power (v : Z) (x : t) : t :=
  mk (hero x) (name x) (mana x) (max_mana x) (deck x) v (minions x) (hand x) (fatigue x) (secrets x) (mana_filters x).

Definition set_minions (v : list nat) (x : t) : t :=
  mk (hero x) (name x) (mana x) (max_mana x) (deck x) (spell_power x) v (hand x) (fatigue x) (secrets x) (mana_filters x).

Definition set_hand (v : list nat) (x : t) : t :=
  mk (hero x) (name x) (mana x) (max_mana x) (deck x) (spell_power x) (minions x) v (fatigue x) (secrets x) (mana_filters x).

Definition set_fatigue (v : Z) (x : t) : t :=
  mk (hero x) (name x) (mana x) (max_mana x) (deck x) (spell_power x) (minions x) (hand x) v (secrets x) (mana_filters x).

Definition set_secrets (v : list nat) (x : t) : t :=
  mk (hero x) (name x) (mana x) (max_mana x) (deck x) (spell_power x) (minions x) (hand x) (fatigue x) v (mana_filters x).

Definition set_mana_filters (v : list ManaFilter.t) (x : t) : t :=
  mk (hero x) (name x) (mana x) (max_mana x) (deck x) (spell_power x) (minions x) (hand x) (fatigue x) (secrets x) v.

End Player.

Module World.

(** The [Game] and every object reachable from it.  [events] holds the [events] dict of every [Bindable], [handlers] the [Handler] objects, [lists] the list objects that are shared by reference; [minions] and [cards] are the stores of the [Minion] and [Card] objects.  [trace] is a ghost field: the journal of the dispatches and of the methods entered. *)
Record t := mk {
  events : gmap obj (gmap string (list nat));
  handlers : gmap nat Handler.t;
  next_handler : nat;
  lists : gmap nat (list val);
  next_list : nat;
  minions : gmap nat Minion.t;
  cards : gmap nat Card.t;
  players_0 : Player.t;
  players_1 : Player.t;
  current_player : pid;
  other_player : pid;
  game_ended : bool;
  delayed_minions : nat;
  trace : list Ev
}.

Definition set_events (v : gmap obj (gmap string (list nat))) (x : t) : t :=
  mk v (handlers x) (next_handler x) (lists x) (next_list x) (minions x) (cards x) (players_0 x) (players_1 x) (current_player x) (other_player x) (game_ended x) (delayed_minions x) (trace x).

Definition set_handlers (v : gmap nat Handler.t) (x : t) : t :=
  mk (events x) v (next_handler x) (lists x) (next_list x) (minions x) (cards x) (players_0 x) (players_1 x) (current_player x) (other_player x) (game_ended x) (delayed_minions x) (trace x).

Definition set_next_handler (v : nat) (x : t) : t :=
  mk (events x) (handlers x) v (lists x) (next_list x) (minions x) (cards x) (players_0 x) (players_1 x) (current_player x) (other_player x) (game_ended x) (delayed_minions x) (trace x).

Definition set_lists (v : gmap nat (list val)) (x : t) : t :=
  mk (events x) (handlers x) (next_handler x) v (next_list x) (minions x) (cards x) (players_0 x) (players_1 x) (current_player x) (other_player x) (game_ended x) (delayed_minions x) (trace x).

Definition set_next_list (v : nat) (x : t) : t :=
  mk (events x) (handlers x) (next_handler x) (lists x) v (minions x) (cards x) (players_0 x) (players_1 x) (current_player x) (other_player x) (game_ended x) (delayed_minions x) (trace x).

Definition set_minions (v : gmap nat Minion.t) (x : t) : t :=
  mk (events x) (handlers x) (next_handler x) (lists x) (next_list x) v (cards x) (players_0 x) (players_1 x) (current_player x) (other_player x) (game_ended x) (delayed_minions x) (trace x).

Definition set_cards (v : gmap nat Card.t) (x : t) : t :=
  mk (events x) (handlers x) (next_handler x) (lists x) (next_list x) (minions x) v (players_0 x) (players_1 x) (current_player x) (other_player x) (game_ended x) (delayed_minions x) (trace x).

Definition set_players_0 (v : Player.t) (x : t) : t :=
  mk (events x) (handlers x) (next_handler x) (lists x) (next_list x) (minions x) (cards x) v (players_1 x) (current_player x) (other_player x) (game_ended x) (delayed_minions x) (trace x).

Definition set_players_1 (v : Player.t) (x : t) : t :=
  mk (events x) (handlers x) (next_handler x) (lists x) (next_list x) (minions x) (cards x) (players_0 x) v (current_player x) (other_player x) (game_ended x) (delayed_minions x) (trace x).

Definition set_current_player (v : pid) (x : t) : t :=
  mk (events x) (handlers x) (next_handler x) (lists x) (next_list x) (minions x) (cards x) (players_0 x) (players_1 x) v (other_player x) (game_ended x) (delayed_minions x) (trace x).

Definition set_other_player (v : pid) (x : t) : t :=
  mk (events x) (handlers x) (next_handler x) (lists x) (next_list x) (minions x) (cards x) (players_0 x) (players_1 x) (current_player x) v (game_ended x) (delayed_minions x) (trace x).

Definition set_game_ended (v : bool) (x : t) : t :=
  mk (events x) (handlers x) (next_handler x) (lists x) (next_list x) (minions x) (cards x) (players_0 x) (players_1 x) (current_player x) (other_player x) v (delayed_minions x) (trace x).

Definition set_delayed_minions (v : nat) (x : t) : t :=
  mk (events x) (handlers x) (next_handler x) (lists x) (next_list x) (minions x) (cards x) (players_0 x) (players_1 x) (current_player x) (other_player x) (game_ended x) v (trace x).

Definition set_trace (v : list Ev) (x : t) : t :=
  mk (events x) (handlers x) (next_handler x) (lists x) (next_list x) (minions x) (cards x) (players_0 x) (players_1 x) (current_player x) (other_player x) (game_ended x) (delayed_minions x) v.

End World.


(** ** The monad of methods *)

(** A method is a function of the world that returns, raises or is
    undefined. *)
Definition M (A : Type) : Type := World.t → outcome World.t A.

Definition ret {A} (a : A) : M A := λ w, Ok a w.

Definition and_then {A B} (m : M A) (k : A → M B) : M B :=
  λ w, match m w with
       | Ok a w' => k a w'
       | Raise e w' => Raise e w'
       | Undef => Undef
       end.

Definition raise {A} (e : exn) : M A := λ w, Raise e w.

Definition undef {A} : M A := λ _, Undef.

Definition get : M World.t := λ w, Ok w w.

Definition modify (f : World.t → World.t) : M unit := λ w, Ok tt (f w).

(** A reference that must lead to an object. *)
Definition expect {A} (o : option A) : M A :=
  match o with
  | Some a => ret a
  | None => undef
  end.

(** A value that is [None] where the code goes on to read an attribute of
    it. *)
Definition attribute {A} (o : option A) : M A :=
  match o with
  | Some a => ret a
  | None => raise AttributeError
  end.

Notation "'let!' x ':=' m 'in' k" := (and_then m (λ x, k))
  (at level 10, x name, m at level 100, k at level 200).
Notation "m1 ;;; m2" := (and_then m1 (λ _, m2))
  (at level 100, m2 at level 200, right associativity).

Definition when (b : bool) (m : M unit) : M unit := if b then m else ret tt.

(** [for x in l: f(x)] over a list that the body does not change. *)
Fixpoint for_each {A} (l : list A) (f : A → M unit) : M unit :=
  match l with
  | [] => ret tt
  | a :: l' => f a ;;; for_each l' f
  end.

(** Appends an entry to the journal. *)
Definition journal (e : Ev) : M unit :=
  modify (λ w, World.set_trace (World.trace w ++ [e]) w).

(** ** Access to the objects of the world *)

Definition get_player (p : pid) (w : World.t) : Player.t :=
  match p with
  | P0 => World.players_0 w
  | P1 => World.players_1 w
  end.

Definition set_player (p : pid) (x : Player.t) (w : World.t) : World.t :=
  match p with
  | P0 => World.set_players_0 x w
  | P1 => World.set_players_1 x w
  end.

Definition modify_player (p : pid) (f : Player.t → Player.t) : M unit :=
  modify (λ w, set_player p (f (get_player p w)) w).

Definition get_minion (m : nat) : M Minion.t :=
  λ w, expect (World.minions w !! m) w.

Definition modify_minion (m : nat) (f : Minion.t → Minion.t) : M unit :=
  let! x := get_minion m in
  modify (λ w, World.set_minions (<[m := f x]> (World.minions w)) w).

Definition get_card (c : nat) : M Card.t :=
  λ w, expect (World.cards w !! c) w.

Definition modify_card (c : nat) (f : Card.t → Card.t) : M unit :=
  let! x := get_card c in
  modify (λ w, World.set_cards (<[c := f x]> (World.cards w)) w).

(** The [Character] part of a hero or a minion; any other object has none
    of its attributes. *)
Definition get_character (o : obj) : M Character.t :=
  match o with
  | OMinion m => let! x := get_minion m in ret (Minion.base x)
  | OHero p => λ w, Ok (Hero.base (Player.hero (get_player p w))) w
  | _ => raise AttributeError
  end.

Definition modify_character (o : obj) (f : Character.t → Character.t) : M unit :=
  match o with
  | OMinion m => modify_minion m (λ x, Minion.set_base (f (Minion.base x)) x)
  | OHero p =>
      modify_player p
        (λ x, Player.set_hero (Hero.set_base (f (Hero.base (Player.hero x))) (Player.hero x)) x)
  | _ => raise AttributeError
  end.

Definition get_list (r : nat) : M (list val) :=
  λ w, expect (World.lists w !! r) w.

(** [l.append(v)] on the list object [r]. *)
Definition list_append (r : nat) (v : val) : M unit :=
  let! l := get_list r in
  modify (λ w, World.set_lists (<[r := l ++ [v]]> (World.lists w)) w).

(** A fresh, empty list object. *)
Definition new_list : M nat :=
  λ w, let r := World.next_list w in
       Ok r (World.set_next_list (S r) (World.set_lists (<[r := []]> (World.lists w)) w)).


(** ** The engine *)

Section Engine.

(** How a function object is called: [call f args] runs the function [f] on the arguments [args].  The
    engine's own bound functions are tied to the methods below by
    [call_function]; the others are code from outside this module. *)
Variable call : fn → list val → M unit.

(** The bound of the loops that walk a list while it can grow. *)
Variable fuel : nat.

(** The agents of the two players: [player.agent.choose_target(targets)] and
    [player.agent.choose_index(card)]. *)
Variable choose_target : pid → list obj → World.t → obj.
Variable choose_index : pid → nat → World.t → Z.

(** [card.get_targets(game, card.filter_func)], a function of
    [hsgame.targeting]; [None] is Python's [None]. *)
Variable get_targets : nat → World.t → option (list obj).

(** [card.create_minion(player)], given by the subclasses of [MinionCard]:
    it returns a new [Minion] object. *)
Variable create_minion : nat → pid → M nat.

(** The random source [random.randint] of the players, as the state of
    the world determines it. *)
Variable random_func : World.t → Z → Z → Z.

(** *** Bindable *)

Definition get_events (o : obj) : M (gmap string (list nat)) :=
  λ w, expect (World.events w !! o) w.

Definition set_events (o : obj) (d : gmap string (list nat)) : M unit :=
  modify (λ w, World.set_events (<[o := d]> (World.events w)) w).

Definition get_handler (h : nat) : M Handler.t :=
  λ w, expect (World.handlers w !! h) w.

Definition set_handler_active (h : nat) (b : bool) : M unit :=
  let! x := get_handler h in
  modify (λ w, World.set_handlers (<[h := Handler.set_active b x]> (World.handlers w)) w).

(** A new [Handler] object. *)
Definition new_handler (x : Handler.t) : M nat :=
  λ w, let h := World.next_handler w in
       Ok h (World.set_next_handler (S h)
               (World.set_handlers (<[h := x]> (World.handlers w)) w)).

(** The common body of [bind] and [bind_once]. *)
Definition bind_handler (remove : bool) (self : obj) (event : string)
    (function : fn) (args : list val) : M unit :=
  let! h := new_handler (Handler.mk args function remove false) in
  let! events := get_events self in
  set_events self (<[event := default [] (events !! event) ++ [h]]> events).

(** [Bindable.bind] *)
Definition bind := bind_handler false.

(** [Bindable.bind_once] *)
Definition bind_once := bind_handler true.

(** [self.events[event].remove(handler)] and the tidying up after it. *)
Definition remove_handler (self : obj) (event : string) (h : nat) : M unit :=
  let! events := get_events self in
  match events !! event with
  | None => raise KeyError
  | Some l =>
      match py_remove h l with
      | None => raise ValueError
      | Some l' =>
          set_events self (<[event := l']> events) ;;;
          let! events := get_events self in
          match events !! event with
          | None => raise KeyError
          | Some l'' =>
              if decide (length l'' = 0%nat)
              then set_events self (delete event events)
              else ret tt
          end
      end
  end.

(** The loop of [Bindable.trigger] over the copy of the handler list. *)
Fixpoint trigger_loop (self : obj) (event : string) (args : list val)
    (copy : list nat) : M unit :=
  match copy with
  | [] => ret tt
  | h :: copy' =>
      (let! handler := get_handler h in
       if Handler.active handler then ret tt
       else
         let pass_args := args ++ Handler.args handler in
         set_handler_active h true ;;;
         journal (Invoked h (Handler.function handler) pass_args) ;;;
         call (Handler.function handler) pass_args ;;;
         set_handler_active h false ;;;
         let! handler := get_handler h in
         when (Handler.remove handler) (remove_handler self event h)) ;;;
      trigger_loop self event args copy'
  end.

(** [Bindable.trigger] *)
Definition trigger (self : obj) (event : string) (args : list val) : M unit :=
  journal (Triggered self event args) ;;;
  let! events := get_events self in
  match events !! event with
  | None => ret tt
  | Some l => trigger_loop self event args l
  end.

(** The list comprehension of [Bindable.unbind]: the handlers whose function
    is not [function]. *)
Fixpoint unbind_filter (function : fn) (l : list nat) : M (list nat) :=
  match l with
  | [] => ret []
  | h :: l' =>
      let! handler := get_handler h in
      let! rest := unbind_filter function l' in
      ret (if decide (Handler.function handler = function) then rest else h :: rest)
  end.

(** [Bindable.unbind] *)
Definition unbind (self : obj) (event : string) (function : fn) : M unit :=
  let! events := get_events self in
  match events !! event with
  | None => ret tt
  | Some l =>
      let! l' := unbind_filter function l in
      if decide (length l' = 0%nat)
      then set_events self (delete event events)
      else set_events self (<[event := l']> events)
  end.

(** *** Character *)

(** [Character.turn_complete] *)
Definition turn_complete (self : obj) : M unit :=
  let! c := get_character self in
  when (0 <? Character.temp_attack c)
    (trigger self "attack_decreased" [VInt (Character.temp_attack c)] ;;;
     modify_character self (Character.set_temp_attack 0)).

(** [Character.delayed_trigger] *)
Definition delayed_trigger (self : obj) (event : string) (args : list val) : M unit :=
  let! c := get_character self in
  list_append (Character.delayed c) (VDict event args) ;;;
  let! c := get_character self in
  let! _ := attribute (Character.player c) in
  let! w := get in
  list_append (World.delayed_minions w) (VRef self).

(** The loop of [Character.activate_delayed]: it walks the list object [r]
    by position, so it also reaches what is appended while it runs. *)
Fixpoint activate_delayed_loop (n : nat) (self : obj) (r : nat) (i : nat) : M unit :=
  match n with
  | O => undef
  | S n' =>
      let! l := get_list r in
      match l !! i with
      | None => ret tt
      | Some (VDict event args) =>
          trigger self event args ;;;
          activate_delayed_loop n' self r (S i)
      | Some _ => undef
      end
  end.

(** [Character.activate_delayed] *)
Definition activate_delayed (self : obj) : M unit :=
  let! c := get_character self in
  activate_delayed_loop fuel self (Character.delayed c) 0 ;;;
  let! r := new_list in
  modify_character self (Character.set_delayed r).

(** [Character.freeze] *)
Definition freeze (self : obj) : M unit :=
  modify_character self (Character.set_frozen_this_turn true) ;;;
  modify_character self (Character.set_frozen true).

(** [Character.silence] *)
Definition Character_silence (self : obj) : M unit :=
  trigger self "silenced" [] ;;;
  modify_character self (Character.set_wind_fury false) ;;;
  modify_character self (Character.set_frozen false) ;;;
  modify_character self (Character.set_frozen_this_turn false).

(** [Character.die] *)
Definition Character_die (self : obj) (by_ : val) : M unit :=
  delayed_trigger self "died" [by_] ;;;
  modify_character self (Character.set_dead true).

(** [Character.can_attack] *)
Definition can_attack (self : obj) : M bool :=
  let! c := get_character self in
  ret ((0 <? Character.attack_power c + Character.temp_attack c)
       && Character.active c && negb (Character.frozen c)).

(** *** Minion: silence, removal from the board, death *)

(** [self.player] of a minion, which is [None] until it is on a board. *)
Definition minion_player (m : nat) : M pid :=
  let! x := get_minion m in
  attribute (Character.player (Minion.base x)).

(** [self.game] of a minion, which is [None] until it is on a board. *)
Definition minion_game (m : nat) : M unit :=
  let! x := get_minion m in
  if Minion.game x then ret tt else raise AttributeError.

(** [Minion.silence] *)
Definition Minion_silence (m : nat) : M unit :=
  journal (Entered "Minion.silence" (OMinion m)) ;;;
  Character_silence (OMinion m) ;;;
  modify_minion m (Minion.set_taunt false) ;;;
  modify_character (OMinion m) (Character.set_stealth false) ;;;
  modify_minion m (Minion.set_charge false) ;;;
  let! p := minion_player m in
  let! x := get_minion m in
  modify_player p (λ pl, Player.set_spell_power (Player.spell_power pl - Minion.spell_power x) pl) ;;;
  modify_minion m (Minion.set_spell_power 0) ;;;
  modify_minion m (Minion.set_divine_shield false) ;;;
  modify_minion m (Minion.set_battlecry None) ;;;
  modify_minion m (Minion.set_deathrattle None).

(** [Game.remove_minion] *)
Definition remove_minion (m : nat) (p : pid) : M unit :=
  let! w := get in
  match py_remove m (Player.minions (get_player p w)) with
  | None => raise ValueError
  | Some l =>
      modify_player p (Player.set_minions l) ;;;
      trigger OGame "minion_removed" [VRef (OMinion m); VRef (OPlayer p)]
  end.

(** [Minion.remove_from_board] *)
Definition remove_from_board (m : nat) : M unit :=
  journal (Entered "Minion.remove_from_board" (OMinion m)) ;;;
  let! p := minion_player m in
  let! x := get_minion m in
  modify_player p (λ pl, Player.set_spell_power (Player.spell_power pl - Minion.spell_power x) pl) ;;;
  let! w := get in
  for_each (Player.minions (get_player p w))
    (λ other,
       let! y := get_minion other in
       let! x := get_minion m in
       when (Minion.index x <? Minion.index y)
         (modify_minion other (Minion.set_index (Minion.index y - 1)))) ;;;
  minion_game m ;;;
  let! p := minion_player m in
  remove_minion m p ;;;
  let! p := minion_player m in
  unbind (OPlayer p) "turn_ended" (Bound_turn_complete (OMinion m)).

(** [Minion.die] *)
Definition Minion_die (m : nat) (by_ : val) : M unit :=
  journal (Entered "Minion.die" (OMinion m)) ;;;
  let! x := get_minion m in
  let deathrattle := Minion.deathrattle x in
  bind_once (OMinion m) "died" (Minion_die_lambda m) [] ;;;
  Character_die (OMinion m) by_ ;;;
  minion_game m ;;;
  trigger OGame "minion_died" [VRef (OMinion m); by_] ;;;
  match deathrattle with
  | Some f => journal (Entered "deathrattle" (OMinion m)) ;;; call f []
  | None => ret tt
  end ;;;
  remove_from_board m.

(** [Hero.die] *)
Definition Hero_die (p : pid) (by_ : val) : M unit :=
  Character_die (OHero p) by_.

(** [self.die(by)], by the class of [self]. *)
Definition die (self : obj) (by_ : val) : M unit :=
  match self with
  | OMinion m => Minion_die m by_
  | OHero p => Hero_die p by_
  | _ => raise AttributeError
  end.

(** *** Damage *)

(** [Character.damage] *)
Definition Character_damage (self : obj) (amount : Z) (attacker : val) : M unit :=
  let! c := get_character self in
  if Character.immune c then ret tt
  else
    delayed_trigger self "damaged" [VInt amount; attacker] ;;;
    trigger self "secret_damaged" [VInt amount; attacker] ;;;
    modify_character self (λ c, Character.set_health (Character.health c - amount) c) ;;;
    match attacker with
    | VRef (OMinion a) => delayed_trigger (OMinion a) "did_damage" [VInt amount; VRef self]
    | VRef (OPlayer p) => trigger (OPlayer p) "did_damage" [VInt amount; VRef self]
    | _ => ret tt
    end ;;;
    let! c := get_character self in
    when (Character.health c <=? 0) (die self attacker).

(** [Minion.damage] *)
Definition Minion_damage (m : nat) (amount : Z) (attacker : val) : M unit :=
  let! x := get_minion m in
  if Minion.divine_shield x then modify_minion m (Minion.set_divine_shield false)
  else Character_damage (OMinion m) amount attacker.

(** [Hero.damage] *)
Definition Hero_damage (p : pid) (amount : Z) (attacker : val) : M unit :=
  modify_player p
    (λ pl, Player.set_hero (Hero.set_armour (Hero.armour (Player.hero pl) - amount) (Player.hero pl)) pl) ;;;
  let! w := get in
  let armour := Hero.armour (Player.hero (get_player p w)) in
  when (armour <? 0)
    (let new_amount := - armour in
     modify_player p (λ pl, Player.set_hero (Hero.set_armour 0 (Player.hero pl)) pl) ;;;
     Character_damage (OHero p) new_amount attacker).

(** [self.damage(amount, attacker)], by the class of [self]. *)
Definition damage (self : obj) (amount : Z) (attacker : val) : M unit :=
  match self with
  | OMinion m => Minion_damage m amount attacker
  | OHero p => Hero_damage p amount attacker
  | _ => raise AttributeError
  end.

(** [Character.spell_damage] *)
Definition spell_damage (self : obj) (amount : Z) (spell_card : val) : M unit :=
  get_character self ;;;
  trigger self "spell_damaged" [VInt amount; spell_card] ;;;
  damage self amount spell_card.

(** [Character.minion_damage] *)
Definition minion_damage (self : obj) (amount : Z) (minion : val) : M unit :=
  trigger self "minion_damaged" [VInt amount; minion] ;;;
  damage self amount minion.

(** [Character.player_damage] *)
Definition player_damage (self : obj) (amount : Z) (player : val) : M unit :=
  trigger self "player_damaged" [VInt amount; player] ;;;
  damage self amount player.

(** [Character.physical_damage]; an object that is no [Character] has no
    such method. *)
Definition physical_damage (self : obj) (amount : Z) (attacker : val) : M unit :=
  get_character self ;;;
  trigger self "physically_damaged" [VInt amount; attacker] ;;;
  match attacker with
  | VRef (OPlayer _) => player_damage self amount attacker
  | _ => minion_damage self amount attacker
  end.


(** *** Attack *)

(** [Minion.can_be_attacked] *)
Definition can_be_attacked (x : Minion.t) : bool :=
  negb (Character.stealth (Minion.base x)).

(** The loop of [Character.attack] over the minions of the other player. *)
Fixpoint attack_scan (enemies : list nat) (found_taunt : bool) (targets : list nat)
    : M (bool * list nat) :=
  match enemies with
  | [] => ret (found_taunt, targets)
  | enemy :: enemies' =>
      let! x := get_minion enemy in
      let found_taunt :=
        if Minion.taunt x && can_be_attacked x then true else found_taunt in
      let targets := if can_be_attacked x then targets ++ [enemy] else targets in
      attack_scan enemies' found_taunt targets
  end.

(** [[target for target in targets if target.taunt]] *)
Fixpoint taunt_only (targets : list nat) : M (list nat) :=
  match targets with
  | [] => ret []
  | t :: targets' =>
      let! x := get_minion t in
      let! rest := taunt_only targets' in
      ret (if Minion.taunt x then t :: rest else rest)
  end.

(** The targets [Character.attack] hands to [choose_target]. *)
Definition attack_targets (self : obj) : M (list obj) :=
  let! c := get_character self in
  let! _ := attribute (Character.player c) in
  let! w := get in
  let other := World.other_player w in
  let! scan := attack_scan (Player.minions (get_player other w)) false [] in
  if fst scan then
    let! targets := taunt_only (snd scan) in
    ret (OMinion <$> targets)
  else ret ((OMinion <$> snd scan) ++ [OHero other]).

(** [Minion.choose_target] and [Hero.choose_target]: the agent of the
    player chooses. *)
Definition Character_choose_target (self : obj) (targets : list obj) : M obj :=
  let! c := get_character self in
  let! p := attribute (Character.player c) in
  let! w := get in
  ret (choose_target p targets w).

(** The two branches of [Character.attack] on the target; the result tells
    whether the method goes on ([false]: it returned because the attacker
    is dead). *)
Definition attack_resolve (self target : obj) : M bool :=
  match target with
  | OMinion _ =>
      trigger self "attack_minion" [VRef target] ;;;
      trigger target "attacked" [VRef self] ;;;
      let! c := get_character self in
      if Character.dead c then ret false
      else
        let my_attack := Character.attack_power c + Character.temp_attack c in
        let! t := get_character target in
        physical_damage self (Character.attack_power t) (VRef target) ;;;
        physical_damage target my_attack (VRef self) ;;;
        activate_delayed target ;;;
        ret true
  | _ =>
      trigger self "attack_player" [VRef target] ;;;
      trigger target "attacked" [VRef self] ;;;
      let! c := get_character self in
      if Character.dead c then ret false
      else
        physical_damage target (Character.attack_power c + Character.temp_attack c) (VRef self) ;;;
        activate_delayed target ;;;
        ret true
  end.

(** The assignments that end [Character.attack]. *)
Definition attack_flags (c : Character.t) : Character.t :=
  Character.set_stealth false
    (if Character.wind_fury c && negb (Character.used_wind_fury c)
     then Character.set_used_wind_fury true c
     else Character.set_active false c).

(** The end of [Character.attack], from [self.activate_delayed()] on. *)
Definition attack_finish (self : obj) : M unit :=
  activate_delayed self ;;;
  modify_character self attack_flags.

(** [Character.attack] *)
Definition Character_attack (self : obj) : M unit :=
  let! able := can_attack self in
  if negb able then raise (GameException "That minion cannot attack")
  else
    let! targets := attack_targets self in
    let! c := get_character self in
    let! p := attribute (Character.player c) in
    trigger (OPlayer p) "attacking" [VRef self] ;;;
    let! target := Character_choose_target self targets in
    let! goes_on := attack_resolve self target in
    when goes_on (attack_finish self).

(** [Hero.attack] *)
Definition Hero_attack (p : pid) : M unit :=
  trigger (OHero p) "attacking" [VRef (OHero p)] ;;;
  Character_attack (OHero p).

(** [Minion.attack] *)
Definition Minion_attack (m : nat) : M unit :=
  Character_attack (OMinion m).

(** [self.attack()], by the class of [self]. *)
Definition attack (self : obj) : M unit :=
  match self with
  | OMinion m => Minion_attack m
  | OHero p => Hero_attack p
  | _ => raise AttributeError
  end.


(** *** Cards *)

(** The loop of [Card.mana_cost] over the mana filters of the player. *)
Fixpoint mana_cost_loop (card : Card.t) (filters : list ManaFilter.t) (calc_mana : Z) : Z :=
  match filters with
  | [] => calc_mana
  | mana_filter :: filters' =>
      if ManaFilter.filter mana_filter card then
        let calc_mana := calc_mana - ManaFilter.amount mana_filter in
        if calc_mana <? ManaFilter.min mana_filter then ManaFilter.min mana_filter
        else mana_cost_loop card filters' calc_mana
      else mana_cost_loop card filters' calc_mana
  end.

(** [Card.mana_cost] *)
Definition mana_cost (card : nat) (p : pid) : M Z :=
  let! x := get_card card in
  let! w := get in
  ret (mana_cost_loop x (Player.mana_filters (get_player p w)) (Card.mana x)).

(** [Card.can_use] *)
Definition Card_can_use (card : nat) (p : pid) : M bool :=
  let! x := get_card card in
  let! no_target :=
    (if Card.targetable x then
       let! w := get in
       let targets := get_targets card w in
       modify_card card (Card.set_targets targets) ;;;
       ret (match targets with Some [] => true | _ => false end)
     else ret false) in
  if no_target then ret false
  else
    let! cost := mana_cost card p in
    let! w := get in
    ret (cost <=? Player.mana (get_player p w)).

(** [[secret.name for secret in player.secrets]] *)
Fixpoint secret_names (secrets : list nat) : M (list string) :=
  match secrets with
  | [] => ret []
  | s :: secrets' =>
      let! x := get_card s in
      let! rest := secret_names secrets' in
      ret (Card.name x :: rest)
  end.

(** [SecretCard.can_use] *)
Definition SecretCard_can_use (card : nat) (p : pid) : M bool :=
  let! usable := Card_can_use card p in
  if usable then
    let! x := get_card card in
    let! w := get in
    let! names := secret_names (Player.secrets (get_player p w)) in
    ret (bool_decide (Card.name x ∉ names))
  else ret false.

(** [card.can_use(player, game)], by the class of the card;
    [MinionCard.can_use] only calls [Card.can_use]. *)
Definition can_use (card : nat) (p : pid) : M bool :=
  let! x := get_card card in
  match Card.kind x with
  | SecretCard => SecretCard_can_use card p
  | _ => Card_can_use card p
  end.

(** [Card.use] *)
Definition Card_use (card : nat) (p : pid) : M unit :=
  let! x := get_card card in
  when (Card.targetable x)
    match Card.targets x with
    | None => modify_card card (Card.set_target None)
    | Some targets =>
        let! w := get in
        modify_card card (Card.set_target (Some (choose_target p targets w)))
    end.

(** [list.insert(i, x)] *)
Definition py_insert {A} (l : list A) (i : Z) (x : A) : list A :=
  let n := Z.of_nat (length l) in
  let k := Z.to_nat (if i <? 0 then Z.max 0 (n + i) else Z.min i n) in
  take k l ++ x :: drop k l.

(** [Minion.add_to_board] *)
Definition add_to_board (m : nat) (card : nat) (p : pid) (index : Z) : M unit :=
  modify_minion m (Minion.set_card (Some card)) ;;;
  modify_player p (λ pl, Player.set_minions (py_insert (Player.minions pl) index m) pl) ;;;
  modify_minion m (Minion.set_game true) ;;;
  modify_character (OMinion m) (Character.set_player (Some p)) ;;;
  let! x := get_minion m in
  modify_player p (λ pl, Player.set_spell_power (Player.spell_power pl + Minion.spell_power x) pl) ;;;
  match Minion.battlecry x with
  | Some f => call f [VRef (OMinion m)]
  | None => ret tt
  end ;;;
  let! w := get in
  for_each (Player.minions (get_player p w))
    (λ other,
       let! y := get_minion other in
       when (index <=? Minion.index y)
         (modify_minion other (Minion.set_index (Minion.index y + 1)))) ;;;
  modify_minion m (Minion.set_index index) ;;;
  let! x := get_minion m in
  when (Minion.charge x) (modify_character (OMinion m) (Character.set_active true)) ;;;
  minion_game m ;;;
  trigger OGame "minion_added" [VRef (OMinion m)] ;;;
  trigger (OMinion m) "added_to_board" [VRef (OMinion m); VInt index] ;;;
  bind (OPlayer p) "turn_ended" (Bound_turn_complete (OMinion m)) [].

(** [MinionCard.use] *)
Definition MinionCard_use (card : nat) (p : pid) : M unit :=
  Card_use card p ;;;
  let! m := create_minion card p in
  let! w := get in
  add_to_board m card p (choose_index p card w).

(** [SecretCard.use] *)
Definition SecretCard_use (card : nat) (p : pid) : M unit :=
  Card_use card p ;;;
  modify_player p (λ pl, Player.set_secrets (Player.secrets pl ++ [card]) pl) ;;;
  modify_card card (Card.set_player (Some p)).

(** [card.use(player, game)], by the class of the card.  A spell is a direct
    subclass of [Card]: its [use] calls [Card.use] and then has its effect,
    which is code of the card catalogue. *)
Definition use (card : nat) (p : pid) : M unit :=
  journal (Entered "use" (OCard card)) ;;;
  let! x := get_card card in
  match Card.kind x with
  | Spell => Card_use card p ;;; call (Subclass_use card) [VRef (OPlayer p)]
  | MinionCard => MinionCard_use card p
  | SecretCard => SecretCard_use card p
  end.

(** [card.is_spell()]: [MinionCard] overrides [Card.is_spell]. *)
Definition is_spell (x : Card.t) : bool :=
  match Card.kind x with
  | MinionCard => false
  | _ => true
  end.

(** *** Game *)

(** [Game.game_over] *)
Definition game_over : M unit := modify (World.set_game_ended true).

(** The frozen bookkeeping [Game._end_turn] does for a character of the
    player whose turn ends. *)
Definition thaw (c : Character.t) : Character.t :=
  if Character.frozen_this_turn c then Character.set_frozen_this_turn false c
  else Character.set_frozen false c.

(** The assignments of [Game._end_turn] between the dispatch of
    "turn_ended" and the deactivation of the secrets. *)
Definition end_turn_flags : M unit :=
  let! w := get in
  modify_character (OHero (World.current_player w)) thaw ;;;
  let! w := get in
  modify_character (OHero (World.other_player w)) (Character.set_frozen_this_turn false) ;;;
  let! w := get in
  for_each (Player.minions (get_player (World.other_player w) w))
    (λ minion, modify_character (OMinion minion) (Character.set_frozen_this_turn false)) ;;;
  let! w := get in
  modify_character (OHero (World.current_player w)) (Character.set_active true) ;;;
  let! w := get in
  for_each (Player.minions (get_player (World.current_player w) w))
    (λ minion,
       modify_character (OMinion minion) (Character.set_active true) ;;;
       modify_character (OMinion minion) (Character.set_used_wind_fury false) ;;;
       modify_character (OMinion minion) thaw).

(** The loop of [Game._end_turn] over the secrets of player [q]: it walks
    the list by position while the secrets run. *)
Fixpoint deactivate_loop (n : nat) (q : pid) (i : nat) : M unit :=
  match n with
  | O => undef
  | S n' =>
      let! w := get in
      match Player.secrets (get_player q w) !! i with
      | None => ret tt
      | Some secret =>
          call (Subclass_deactivate secret) [VRef (OPlayer (World.other_player w))] ;;;
          deactivate_loop n' q (S i)
      end
  end.

(** [Game._end_turn] *)
Definition _end_turn : M unit :=
  let! w := get in
  trigger (OPlayer (World.current_player w)) "turn_ended" [] ;;;
  end_turn_flags ;;;
  let! w := get in
  deactivate_loop fuel (World.other_player w) 0.

(** The loop of [Game.play_card] over the list object [r] of the delayed
    minions. *)
Fixpoint delayed_minions_loop (n : nat) (r : nat) (i : nat) : M unit :=
  match n with
  | O => undef
  | S n' =>
      let! l := get_list r in
      match l !! i with
      | None => ret tt
      | Some (VRef minion) =>
          activate_delayed minion ;;;
          delayed_minions_loop n' r (S i)
      | Some _ => undef
      end
  end.

(** [Game.play_card] *)
Definition play_card (card : nat) : M unit :=
  let! w := get in
  if World.game_ended w then raise (GameException "The game has ended")
  else
    let! usable := can_use card (World.current_player w) in
    if negb usable then raise (GameException "That card cannot be used")
    else
      let! w := get in
      trigger (OPlayer (World.current_player w)) "card_played" [VRef (OCard card)] ;;;
      let! w := get in
      let p := World.current_player w in
      match py_remove card (Player.hand (get_player p w)) with
      | None => raise ValueError
      | Some hand =>
          modify_player p (Player.set_hand hand) ;;;
          let! w := get in
          let! usable := can_use card (World.current_player w) in
          if usable then
            let! w := get in
            let p := World.current_player w in
            let! cost := mana_cost card p in
            modify_player p (λ pl, Player.set_mana (Player.mana pl - cost) pl) ;;;
            let! x := get_card card in
            when (is_spell x)
              (let! w := get in
               trigger (OPlayer (World.current_player w)) "spell_cast" [VRef (OCard card)]) ;;;
            let! x := get_card card in
            when (negb (Card.cancel x))
              (let! w := get in
               use card (World.current_player w) ;;;
               let! w := get in
               trigger (OPlayer (World.current_player w)) "card_used" [VRef (OCard card)] ;;;
               let! w := get in
               delayed_minions_loop fuel (World.delayed_minions w) 0 ;;;
               let! r := new_list in
               modify (World.set_delayed_minions r))
          else raise (GameException "Tried to play card that could not be played")
      end.


(** *** Drawing and the start of a turn *)

(** [self.deck.draw(self.random)] on the deck of player [p]. *)
Definition deck_draw (p : pid) : M nat :=
  λ w,
    let pl := get_player p w in
    match Deck.draw (random_func w) (Player.deck pl) with
    | Ok card d => Ok card (set_player p (Player.set_deck d pl) w)
    | Raise e d => Raise e (set_player p (Player.set_deck d pl) w)
    | Undef => Undef
    end.

(** [Player.draw] *)
Definition Player_draw (p : pid) : M unit :=
  let! w := get in
  if Deck.can_draw (Player.deck (get_player p w)) then
    let! card := deck_draw p in
    trigger (OPlayer p) "card_drawn" [VRef (OCard card)] ;;;
    let! w := get in
    if (length (Player.hand (get_player p w)) <? 10)%nat
    then modify_player p (λ pl, Player.set_hand (Player.hand pl ++ [card]) pl)
    else trigger (OPlayer p) "card_destroyed" [VRef (OCard card)]
  else
    modify_player p (λ pl, Player.set_fatigue (Player.fatigue pl + 1) pl) ;;;
    let! w := get in
    trigger (OPlayer p) "fatigue_damage" [VInt (Player.fatigue (get_player p w))] ;;;
    let! w := get in
    Hero_damage p (Player.fatigue (get_player p w)) VNone ;;;
    activate_delayed (OHero p).

(** The loop of [Game._start_turn] over the secrets of player [q]. *)
Fixpoint activate_loop (n : nat) (q : pid) (i : nat) : M unit :=
  match n with
  | O => undef
  | S n' =>
      let! w := get in
      match Player.secrets (get_player q w) !! i with
      | None => ret tt
      | Some secret =>
          call (Subclass_activate secret) [VRef (OPlayer (World.other_player w))] ;;;
          activate_loop n' q (S i)
      end
  end.

(** [Game._start_turn] *)
Definition _start_turn : M unit :=
  let! w := get in
  (if decide (World.current_player w = P0)
   then modify (World.set_current_player P1) ;;; modify (World.set_other_player P0)
   else modify (World.set_current_player P0) ;;; modify (World.set_other_player P1)) ;;;
  let! w := get in
  when (Player.max_mana (get_player (World.current_player w) w) <? 10)
    (modify_player (World.current_player w)
       (λ pl, Player.set_max_mana (Player.max_mana pl + 1) pl)) ;;;
  let! w := get in
  activate_loop fuel (World.other_player w) 0 ;;;
  let! w := get in
  modify_player (World.current_player w) (λ pl, Player.set_mana (Player.max_mana pl) pl) ;;;
  let! w := get in
  trigger (OPlayer (World.current_player w)) "turn_started" [] ;;;
  let! w := get in
  Player_draw (World.current_player w).


End Engine.


(** ** Calling function objects *)

(** The functions the engine binds itself are methods of the engine, run
    with one level of calls less; every other function object is run by
    [outside], the code of the card catalogue, the agents and the tests,
    which gets [call] to call back into the engine.  [lambda c:
    self.silence()] and the bound methods ignore how many arguments they
    are given. *)
Fixpoint call_function
    (outside : (fn → list val → M unit) → fn → list val → M unit)
    (n : nat) (f : fn) (args : list val) : M unit :=
  match n with
  | O => undef
  | S n' =>
      let call := call_function outside n' in
      match f with
      | Minion_die_lambda m => Minion_silence call m
      | Bound_turn_complete self => turn_complete call self
      | Bound_game_over => game_over
      | _ => outside call f args
      end
  end.

(** ** Fixtures *)

(** The world a method leaves behind. *)
Definition exec {A} (m : M A) (w : World.t) : World.t :=
  match m w with
  | Ok _ w' => w'
  | Raise _ w' => w'
  | Undef => w
  end.

(** [Character.__init__] with the list object [delayed]. *)
Definition new_character (attack_power health : Z) (player : option pid) (delayed : nat)
    : Character.t :=
  Character.mk health health attack_power false false false false false false 0
    player false delayed false.

(** [Minion.__init__] *)
Definition new_minion (attack health : Z) (delayed : nat) : Minion.t :=
  Minion.mk (new_character attack health None delayed) 0 false false None (-1) false 0
    false None None.

(** [Player.__init__] and the [Hero.__init__] in it, without the agent. *)
Definition new_player (p : pid) (name : string) (deck : Deck.t) (delayed : nat) : Player.t :=
  Player.mk (Hero.mk (new_character 0 30 (Some p) delayed) 0) name 0 0 deck 0 [] [] 0 [] [].

(** A game right after [Game.__init__], with decks that are not drawn from:
    list object 0 is [delayed_minions], 1 and 2 are the [delayed] lists of
    the heroes; each hero has bound its [turn_complete] to "turn_ended" of
    its player ([Hero.__init__]) and the game has bound [game_over] to "died"
    of the heroes.  Player "one" is the current player. *)
Definition new_game (deck_one deck_two : Deck.t) : World.t :=
  let w :=
    World.mk
      (list_to_map [(OGame, ∅); (OPlayer P0, ∅); (OPlayer P1, ∅); (OHero P0, ∅); (OHero P1, ∅)])
      ∅ 0
      (list_to_map [(0%nat, []); (1%nat, []); (2%nat, [])]) 3
      ∅ ∅
      (new_player P0 "one" deck_one 1) (new_player P1 "two" deck_two 2)
      P0 P1 false 0 [] in
  exec (bind (OPlayer P0) "turn_ended" (Bound_turn_complete (OHero P0)) [] ;;;
        bind (OPlayer P1) "turn_ended" (Bound_turn_complete (OHero P1)) [] ;;;
        bind (OHero P0) "died" Bound_game_over [] ;;;
        bind (OHero P1) "died" Bound_game_over []) w.

(** A new [Minion] object [m] in the store, as [create_minion] makes it. *)
Definition store_minion (m : nat) (attack health : Z) : M unit :=
  let! r := new_list in
  modify (λ w, World.set_minions (<[m := new_minion attack health r]> (World.minions w)) w) ;;;
  modify (λ w, World.set_events (<[OMinion m := ∅]> (World.events w)) w).

(** A new [Card] object [c] in the store. *)
Definition store_card (c : nat) (x : Card.t) : M unit :=
  modify (λ w, World.set_cards (<[c := x]> (World.cards w)) w) ;;;
  modify (λ w, World.set_events (<[OCard c := ∅]> (World.events w)) w).

(** The code from outside the module that the examples use.
    - [External 0] is bound with a minion as its last argument and raises
      the attack power of that minion by 5.
    - [External 1] is bound with an object as its last argument and
      triggers event "e" on that object again.
    - [External 3] empties the mana of the current player.
    - [External 4] gives the current player a mana filter that makes every
      card cost 5 more.
    - every other function does nothing. *)
Definition outside (call : fn → list val → M unit) (f : fn) (args : list val) : M unit :=
  match f with
  | External 0 =>
      match last args with
      | Some (VRef o) =>
          modify_character o
            (λ c, Character.set_attack_power (Character.attack_power c + 5) c)
      | _ => ret tt
      end
  | External 1 =>
      match last args with
      | Some (VRef o) => trigger call o "e" []
      | _ => ret tt
      end
  | External 3 =>
      let! w := get in
      modify_player (World.current_player w) (Player.set_mana 0)
  | External 4 =>
      let! w := get in
      modify_player (World.current_player w)
        (λ pl, Player.set_mana_filters
                 (Player.mana_filters pl ++ [ManaFilter.mk (-5) (λ _, true) 0]) pl)
  | _ => ret tt
  end.

(** The agents of the examples choose the first target offered and the end
    of the board; the random source of the examples answers with the lower
    bound. *)
Definition first_target (p : pid) (targets : list obj) (w : World.t) : obj :=
  default OGame (head targets).

Definition lower_bound (w : World.t) (a b : Z) : Z := a.

Definition end_of_board (p : pid) (card : nat) (w : World.t) : Z :=
  Z.of_nat (length (Player.minions (get_player p w))).

(** The examples run the engine with 20 levels of calls. *)
Definition run_call := call_function outside 20.

(** A minion of the given attack and health, prepared by [prepare], made
    and put at the end of the board of player [p]. *)
Definition on_board (m : nat) (attack health : Z) (p : pid)
    (prepare : Minion.t → Minion.t) : M unit :=
  store_minion m attack health ;;;
  modify_minion m prepare ;;;
  let! w := get in
  add_to_board run_call m 0 p (end_of_board p 0%nat w).

(** The game of the examples: both decks hold the cards 0..29. *)
Definition game := new_game (Deck.init (seq 0 30)) (Deck.init (seq 0 30)).


(** ** Definitions that follow the specification *)

(** The minion [m] can be attacked in [w]. *)
Definition is_attackable (w : World.t) (m : nat) : bool :=
  match World.minions w !! m with
  | Some x => can_be_attacked x
  | None => false
  end.

(** The minion [m] has taunt in [w]. *)
Definition has_taunt (w : World.t) (m : nat) : bool :=
  match World.minions w !! m with
  | Some x => Minion.taunt x
  | None => false
  end.

(** The legal targets in the words of the specification: the minions of the
    other player that can be attacked; only the taunted ones of them if
    there is one; the hero of the other player besides them if there is
    none. *)
Definition legal_targets (w : World.t) : list obj :=
  let other := World.other_player w in
  let attackable :=
    filter (λ m, is_attackable w m) (Player.minions (get_player other w)) in
  if existsb (has_taunt w) attackable
  then OMinion <$> filter (λ m, has_taunt w m) attackable
  else (OMinion <$> attackable) ++ [OHero other].


(** The board of the taunt example: minion 0 (3/2, active) of player "one"
    faces minion 1 (1/4, taunt) and minion 2 (2/2) of player "two". *)
Definition taunt_board : World.t :=
  exec (on_board 0 3 2 P0 (λ x, x) ;;;
        modify_character (OMinion 0) (Character.set_active true) ;;;
        on_board 1 1 4 P1 (Minion.set_taunt true) ;;;
        on_board 2 2 2 P1 (λ x, x)) game.

(** The registry of the re-entrancy example: on the game, event "e" has a
    persistent handler that triggers "e" again and, after it, a one-shot
    handler that does nothing. *)
Definition reentrant_bus : World.t :=
  exec (bind OGame "e" (External 1) [VRef OGame] ;;;
        bind_once OGame "e" (External 2) []) game.

(** The board of the death example: minion 0 (3/2, active) of player "one"
    faces minion 1 (1/1, spell power 1) of player "two". *)
Definition death_board : World.t :=
  exec (on_board 0 3 2 P0 (λ x, x) ;;;
        modify_character (OMinion 0) (Character.set_active true) ;;;
        on_board 1 1 1 P1 (Minion.set_spell_power 1)) game.

(** The [Character] part of the hero of player [p]. *)
Definition hero_base (p : pid) (w : World.t) : Character.t :=
  Hero.base (Player.hero (get_player p w)).

(** The [Character] part of minion [m], if there is such a minion. *)
Definition minion_base (m : nat) (w : World.t) : option Character.t :=
  Minion.base <$> World.minions w !! m.

(** The frozen bookkeeping rule in the words of the specification, between
    a character before and after an end of turn: if [frozen_this_turn] is
    set, only that flag is cleared; otherwise [frozen] is cleared. *)
Definition thaw_rule (before after : Character.t) : Prop :=
  if Character.frozen_this_turn before
  then Character.frozen_this_turn after = false ∧
       Character.frozen after = Character.frozen before
  else Character.frozen after = false.

(** What the end of a turn does to the characters of the other player:
    [frozen_this_turn] is cleared and [frozen] stays as it is. *)
Definition keeps_frozen (before after : Character.t) : Prop :=
  Character.frozen_this_turn after = false ∧
  Character.frozen after = Character.frozen before.

(** The board of the divine-shield example: a 1/1 minion with divine shield
    on the board of player "two". *)
Definition shielded_board : World.t :=
  exec (on_board 0 1 1 P1 (Minion.set_divine_shield true)) game.

Definition shielded_minion : Minion.t :=
  default (new_minion 0 0 0) (World.minions shielded_board !! 0%nat).

(** The [Character] part of minion [m], read from a world that has it. *)
Definition the_minion (m : nat) (w : World.t) : Character.t :=
  default (new_character 0 0 None 0) (minion_base m w).

(** The freeze example: during the turn of player "one", minion 0 (2/2) of
    player "two" is frozen. *)
Definition frozen_by_opponent : World.t :=
  exec (on_board 0 2 2 P1 (λ x, x) ;;; freeze (OMinion 0)) game.

(** The second freeze example: player "one" has its own minion 0 frozen
    during its own turn, ends the turn, and the turn of player "two"
    starts. *)
Definition frozen_on_own_turn : World.t :=
  exec (on_board 0 2 2 P0 (λ x, x) ;;; freeze (OMinion 0) ;;;
        _end_turn run_call 20 ;;;
        _start_turn run_call 20 lower_bound) game.

(** The wind-fury example: minion 0 (2/3, wind fury, active) of player "one"
    faces the hero of player "two" and no minion. *)
Definition fury_board : World.t :=
  exec (on_board 0 2 3 P0 (λ x, x) ;;;
        modify_character (OMinion 0) (Character.set_wind_fury true) ;;;
        modify_character (OMinion 0) (Character.set_active true)) game.

(** The wind-fury example after one and after two attacks of minion 0. *)
Definition fury_once : World.t :=
  exec (Character_attack run_call 20 first_target (OMinion 0)) fury_board.

Definition fury_twice : World.t :=
  exec (Character_attack run_call 20 first_target (OMinion 0)) fury_once.

(** The exchange example of the specification: minion 0 (3/2, active) of
    player "one" attacks minion 1 (2/3) of player "two".  Two handlers react
    to the first hit, the one on the attacker: one raises the attack of the
    attacker by 5, the other raises the attack of the target by 5. *)
Definition exchange_board : World.t :=
  exec (on_board 0 3 2 P0 (λ x, x) ;;;
        modify_character (OMinion 0) (Character.set_active true) ;;;
        on_board 1 2 3 P1 (λ x, x) ;;;
        bind (OMinion 0) "physically_damaged" (External 0) [VRef (OMinion 0)] ;;;
        bind (OMinion 0) "minion_damaged" (External 0) [VRef (OMinion 1)]) game.

(** The exchange example after the reactions to "attack_minion" and
    "attacked", and after the whole resolution. *)
Definition exchange_reacted : World.t :=
  exec (trigger run_call (OMinion 0) "attack_minion" [VRef (OMinion 1)] ;;;
        trigger run_call (OMinion 1) "attacked" [VRef (OMinion 0)]) exchange_board.

Definition exchange_resolved : World.t :=
  exec (attack_resolve run_call 20 (OMinion 0) (OMinion 1)) exchange_board.

(** The card example: player "one" has 5 mana and holds card 7, a spell
    that costs 3 and needs no target; a handler bound to "card_played" of
    the player makes every card cost 5 more. *)
Definition card_board : World.t :=
  exec (store_card 7 (Card.mk "Spell" 3 false false None None Spell None) ;;;
        modify_player P0 (Player.set_mana 5) ;;;
        modify_player P0 (Player.set_hand [7%nat]) ;;;
        bind (OPlayer P0) "card_played" (External 4) []) game.

(** The oracles of the card example: no card has targets, no card makes a
    minion. *)
Definition no_targets (card : nat) (w : World.t) : option (list obj) := None.

Definition no_minion (card : nat) (p : pid) : M nat := undef.

(** The card example after the first check, after the dispatch of
    "card_played", and after [play_card]. *)
Definition card_checked : World.t :=
  exec (can_use no_targets 7 P0) card_board.

Definition card_dispatched : World.t :=
  exec (trigger run_call (OPlayer P0) "card_played" [VRef (OCard 7)]) card_checked.

Definition card_played : World.t :=
  exec (play_card run_call 20 first_target end_of_board no_targets no_minion 7) card_board.

(** ** Definitions used in the statements *)

(** The world after an assignment to the hero of [p]. *)
Definition hero_update (p : pid) (f : Character.t → Character.t) (w : World.t) : World.t :=
  set_player p
    (Player.set_hero (Hero.set_base (f (hero_base p w)) (Player.hero (get_player p w)))
       (get_player p w)) w.

(** What [_end_turn] assigns to a minion of the player whose turn ends. *)
Definition end_turn_minion (c : Character.t) : Character.t :=
  thaw (Character.set_used_wind_fury false (Character.set_active true c)).

(** [w'] differs from [w] in the store of the cards at most. *)
Definition cards_only (w w' : World.t) : Prop :=
  w' = World.set_cards (World.cards w') w.


(** ** Sequences of draws *)

(** The cards that a sequence of calls of [Deck.draw] returns, one random
    source per call; a call that raises returns no card and the sequence
    goes on from the deck it leaves. *)
Fixpoint draws (sources : list (Z → Z → Z)) (d : Deck.t) : list nat :=
  match sources with
  | [] => []
  | random_func :: sources' =>
      match Deck.draw random_func d with
      | Ok card d' => card :: draws sources' d'
      | Raise _ d' => draws sources' d'
      | Undef => []
      end
  end.


(** ** The registry, for the statements *)

(** The handler list of [self.events[event]], if the key is there. *)
Definition handlers_of (self : obj) (event : string) (w : World.t) : option (list nat) :=
  World.events w !! self ≫= (.!! event).

(** The handler object [h] was bound with the function [f]. *)
Definition bound_with (f : fn) (w : World.t) (h : nat) : Prop :=
  Handler.function <$> World.handlers w !! h = Some f.

(** The handler object [h] was bound by [bind], not by [bind_once]. *)
Definition is_persistent (w : World.t) (h : nat) : Prop :=
  Handler.remove <$> World.handlers w !! h = Some false.

#[global] Instance bound_with_dec (f : fn) (w : World.t) (h : nat) :
  Decision (bound_with f w h).
Proof. unfold bound_with. apply _. Defined.

#[global] Instance is_persistent_dec (w : World.t) (h : nat) :
  Decision (is_persistent w h).
Proof. unfold is_persistent. apply _. Defined.




(** The world after a binding. *)
Definition bound (remove : bool) (self : obj) (event : string) (f : fn)
    (args : list val) (reg : gmap string (list nat)) (w : World.t) : World.t :=
  World.set_events
    (<[self := <[event := default [] (reg !! event) ++ [World.next_handler w]]> reg]>
       (World.events w))
    (World.set_next_handler (S (World.next_handler w))
       (World.set_handlers
          (<[World.next_handler w := Handler.mk args f remove false]> (World.handlers w)) w)).

(** The registry of an object after an [unbind]. *)
Definition unbound (event : string) (l' : list nat) (reg : gmap string (list nat))
    : gmap string (list nat) :=
  if decide (length l' = 0%nat) then delete event reg else <[event := l']> reg.


(** ** The armour of a hero, for the statements *)

(** The world after [hero.armour = a] on the hero of player [p]. *)
Definition with_armour (p : pid) (a : Z) (w : World.t) : World.t :=
  set_player p
    (Player.set_hero (Hero.set_armour a (Player.hero (get_player p w))) (get_player p w)) w.

(** The game of the examples with 5 armour on the hero of player "one". *)
Definition armoured_hero : World.t := with_armour P0 5 game.


(** ** Further methods *)

Section Methods.

Variable call : fn → list val → M unit.

(** [Character.heal] *)
Definition heal (self : obj) (amount : Z) : M unit :=
  get_character self ;;;
  trigger call self "healed" [VInt amount] ;;;
  modify_character self (λ c, Character.set_health (Character.health c + amount) c) ;;;
  let! c := get_character self in
  when (Character.max_health c <? Character.health c)
    (modify_character self (λ c, Character.set_health (Character.max_health c) c)).

(** [Character.increase_temp_attack] *)
Definition increase_temp_attack (self : obj) (amount : Z) : M unit :=
  get_character self ;;;
  trigger call self "attack_increased" [VInt amount] ;;;
  modify_character self (λ c, Character.set_temp_attack (Character.temp_attack c + amount) c).

(** [self.deck.put_back(card)] on the deck of player [p]. *)
Definition deck_put_back (p : pid) (card : nat) : M unit :=
  λ w,
    let pl := get_player p w in
    match Deck.put_back card (Player.deck pl) with
    | Ok _ d => Ok tt (set_player p (Player.set_deck d pl) w)
    | Raise e d => Raise e (set_player p (Player.set_deck d pl) w)
    | Undef => Undef
    end.

(** [Player.put_back] *)
Definition Player_put_back (p : pid) (card : nat) : M unit :=
  let! w := get in
  match py_remove card (Player.hand (get_player p w)) with
  | None => raise ValueError
  | Some hand =>
      modify_player p (Player.set_hand hand) ;;;
      deck_put_back p card ;;;
      trigger call (OPlayer p) "card_put_back" [VRef (OCard card)]
  end.

(** [SecretCard.reveal] *)
Definition reveal (card : nat) : M unit :=
  let! x := get_card card in
  let! p := attribute (Card.player x) in
  trigger call (OPlayer p) "secret_revealed" [VRef (OCard card)] ;;;
  let! x := get_card card in
  let! p := attribute (Card.player x) in
  let! w := get in
  match py_remove card (Player.secrets (get_player p w)) with
  | None => raise ValueError
  | Some secrets => modify_player p (Player.set_secrets secrets)
  end.

End Methods.


(** The game of the examples with card 40, which is in no deck, as the hand
    of player "one". *)
Definition foreign_hand : World.t :=
  exec (modify_player P0 (Player.set_hand [40%nat])) game.


(** ** A silenced minion, for the statements *)

(** The minion [x] with what [Minion.silence] assigns: wind fury, the frozen
    flags, stealth, taunt, charge, spell power, divine shield, battlecry and
    deathrattle are cleared; the other attributes are those of [x]. *)
Definition silenced (x : Minion.t) : Minion.t :=
  let c := Minion.base x in
  Minion.mk
    (Character.mk (Character.health c) (Character.max_health c) (Character.attack_power c)
       (Character.active c) (Character.dead c) false (Character.used_wind_fury c) false false
       (Character.temp_attack c) (Character.player c) (Character.immune c)
       (Character.delayed c) false)
    (Minion.minion_type x) false (Minion.game x) (Minion.card x) (Minion.index x)
    false 0 false None None.


(** The secret example: player "one" has 5 mana and holds card 8, a secret
    that costs 2. *)
Definition secret_board : World.t :=
  exec (store_card 8 (Card.mk "Trap" 2 false false None None SecretCard None) ;;;
        modify_player P0 (Player.set_mana 5) ;;;
        modify_player P0 (Player.set_hand [8%nat])) game.


(** ** The start of a turn, for the statements *)

(** The player that [Game._start_turn] makes the current player. *)
Definition next_player (w : World.t) : pid :=
  if decide (World.current_player w = P0) then P1 else P0.


(** The spell example: player "one" has 5 mana and holds card 7, a spell
    that costs 3 and needs no target; no handler is bound. *)
Definition spell_board : World.t :=
  exec (store_card 7 (Card.mk "Spell" 3 false false None None Spell None) ;;;
        modify_player P0 (Player.set_mana 5) ;;;
        modify_player P0 (Player.set_hand [7%nat])) game.


(** The drain example: player "one" has 5 mana and holds card 7, a spell
    that costs 3 and needs no target; a handler bound to "card_played" of
    the player empties the mana of the current player. *)
Definition drain_board : World.t :=
  exec (store_card 7 (Card.mk "Spell" 3 false false None None Spell None) ;;;
        modify_player P0 (Player.set_mana 5) ;;;
        modify_player P0 (Player.set_hand [7%nat]) ;;;
        bind (OPlayer P0) "card_played" (External 3) []) game.

(** The drain example after [play_card]. *)
Definition drain_played : World.t :=
  exec (play_card run_call 20 first_target end_of_board no_targets no_minion 7) drain_board.


(** ** The positions on a board, for the statements *)

(** Every minion on the board of player [p] has its position in the list as
    its [index]. *)
Definition in_position (p : pid) (w : World.t) : Prop :=
  ∀ k o, Player.minions (get_player p w) !! k = Some o →
         Minion.index <$> World.minions w !! o = Some (Z.of_nat k).

(** The board of the taunt example with a new minion 3 (4/4) in the store,
    not yet on a board. *)
Definition newcomer : World.t := exec (store_minion 3 4 4) taunt_board.


(** * Theorems *)

(** ** Deck *)

Module DeckFacts.
Import Deck.

Lemma count_used_cons (b : bool) (u : list bool) :
  count_used (b :: u) = (if b then 1 else 0) + count_used u.
Proof.
  unfold count_used. rewrite filter_cons.
  destruct b; case_decide; try congruence; simpl length; lia.
Qed.

Lemma count_unused_cons (b : bool) (u : list bool) :
  count_unused (b :: u) = (if b then 0 else 1) + count_unused u.
Proof.
  unfold count_unused. rewrite filter_cons.
  destruct b; case_decide; try congruence; simpl length; lia.
Qed.

Lemma count_unused_nonneg (u : list bool) : 0 ≤ count_unused u.
Proof. unfold count_unused. lia. Qed.

Lemma count_used_unused (u : list bool) :
  count_used u + count_unused u = Z.of_nat (length u).
Proof.
  induction u as [|b u IH].
  - reflexivity.
  - rewrite count_used_cons, count_unused_cons. simpl length.
    destruct b; lia.
Qed.

Lemma count_used_mark (u : list bool) (s : nat) :
  u !! s = Some false → count_used (<[s := true]> u) = count_used u + 1.
Proof.
  revert s. induction u as [|b u IH]; intros s Hs.
  - discriminate.
  - destruct s as [|s]; simpl in *.
    + injection Hs as ->. rewrite !count_used_cons. lia.
    + rewrite !count_used_cons, (IH s Hs). lia.
Qed.

Lemma count_used_unmark (u : list bool) (s : nat) :
  u !! s = Some true → count_used (<[s := false]> u) = count_used u - 1.
Proof.
  revert s. induction u as [|b u IH]; intros s Hs.
  - discriminate.
  - destruct s as [|s]; simpl in *.
    + injection Hs as ->. rewrite !count_used_cons. lia.
    + rewrite !count_used_cons, (IH s Hs). lia.
Qed.

(** The walk of [draw] stops right after the slot that has exactly
    [index - count] unused slots before it. *)
Lemma draw_loop_spec (index : Z) (rest : list bool) (count : Z) (i : nat) :
  count ≤ index → index - count < count_unused rest →
  ∃ k : nat,
    draw_loop index rest count i = Some (S (i + k)) ∧
    rest !! k = Some false ∧
    count_unused (take k rest) = index - count.
Proof.
  revert count i. induction rest as [|b rest IH]; intros count i Hle Hlt.
  - unfold count_unused in Hlt. simpl in Hlt. lia.
  - rewrite count_unused_cons in Hlt. simpl.
    destruct (Z.leb_spec count index) as [_|?]; [|lia].
    destruct b.
    + destruct (IH count (S i)) as (k & Hk & Hs & Hc); [lia|lia|].
      exists (S k). simpl. rewrite count_unused_cons.
      replace (i + S k)%nat with (S i + k)%nat by lia. auto with lia.
    + destruct (decide (count = index)) as [->|Hne].
      * exists 0%nat. simpl. destruct rest; simpl;
          (destruct (Z.leb_spec (index + 1) index); [lia|]);
          replace (i + 0)%nat with i by lia; (split; [reflexivity|]);
          (split; [reflexivity|]); unfold count_unused; simpl; lia.
      * destruct (IH (count + 1) (S i)) as (k & Hk & Hs & Hc); [lia|lia|].
        exists (S k). simpl. rewrite count_unused_cons.
        replace (i + S k)%nat with (S i + k)%nat by lia. auto with lia.
Qed.

Lemma count_unused_take_lt (u : list bool) (s s' : nat) :
  (s < s')%nat → u !! s = Some false →
  count_unused (take s u) < count_unused (take s' u).
Proof.
  revert s s'. induction u as [|b u IH]; intros s s' Hlt Hs.
  - discriminate.
  - destruct s' as [|s']; [lia|]. destruct s as [|s]; simpl in *.
    + injection Hs as ->. rewrite count_unused_cons.
      pose proof (count_unused_nonneg (take s' u)).
      unfold count_unused at 1. simpl. lia.
    + rewrite !count_unused_cons. specialize (IH s s' ltac:(lia) Hs). lia.
Qed.

Lemma count_unused_take_total (u : list bool) (s : nat) :
  u !! s = Some false → count_unused (take s u) < count_unused u.
Proof.
  intros Hs. pose proof (lookup_lt_Some _ _ _ Hs) as Hlen.
  rewrite <- (take_ge u (length u)) at 2 by lia.
  by apply count_unused_take_lt.
Qed.

Lemma unused_slot_unique (u : list bool) (s s' : nat) :
  u !! s = Some false → u !! s' = Some false →
  count_unused (take s u) = count_unused (take s' u) → s = s'.
Proof.
  intros Hs Hs' Heq.
  destruct (Nat.lt_trichotomy s s') as [Hlt|[->|Hlt]]; [|done|].
  - pose proof (count_unused_take_lt u s s' Hlt Hs). lia.
  - pose proof (count_unused_take_lt u s' s Hlt Hs'). lia.
Qed.

Lemma py_index_pred {A} (l : list A) (k : nat) :
  (k < length l)%nat → py_index l (Z.of_nat (S k) - 1) = Some k.
Proof.
  intros Hk. unfold py_index.
  destruct (Z.leb_spec 0 (Z.of_nat (S k) - 1)); [|lia].
  destruct (Z.ltb_spec (Z.of_nat (S k) - 1) (Z.of_nat (length l))); [|lia].
  simpl. f_equal. lia.
Qed.

Lemma invariant_left (d : t) : invariant d → left d = count_unused (used d).
Proof.
  intros [Hlen Hsum]. pose proof (count_used_unused (used d)). lia.
Qed.

(** What [draw] does when the random source answers within the unused
    slots. *)
Lemma draw_at (random_func : Z → Z → Z) (d : t) :
  invariant d → length (cards d) = 30%nat →
  0 ≤ random_func 0 (left d - 1) ≤ left d - 1 →
  ∃ s c,
    used d !! s = Some false ∧
    count_unused (take s (used d)) = random_func 0 (left d - 1) ∧
    cards d !! s = Some c ∧
    draw random_func d = Ok c (drawn d s).
Proof.
  intros Hinv Hcs Hidx. pose proof (invariant_left d Hinv) as Hleft.
  destruct Hinv as [Hlen Hsum].
  destruct (draw_loop_spec (random_func 0 (left d - 1)) (used d) 0 0)
    as (k & Hloop & Hk & Hcount); [lia|lia|].
  pose proof (lookup_lt_Some _ _ _ Hk) as Hklt.
  destruct (lookup_lt_is_Some_2 (cards d) k) as [c Hc]; [lia|].
  exists k, c. repeat split; [done|lia|done|].
  unfold draw, can_draw.
  destruct (Z.ltb_spec 0 (left d)); [|lia]. simpl.
  rewrite Hloop. simpl Nat.add. unfold py_set, py_get.
  rewrite !py_index_pred by lia. by rewrite Hc.
Qed.

Lemma draw_empty (random_func : Z → Z → Z) (d : t) :
  left d ≤ 0 →
  draw random_func d = Raise (GameException "Cannot draw more than 30 cards") d.
Proof.
  intros Hl. unfold draw, can_draw. by destruct (Z.ltb_spec 0 (left d)); [lia|].
Qed.

Lemma put_back_loop_first (card : nat) (d : t) (i : nat) :
  first_slot card d i → ∀ n index, (index ≤ i < index + n)%nat →
  put_back_loop card d index n =
    match used d !! i with
    | None => Raise IndexError d
    | Some false =>
        Raise (GameException "Tried to put back a card that hadn't been used yet") d
    | Some true => Ok tt (restored d i)
    end.
Proof.
  intros [Hi Hfirst] n. induction n as [|n IH]; intros index Hr; [lia|].
  simpl. destruct (decide (index = i)) as [->|Hne].
  - rewrite Hi. by rewrite decide_True.
  - destruct (lookup_lt_is_Some_2 (cards d) index) as [c Hc].
    { pose proof (lookup_lt_Some _ _ _ Hi). lia. }
    rewrite Hc. rewrite decide_False by (apply (Hfirst index); [lia|done]).
    apply IH. lia.
Qed.

Lemma put_back_loop_absent (card : nat) (d : t) :
  ∀ n index, (index + n ≤ length (cards d))%nat →
  (∀ j c, (index ≤ j)%nat → cards d !! j = Some c → c ≠ card) →
  put_back_loop card d index n =
    Raise (GameException "Tried to put back a card that didn't come from this deck") d.
Proof.
  induction n as [|n IH]; intros index Hlen Habs; [done|].
  simpl. destruct (lookup_lt_is_Some_2 (cards d) index) as [c Hc]; [lia|].
  rewrite Hc. rewrite decide_False by (apply (Habs index); [lia|done]).
  apply IH; [lia|]. intros j c' Hj. apply Habs. lia.
Qed.

(** Every card of the deck has a first slot. *)
Lemma first_slot_exists (card : nat) (d : t) :
  card ∈ cards d → ∃ i, first_slot card d i.
Proof.
  unfold first_slot. generalize (cards d) as l.
  induction l as [|c l IH]; intros Hin.
  - by apply elem_of_nil in Hin.
  - destruct (decide (c = card)) as [->|Hne].
    + exists 0%nat. split; [done|]. intros; lia.
    + apply elem_of_cons in Hin as [->|Hin]; [done|].
      destruct (IH Hin) as (i & Hi & Hfirst). exists (S i). split; [done|].
      intros [|j] c' Hj Hc'; simpl in Hc'; [congruence|].
      apply (Hfirst j); [lia|done].
Qed.

(** [put_back] either returns from the first slot of the card, which was
    marked used, or raises and leaves the deck as it was. *)
Lemma put_back_outcome (card : nat) (d : t) :
  length (cards d) = 30%nat →
  (∃ i, first_slot card d i ∧ used d !! i = Some true ∧
        put_back card d = Ok tt (restored d i)) ∨
  (∃ e, put_back card d = Raise e d).
Proof.
  intros Hlen. destruct (decide (card ∈ cards d)) as [Hin|Hout].
  - destruct (first_slot_exists card d Hin) as [i Hi].
    pose proof (lookup_lt_Some _ _ _ (proj1 Hi)) as Hlt.
    unfold put_back. rewrite (put_back_loop_first card d i Hi) by lia.
    destruct (used d !! i) as [[|]|] eqn:Hu; eauto.
  - right. eexists. apply put_back_loop_absent; [lia|].
    intros j c _ Hc ->. apply Hout. by eapply list_elem_of_lookup_2.
Qed.

Lemma step_invariant (d : t) (o : op) :
  length (cards d) = 30%nat → invariant d → op_in_range o →
  invariant (step d o) ∧ cards (step d o) = cards d.
Proof.
  intros Hcs Hinv Hop. destruct o as [random_func|card]; simpl.
  - destruct (decide (0 < left d)) as [Hpos|Hneg].
    + destruct (draw_at random_func d Hinv Hcs) as (s & c & Hs & _ & _ & ->).
      { specialize (Hop 0 (left d - 1)). lia. }
      simpl. split; [|done]. destruct Hinv as [Hlen Hsum]. split; simpl.
      * by rewrite length_insert.
      * rewrite (count_used_mark _ _ Hs). lia.
    + rewrite draw_empty by lia. done.
  - destruct (put_back_outcome card d Hcs) as [(i & _ & Hu & ->)|[e ->]]; [|done].
    simpl. split; [|done]. destruct Hinv as [Hlen Hsum]. split; simpl.
    + by rewrite length_insert.
    + rewrite (count_used_unmark _ _ Hu). lia.
Qed.

Lemma run_invariant (ops : list op) (d : t) :
  length (cards d) = 30%nat → invariant d → Forall op_in_range ops →
  invariant (run ops d) ∧ cards (run ops d) = cards d.
Proof.
  revert d. induction ops as [|o ops IH]; intros d Hcs Hinv Hops; [done|].
  apply Forall_cons in Hops as [Ho Hops].
  destruct (step_invariant d o Hcs Hinv Ho) as [Hinv' Hcs'].
  unfold run in *. simpl. destruct (IH (step d o)) as [? ?]; [congruence|done|done|].
  split; [done|congruence].
Qed.

Lemma init_invariant (cs : list nat) : invariant (init cs).
Proof. split; reflexivity. Qed.

Lemma drawn_slot_eq (d : t) (s s' : nat) :
  used d !! s = Some false → used d !! s' = Some false →
  drawn d s' = drawn d s → s' = s.
Proof.
  intros Hs Hs' Heq. destruct (decide (s' = s)) as [|Hne]; [done|].
  assert (Hu : <[s' := true]> (used d) = <[s := true]> (used d))
    by (unfold drawn in Heq; congruence).
  assert (Hl : <[s' := true]> (used d) !! s' = Some true).
  { apply list_lookup_insert_eq. by eapply lookup_lt_Some. }
  rewrite Hu, list_lookup_insert_ne in Hl by done. congruence.
Qed.

(** C6: from a fresh 30-card deck, after every sequence of draws and
    put-backs whose random sources answer within the range they are asked
    for, [left] plus the number of used slots is 30; [draw] raises exactly
    when [left] is 0; otherwise, for a random index in [0, left-1], it picks
    the slot that has exactly [index] unused slots before it, which was
    unused, marks that slot used, decrements [left] and returns the card of
    that slot; and every unused slot is picked by exactly one index of
    [0, left-1], so a uniform index gives a uniform choice among the
    remaining cards. *)
Theorem deck_invariant_and_draw (cs : list nat) (ops : list op) :
  length cs = 30%nat → Forall op_in_range ops →
  let d := run ops (init cs) in
  invariant d ∧
  (∀ random_func, in_range random_func →
     (is_raise (draw random_func d) ↔ left d = 0)) ∧
  (∀ random_func,
     left d ≠ 0 → 0 ≤ random_func 0 (left d - 1) ≤ left d - 1 →
     ∃ s c,
       used d !! s = Some false ∧
       count_unused (take s (used d)) = random_func 0 (left d - 1) ∧
       cs !! s = Some c ∧
       draw random_func d = Ok c (drawn d s)) ∧
  (∀ s, used d !! s = Some false →
     ∃ index,
       0 ≤ index ≤ left d - 1 ∧
       (∀ random_func, random_func 0 (left d - 1) = index →
          ∃ c, draw random_func d = Ok c (drawn d s)) ∧
       (∀ random_func c,
          0 ≤ random_func 0 (left d - 1) ≤ left d - 1 →
          draw random_func d = Ok c (drawn d s) →
          random_func 0 (left d - 1) = index)).
Proof.
  intros Hcs Hops d.
  destruct (run_invariant ops (init cs) Hcs (init_invariant cs) Hops)
    as [Hinv Hcards].
  fold d in Hinv, Hcards. simpl in Hcards.
  assert (Hcs' : length (cards d) = 30%nat) by congruence.
  pose proof (invariant_left d Hinv) as Hleft.
  pose proof (count_unused_nonneg (used d)) as Hnn.
  split; [done|]. split; [|split].
  - intros random_func Hrf. split.
    + intros Hraise. destruct (decide (left d = 0)) as [|Hne]; [done|].
      destruct (draw_at random_func d Hinv Hcs') as (s & c & _ & _ & _ & Hd).
      { specialize (Hrf 0 (left d - 1)). lia. }
      rewrite Hd in Hraise. destruct Hraise.
    + intros H0. rewrite draw_empty by lia. exact I.
  - intros random_func Hne Hidx.
    destruct (draw_at random_func d Hinv Hcs' Hidx) as (s & c & ? & ? & ? & ?).
    exists s, c. rewrite <- Hcards. done.
  - intros s Hs. pose proof (count_unused_take_total _ _ Hs) as Hlt.
    pose proof (count_unused_nonneg (take s (used d))) as Hnn'.
    exists (count_unused (take s (used d))). split; [lia|]. split.
    + intros random_func Hrf.
      destruct (draw_at random_func d Hinv Hcs') as (s' & c & Hs' & Hc & _ & Hd);
        [lia|].
      exists c. rewrite Hd. do 2 f_equal.
      apply (unused_slot_unique (used d)); [done|done|]. congruence.
    + intros random_func c Hidx Hd.
      destruct (draw_at random_func d Hinv Hcs' Hidx) as (s' & c' & Hs' & Hc & _ & Hd').
      assert (Heq : drawn d s' = drawn d s) by congruence.
      apply drawn_slot_eq in Heq; [|done|done]. by subst s'.
Qed.

(** A run of three operations on the deck of cards 0..29. *)
Lemma deck_invariant_and_draw_witness :
  invariant
    (run [Draw (λ _ b, b); PutBack 29%nat; Draw (λ a _, a)] (init (seq 0 30))).
Proof.
  refine (proj1 (deck_invariant_and_draw (seq 0 30)
    [Draw (λ _ b, b); PutBack 29%nat; Draw (λ a _, a)] _ _)).
  - reflexivity.
  - constructor; [intros a b Hab; lia|].
    constructor; [exact I|].
    constructor; [intros a b Hab; lia|]. constructor.
Defined.

(** C7: [put_back] looks for the first slot that holds the card.  It raises
    when no slot holds it, raises when that first slot is not marked used,
    and otherwise marks that slot unused, increments [left] and returns;
    these cases are exhaustive. *)
Theorem put_back_cases (card : nat) (d : t) :
  length (cards d) = 30%nat → length (used d) = 30%nat →
  (card ∉ cards d →
     put_back card d =
       Raise (GameException "Tried to put back a card that didn't come from this deck") d) ∧
  (∀ i, first_slot card d i → used d !! i = Some false →
     put_back card d =
       Raise (GameException "Tried to put back a card that hadn't been used yet") d) ∧
  (∀ i, first_slot card d i → used d !! i = Some true →
     put_back card d = Ok tt (restored d i)) ∧
  (card ∈ cards d → ∃ i b, first_slot card d i ∧ used d !! i = Some b).
Proof.
  intros Hcs Hus. split; [|split; [|split]].
  - intros Hout. apply put_back_loop_absent; [lia|].
    intros j c _ Hc ->. apply Hout. by eapply list_elem_of_lookup_2.
  - intros i Hi Hu. pose proof (lookup_lt_Some _ _ _ (proj1 Hi)).
    unfold put_back. rewrite (put_back_loop_first card d i Hi) by lia.
    by rewrite Hu.
  - intros i Hi Hu. pose proof (lookup_lt_Some _ _ _ (proj1 Hi)).
    unfold put_back. rewrite (put_back_loop_first card d i Hi) by lia.
    by rewrite Hu.
  - intros Hin. destruct (first_slot_exists card d Hin) as [i Hi].
    pose proof (lookup_lt_Some _ _ _ (proj1 Hi)).
    destruct (lookup_lt_is_Some_2 (used d) i) as [b Hb]; [lia|]. eauto.
Qed.

(** Putting card 3 back into the deck of cards 0..29 after it was drawn. *)
Lemma put_back_cases_witness :
  put_back 3%nat (drawn (init (seq 0 30)) 3) =
    Ok tt (restored (drawn (init (seq 0 30)) 3) 3).
Proof.
  refine (proj1 (proj2 (proj2 (put_back_cases 3%nat
    (drawn (init (seq 0 30)) 3) _ _))) 3%nat _ _).
  - reflexivity.
  - reflexivity.
  - split; [reflexivity|]. intros j c Hj Hc.
    do 3 (destruct j as [|j]; [simpl in Hc; injection Hc as <-; lia|]). lia.
  - reflexivity.
Defined.

End DeckFacts.

(** ** The monad *)

Lemma and_then_Ok {A B} (m : M A) (k : A → M B) (w w' : World.t) (b : B) :
  and_then m k w = Ok b w' ↔ ∃ a w1, m w = Ok a w1 ∧ k a w1 = Ok b w'.
Proof.
  unfold and_then. split.
  - destruct (m w) as [a w1| |]; [eauto|discriminate|discriminate].
  - intros (a & w1 & -> & Hk). exact Hk.
Qed.

Lemma and_then_step {A B} (m : M A) (k : A → M B) (w w1 : World.t) (a : A) :
  m w = Ok a w1 → and_then m k w = k a w1.
Proof. unfold and_then. by intros ->. Qed.

Ltac step H := rewrite (and_then_step _ _ _ _ _ H); cbv beta.

Lemma get_minion_Ok (m : nat) (w : World.t) (x : Minion.t) :
  World.minions w !! m = Some x → get_minion m w = Ok x w.
Proof. unfold get_minion. by intros ->. Qed.

(** ** Divine shield *)

(** C2: for a minion with divine shield, [Minion.damage] of any amount by
    any attacker returns with the shield gone and with nothing else in the
    world changed (health, registry and journal included: no event fires,
    [die] is not entered); for a minion without the shield it is
    [Character.damage]. *)
Theorem divine_shield_absorbs (call : fn → list val → M unit)
    (m : nat) (amount : Z) (attacker : val) (w : World.t) (x : Minion.t) :
  World.minions w !! m = Some x →
  (Minion.divine_shield x = true →
     damage call (OMinion m) amount attacker w =
       Ok tt (World.set_minions
                (<[m := Minion.set_divine_shield false x]> (World.minions w)) w)) ∧
  (Minion.divine_shield x = false →
     damage call (OMinion m) amount attacker w =
       Character_damage call (OMinion m) amount attacker w).
Proof.
  intros Hx. pose proof (get_minion_Ok m w x Hx) as Hget.
  split; intros Hshield; simpl; unfold Minion_damage; step Hget; rewrite Hshield.
  - unfold modify_minion. step Hget. reflexivity.
  - reflexivity.
Qed.

(** The example of the specification: the shielded 1/1 minion, damaged for
    99, is left with its health and without its shield; a hit of 1 then
    kills it and takes it off the board. *)
Lemma divine_shield_absorbs_witness :
  damage run_call (OMinion 0) 99 VNone shielded_board =
    Ok tt (World.set_minions
             (<[0%nat := Minion.set_divine_shield false shielded_minion]>
                (World.minions shielded_board)) shielded_board) ∧
  Character.health (Minion.base shielded_minion) = 1 ∧
  let w := exec (damage run_call (OMinion 0) 99 VNone) shielded_board in
  let w' := exec (damage run_call (OMinion 0) 1 VNone) w in
  Character.dead <$> minion_base 0 w = Some false ∧
  Character.health <$> minion_base 0 w = Some 1 ∧
  World.trace w = World.trace shielded_board ∧
  Character.dead <$> minion_base 0 w' = Some true ∧
  Player.minions (get_player P1 w') = [].
Proof.
  split.
  - refine (proj1 (divine_shield_absorbs run_call 0 99 VNone shielded_board
                     shielded_minion _) _); vm_compute; reflexivity.
  - vm_compute. repeat split; reflexivity.
Defined.

(** ** The targets of an attack *)

Lemma attack_scan_spec (w : World.t) (enemies : list nat) :
  (∀ m, m ∈ enemies → is_Some (World.minions w !! m)) →
  ∀ found_taunt targets,
    attack_scan enemies found_taunt targets w =
      Ok (found_taunt || existsb (has_taunt w) (filter (λ m, is_attackable w m) enemies),
          targets ++ filter (λ m, is_attackable w m) enemies) w.
Proof.
  induction enemies as [|e enemies IH]; intros Hall found_taunt targets.
  - simpl. unfold ret. by rewrite orb_false_r, app_nil_r.
  - destruct (Hall e) as [x Hx]; [by left|].
    simpl. step (get_minion_Ok e w x Hx).
    rewrite IH by (intros m Hm; apply Hall; by right).
    assert (Ha : can_be_attacked x = is_attackable w e)
      by (unfold is_attackable; by rewrite Hx).
    assert (Ht : Minion.taunt x = has_taunt w e)
      by (unfold has_taunt; by rewrite Hx).
    rewrite filter_cons, Ha, Ht.
    destruct (is_attackable w e) eqn:Hatt; simpl.
    + rewrite <- app_assoc. simpl.
      destruct (has_taunt w e), found_taunt; reflexivity.
    + rewrite andb_false_r. reflexivity.
Qed.

Lemma taunt_only_spec (w : World.t) (targets : list nat) :
  (∀ m, m ∈ targets → is_Some (World.minions w !! m)) →
  taunt_only targets w = Ok (filter (λ m, has_taunt w m) targets) w.
Proof.
  induction targets as [|t targets IH]; intros Hall; [reflexivity|].
  destruct (Hall t) as [x Hx]; [by left|].
  simpl. step (get_minion_Ok t w x Hx).
  rewrite (and_then_step _ _ _ _ _ (IH (λ m Hm, Hall m (list_elem_of_further _ _ _ Hm)))).
  assert (Ht : Minion.taunt x = has_taunt w t)
    by (unfold has_taunt; by rewrite Hx).
  unfold ret. rewrite filter_cons, Ht.
  destruct (has_taunt w t); reflexivity.
Qed.

Lemma attack_targets_legal (self : obj) (w : World.t) (c : Character.t) (p : pid) :
  get_character self w = Ok c w → Character.player c = Some p →
  (∀ m, m ∈ Player.minions (get_player (World.other_player w) w) →
        is_Some (World.minions w !! m)) →
  attack_targets self w = Ok (legal_targets w) w.
Proof.
  intros Hc Hp Hall. unfold attack_targets. step Hc. rewrite Hp. simpl.
  unfold and_then at 1. simpl. unfold and_then at 1. simpl.
  rewrite (and_then_step _ _ _ _ _ (attack_scan_spec w _ Hall false [])).
  simpl. unfold legal_targets.
  destruct (existsb _ _) eqn:Hex; [|reflexivity].
  assert (Hsub : ∀ m,
    m ∈ filter (λ m, is_attackable w m)
          (Player.minions (get_player (World.other_player w) w)) →
    is_Some (World.minions w !! m)).
  { intros m Hm. apply Hall. by apply list_elem_of_filter in Hm as [_ ?]. }
  rewrite (and_then_step _ _ _ _ _ (taunt_only_spec w _ Hsub)). reflexivity.
Qed.

(** C3: the targets [Character.attack] hands to [choose_target] are the
    legal targets of the specification: the minions of the other player
    that can be attacked, restricted to the taunted ones if there is one,
    and with the hero of the other player added if there is none.  With a
    taunted and an untaunted attackable minion on the other side, the only
    target is the taunted minion. *)
Theorem attack_targets_taunt (call : fn → list val → M unit) (fuel : nat)
    (choose : pid → list obj → World.t → obj)
    (self : obj) (w : World.t) (c : Character.t) (p : pid) :
  get_character self w = Ok c w → Character.player c = Some p →
  (∀ m, m ∈ Player.minions (get_player (World.other_player w) w) →
        is_Some (World.minions w !! m)) →
  attack_targets self w = Ok (legal_targets w) w ∧
  (can_attack self w = Ok true w →
     Character_attack call fuel choose self w =
       (trigger call (OPlayer p) "attacking" [VRef self] ;;;
        let! target := Character_choose_target choose self (legal_targets w) in
        let! goes_on := attack_resolve call fuel self target in
        when goes_on (attack_finish call fuel self)) w) ∧
  (∀ a b,
     Player.minions (get_player (World.other_player w) w) = [a; b] ∨
     Player.minions (get_player (World.other_player w) w) = [b; a] →
     is_attackable w a = true → has_taunt w a = true →
     is_attackable w b = true → has_taunt w b = false →
     legal_targets w = [OMinion a]).
Proof.
  intros Hc Hp Hall.
  pose proof (attack_targets_legal self w c p Hc Hp Hall) as Hlegal.
  split; [done|]. split.
  - intros Hcan. unfold Character_attack. step Hcan. cbn [negb].
    step Hlegal. step Hc. rewrite Hp. reflexivity.
  - intros a b Horder Ha Hta Hb Htb. unfold legal_targets.
    destruct Horder as [-> | ->]; rewrite !filter_cons, filter_nil, Ha, Hb;
      simpl; rewrite ?Hta, ?Htb; simpl;
      rewrite !filter_cons, filter_nil, ?Hta, ?Htb; reflexivity.
Qed.

(** On the board of the taunt example the attacker is offered the taunted
    minion 1 and nothing else. *)
Lemma attack_targets_taunt_witness :
  attack_targets (OMinion 0) taunt_board = Ok [OMinion 1] taunt_board.
Proof.
  destruct (attack_targets_taunt run_call 20 first_target (OMinion 0) taunt_board
    (default (new_character 0 0 None 0) (minion_base 0 taunt_board)) P0)
    as (Htargets & _ & Honly).
  - vm_compute. reflexivity.
  - vm_compute. reflexivity.
  - intros m Hm.
    assert (He : Player.minions (get_player (World.other_player taunt_board) taunt_board)
                 = [1%nat; 2%nat]) by (vm_compute; reflexivity).
    rewrite He in Hm. clear He.
    apply elem_of_cons in Hm as [-> | Hm]; [vm_compute; eexists; reflexivity|].
    apply elem_of_cons in Hm as [-> | Hm]; [vm_compute; eexists; reflexivity|].
    apply elem_of_nil in Hm. destruct Hm.
  - rewrite Htargets, (Honly 1%nat 2%nat); [reflexivity|..].
    + left. vm_compute. reflexivity.
    + vm_compute. reflexivity.
    + vm_compute. reflexivity.
    + vm_compute. reflexivity.
    + vm_compute. reflexivity.
Defined.

(** ** One-shot handlers and re-entrant triggers *)

(** C5 (the code departs from the claim): with a persistent handler that
    triggers event "e" again and a one-shot handler bound after it, one
    [trigger] of "e" invokes the one-shot handler (handler 5) twice, once in
    the inner dispatch and once more in the outer one, and then raises
    [ValueError] from [list.remove], the handler being gone from the
    registry already. *)
Theorem bind_once_invoked_twice :
  trigger run_call OGame "e" [] reentrant_bus =
    Raise ValueError (exec (trigger run_call OGame "e" []) reentrant_bus) ∧
  World.events reentrant_bus !! OGame = Some {["e" := [4%nat; 5%nat]]} ∧
  Handler.remove <$> World.handlers reentrant_bus !! 5%nat = Some true ∧
  World.trace (exec (trigger run_call OGame "e" []) reentrant_bus) =
    [Triggered OGame "e" [];
     Invoked 4 (External 1) [VRef OGame];
     Triggered OGame "e" [];
     Invoked 5 (External 2) [];
     Invoked 5 (External 2) []] ∧
  World.events (exec (trigger run_call OGame "e" []) reentrant_bus) !! OGame =
    Some {["e" := [4%nat]]}.
Proof. repeat apply conj; vm_compute; reflexivity. Qed.

(** ** The death of a minion *)

(** C4 (the code departs from the claim): when minion 1, which has spell
    power 1, dies in an attack, the journal shows "minion_died" on the game,
    then the removal from the board, and the self-silence of the one-shot
    "died" handler only afterwards, when the delayed events of the minion are
    flushed; the spell power of its player, 1 before, is taken off twice and
    ends at -1. *)
Theorem silence_on_death_after_removal :
  attack run_call 20 first_target (OMinion 0) death_board =
    Ok tt (exec (attack run_call 20 first_target (OMinion 0)) death_board) ∧
  Player.spell_power (get_player P1 death_board) = 1 ∧
  Player.spell_power
    (get_player P1 (exec (attack run_call 20 first_target (OMinion 0)) death_board)) = -1 ∧
  World.trace (exec (attack run_call 20 first_target (OMinion 0)) death_board) =
    World.trace death_board ++
    [Triggered (OPlayer P0) "attacking" [VRef (OMinion 0)];
     Triggered (OMinion 0) "attack_minion" [VRef (OMinion 1)];
     Triggered (OMinion 1) "attacked" [VRef (OMinion 0)];
     Triggered (OMinion 0) "physically_damaged" [VInt 1; VRef (OMinion 1)];
     Triggered (OMinion 0) "minion_damaged" [VInt 1; VRef (OMinion 1)];
     Triggered (OMinion 0) "secret_damaged" [VInt 1; VRef (OMinion 1)];
     Triggered (OMinion 1) "physically_damaged" [VInt 3; VRef (OMinion 0)];
     Triggered (OMinion 1) "minion_damaged" [VInt 3; VRef (OMinion 0)];
     Triggered (OMinion 1) "secret_damaged" [VInt 3; VRef (OMinion 0)];
     Entered "Minion.die" (OMinion 1);
     Triggered OGame "minion_died" [VRef (OMinion 1); VRef (OMinion 0)];
     Entered "Minion.remove_from_board" (OMinion 1);
     Triggered OGame "minion_removed" [VRef (OMinion 1); VRef (OPlayer P1)];
     Triggered (OMinion 1) "did_damage" [VInt 1; VRef (OMinion 0)];
     Triggered (OMinion 1) "damaged" [VInt 3; VRef (OMinion 0)];
     Triggered (OMinion 1) "died" [VRef (OMinion 0)];
     Invoked 6 (Minion_die_lambda 1) [VRef (OMinion 0)];
     Entered "Minion.silence" (OMinion 1);
     Triggered (OMinion 1) "silenced" [];
     Triggered (OMinion 0) "damaged" [VInt 1; VRef (OMinion 1)];
     Triggered (OMinion 0) "did_damage" [VInt 3; VRef (OMinion 1)]].
Proof. repeat apply conj; vm_compute; reflexivity. Qed.

(** ** Updates of characters *)

Lemma modify_minion_Ok (m : nat) (f : Minion.t → Minion.t) (w : World.t) (x : Minion.t) :
  World.minions w !! m = Some x →
  modify_minion m f w = Ok tt (World.set_minions (<[m := f x]> (World.minions w)) w).
Proof. intros Hx. unfold modify_minion. step (get_minion_Ok m w x Hx). reflexivity. Qed.

Lemma modify_minion_inv (m : nat) (f : Minion.t → Minion.t) (w w' : World.t) :
  modify_minion m f w = Ok tt w' →
  ∃ x, World.minions w !! m = Some x ∧
       w' = World.set_minions (<[m := f x]> (World.minions w)) w.
Proof.
  unfold modify_minion, and_then, get_minion.
  destruct (World.minions w !! m) as [x|]; simpl; [|discriminate].
  intros [= <-]. eauto.
Qed.

Lemma modify_hero_Ok (p : pid) (f : Character.t → Character.t) (w : World.t) :
  modify_character (OHero p) f w = Ok tt (hero_update p f w).
Proof. reflexivity. Qed.

Lemma hero_update_base (p q : pid) (f : Character.t → Character.t) (w : World.t) :
  hero_base q (hero_update p f w) = if decide (q = p) then f (hero_base p w) else hero_base q w.
Proof. destruct p, q; reflexivity. Qed.

Lemma hero_update_minions (p q : pid) (f : Character.t → Character.t) (w : World.t) :
  Player.minions (get_player q (hero_update p f w)) = Player.minions (get_player q w).
Proof. destruct p, q; reflexivity. Qed.

Lemma for_each_ext {A} (l : list A) (f g : A → M unit) (w : World.t) :
  (∀ a w, f a w = g a w) → for_each l f w = for_each l g w.
Proof.
  intros Hfg. revert w. induction l as [|a l IH]; intros w; [reflexivity|].
  simpl. unfold and_then. rewrite Hfg. destruct (g a w); auto.
Qed.

(** A loop that assigns to the [Character] part of each minion of a list
    without repetitions changes the store of the minions only, and each
    minion of the list once. *)
Lemma for_each_minions (f : Character.t → Character.t) (l : list nat) :
  NoDup l → ∀ w w',
  for_each l (λ m, modify_character (OMinion m) f) w = Ok tt w' →
  w' = World.set_minions (World.minions w') w ∧
  (∀ m, m ∈ l → minion_base m w' = f <$> minion_base m w) ∧
  (∀ m, m ∉ l → World.minions w' !! m = World.minions w !! m).
Proof.
  induction 1 as [|a l Ha Hl IH]; intros w w' Hrun.
  - injection Hrun as <-. split; [by destruct w|]. split; [|done].
    intros m Hm. by apply elem_of_nil in Hm.
  - simpl in Hrun. apply and_then_Ok in Hrun as ([] & w1 & Hstep & Hrest).
    apply modify_minion_inv in Hstep as (x & Hx & ->).
    destruct (IH _ _ Hrest) as (Hframe & Hin & Hout).
    split; [rewrite Hframe at 1; reflexivity|]. split.
    + intros m Hm. apply elem_of_cons in Hm as [-> | Hm].
      * unfold minion_base. rewrite (Hout a Ha). simpl.
        rewrite lookup_insert_eq, Hx. reflexivity.
      * rewrite (Hin m Hm). unfold minion_base. simpl.
        rewrite lookup_insert_ne by (intros ->; contradiction). reflexivity.
    + intros m Hm. apply not_elem_of_cons in Hm as [Hne Hm].
      rewrite (Hout m Hm). simpl. by rewrite lookup_insert_ne.
Qed.

(** ** The end of a turn *)

Lemma and_then_get {B} (k : World.t → M B) (w : World.t) :
  and_then get k w = k w w.
Proof. reflexivity. Qed.

Lemma and_then_hero {B} (p : pid) (f : Character.t → Character.t) (k : unit → M B)
    (w : World.t) :
  and_then (modify_character (OHero p) f) k w = k tt (hero_update p f w).
Proof. reflexivity. Qed.

Lemma end_turn_minion_body (m : nat) (w : World.t) :
  (modify_character (OMinion m) (Character.set_active true) ;;;
   modify_character (OMinion m) (Character.set_used_wind_fury false) ;;;
   modify_character (OMinion m) thaw) w =
  modify_character (OMinion m) end_turn_minion w.
Proof.
  simpl. destruct (World.minions w !! m) as [x|] eqn:Hx.
  - rewrite (and_then_step _ _ _ _ _ (modify_minion_Ok m _ w x Hx)).
    erewrite and_then_step by (apply modify_minion_Ok; simpl; apply lookup_insert_eq).
    erewrite modify_minion_Ok by (simpl; apply lookup_insert_eq).
    rewrite (modify_minion_Ok m _ w x Hx). simpl.
    rewrite !insert_insert_eq. reflexivity.
  - unfold and_then, modify_minion, and_then, get_minion. rewrite Hx. reflexivity.
Qed.

Lemma hero_update_current (p : pid) (f : Character.t → Character.t) (w : World.t) :
  World.current_player (hero_update p f w) = World.current_player w.
Proof. destruct p; reflexivity. Qed.

Lemma hero_update_other (p : pid) (f : Character.t → Character.t) (w : World.t) :
  World.other_player (hero_update p f w) = World.other_player w.
Proof. destruct p; reflexivity. Qed.

Lemma hero_update_store (p : pid) (f : Character.t → Character.t) (w : World.t) :
  World.minions (hero_update p f w) = World.minions w.
Proof. destruct p; reflexivity. Qed.

Lemma end_turn_flags_spec (w w' : World.t) :
  end_turn_flags w = Ok tt w' →
  World.current_player w ≠ World.other_player w →
  NoDup (Player.minions (get_player (World.current_player w) w) ++
         Player.minions (get_player (World.other_player w) w)) →
  hero_base (World.current_player w) w' =
    Character.set_active true (thaw (hero_base (World.current_player w) w)) ∧
  hero_base (World.other_player w) w' =
    Character.set_frozen_this_turn false (hero_base (World.other_player w) w) ∧
  (∀ m, m ∈ Player.minions (get_player (World.current_player w) w) →
        minion_base m w' = end_turn_minion <$> minion_base m w) ∧
  (∀ m, m ∈ Player.minions (get_player (World.other_player w) w) →
        minion_base m w' = Character.set_frozen_this_turn false <$> minion_base m w).
Proof.
  intros Hrun Hne Hdup.
  apply NoDup_app in Hdup as (Hcur & Hdisj & Hother).
  unfold end_turn_flags in Hrun.
  rewrite and_then_get, and_then_hero, and_then_get, and_then_hero, and_then_get in Hrun.
  rewrite !hero_update_other, !hero_update_minions in Hrun.
  apply and_then_Ok in Hrun as ([] & w3 & Hloop1 & Hrun).
  destruct (for_each_minions _ _ Hother _ _ Hloop1) as (Hf3 & Hin3 & Hout3).
  unfold minion_base in Hin3. rewrite !hero_update_store in Hin3, Hout3.
  rewrite and_then_get, and_then_hero, and_then_get in Hrun.
  rewrite (for_each_ext _ _ _ _ end_turn_minion_body) in Hrun.
  rewrite !hero_update_current, !hero_update_minions in Hrun.
  assert (Hc3 : World.current_player w3 = World.current_player w)
    by (rewrite Hf3; simpl; by rewrite !hero_update_current).
  assert (Hm3 : ∀ q, Player.minions (get_player q w3) = Player.minions (get_player q w)).
  { intros q. rewrite Hf3.
    transitivity (Player.minions (get_player q
      (hero_update (World.other_player w) (Character.set_frozen_this_turn false)
         (hero_update (World.current_player w) thaw w)))).
    - destruct q; reflexivity.
    - by rewrite !hero_update_minions. }
  assert (Hh3 : ∀ q, hero_base q w3 =
    hero_base q (hero_update (World.other_player w) (Character.set_frozen_this_turn false)
                   (hero_update (World.current_player w) thaw w))).
  { intros q. rewrite Hf3. destruct q; reflexivity. }
  rewrite Hc3, Hm3 in Hrun.
  destruct (for_each_minions _ _ Hcur _ _ Hrun) as (Hf5 & Hin5 & Hout5).
  unfold minion_base in Hin5. rewrite !hero_update_store in Hin5, Hout5.
  assert (Hh5 : ∀ q, hero_base q w' =
    hero_base q (hero_update (World.current_player w) (Character.set_active true) w3)).
  { intros q. rewrite Hf5. destruct q; reflexivity. }
  repeat apply conj.
  - rewrite Hh5, hero_update_base, decide_True by done.
    rewrite Hh3, hero_update_base, decide_False by done.
    by rewrite hero_update_base, decide_True.
  - rewrite Hh5, hero_update_base, decide_False by done.
    rewrite Hh3, hero_update_base, decide_True by done.
    by rewrite hero_update_base, decide_False.
  - intros m Hm. unfold minion_base. rewrite (Hin5 m Hm).
    by rewrite (Hout3 m (Hdisj m Hm)).
  - intros m Hm. unfold minion_base.
    rewrite (Hout5 m (λ Hc, Hdisj m Hc Hm)). by rewrite (Hin3 m Hm).
Qed.

Lemma thaw_rule_hero (c : Character.t) :
  thaw_rule c (Character.set_active true (thaw c)).
Proof.
  unfold thaw_rule, thaw. destruct c as [? ? ? ? ? ? ? ? [|] ? ? ? ? ?]; simpl; auto.
Qed.

Lemma thaw_rule_minion (c : Character.t) : thaw_rule c (end_turn_minion c).
Proof.
  unfold thaw_rule, end_turn_minion, thaw.
  destruct c as [? ? ? ? ? ? ? ? [|] ? ? ? ? ?]; simpl; auto.
Qed.

Lemma keeps_frozen_cleared (c : Character.t) :
  keeps_frozen c (Character.set_frozen_this_turn false c).
Proof. split; reflexivity. Qed.

(** C9, as the code has it: [_end_turn] dispatches "turn_ended", does the
    frozen bookkeeping and then deactivates the secrets.  The bookkeeping
    applies the rule of the specification to the hero and the minions of
    the player whose turn ends ([frozen_this_turn] set: only that flag is
    cleared; otherwise [frozen] is cleared); for the hero and the minions of
    the other player it clears [frozen_this_turn] and leaves [frozen] as it
    is. *)
Theorem end_turn_thaw (call : fn → list val → M unit) (fuel : nat) (w w' : World.t) :
  _end_turn call fuel w = Ok tt w' →
  ∃ w1 w2,
    trigger call (OPlayer (World.current_player w)) "turn_ended" [] w = Ok tt w1 ∧
    end_turn_flags w1 = Ok tt w2 ∧
    deactivate_loop call fuel (World.other_player w2) 0 w2 = Ok tt w' ∧
    (World.current_player w1 ≠ World.other_player w1 →
     NoDup (Player.minions (get_player (World.current_player w1) w1) ++
            Player.minions (get_player (World.other_player w1) w1)) →
     thaw_rule (hero_base (World.current_player w1) w1)
               (hero_base (World.current_player w1) w2) ∧
     keeps_frozen (hero_base (World.other_player w1) w1)
                  (hero_base (World.other_player w1) w2) ∧
     (∀ m c, m ∈ Player.minions (get_player (World.current_player w1) w1) →
             minion_base m w1 = Some c →
             ∃ c', minion_base m w2 = Some c' ∧ thaw_rule c c') ∧
     (∀ m c, m ∈ Player.minions (get_player (World.other_player w1) w1) →
             minion_base m w1 = Some c →
             ∃ c', minion_base m w2 = Some c' ∧ keeps_frozen c c')).
Proof.
  intros Hrun. unfold _end_turn in Hrun. rewrite and_then_get in Hrun.
  apply and_then_Ok in Hrun as ([] & w1 & Htrigger & Hrun).
  apply and_then_Ok in Hrun as ([] & w2 & Hflags & Hrun).
  rewrite and_then_get in Hrun.
  exists w1, w2. repeat apply conj; try done.
  intros Hne Hdup.
  destruct (end_turn_flags_spec w1 w2 Hflags Hne Hdup) as (Hh & Ho & Hcur & Hother).
  split; [|split; [|split]].
  - rewrite Hh. apply thaw_rule_hero.
  - rewrite Ho. apply keeps_frozen_cleared.
  - intros m c Hm Hc. rewrite (Hcur m Hm), Hc. simpl.
    eexists. split; [reflexivity|]. apply thaw_rule_minion.
  - intros m c Hm Hc. rewrite (Hother m Hm), Hc. simpl.
    eexists. split; [reflexivity|]. apply keeps_frozen_cleared.
Qed.

(** The example of the specification: the minion frozen during the turn of
    the opponent is still frozen after the end of that turn and thaws at the
    end of the turn that follows. *)
Lemma end_turn_thaw_witness :
  (∃ w1 w2,
     trigger run_call (OPlayer (World.current_player frozen_by_opponent)) "turn_ended" []
       frozen_by_opponent = Ok tt w1 ∧
     end_turn_flags w1 = Ok tt w2 ∧
     deactivate_loop run_call 20 (World.other_player w2) 0 w2 =
       Ok tt (exec (_end_turn run_call 20) frozen_by_opponent)) ∧
  let w := exec (_end_turn run_call 20) frozen_by_opponent in
  let w' := exec (_start_turn run_call 20 lower_bound) w in
  let w'' := exec (_end_turn run_call 20) w' in
  Character.frozen (the_minion 0 frozen_by_opponent) = true ∧
  Character.frozen_this_turn (the_minion 0 frozen_by_opponent) = true ∧
  Character.frozen (the_minion 0 w) = true ∧
  Character.frozen_this_turn (the_minion 0 w) = false ∧
  _start_turn run_call 20 lower_bound w = Ok tt w' ∧
  Character.frozen (the_minion 0 w') = true ∧
  _end_turn run_call 20 w' = Ok tt w'' ∧
  Character.frozen (the_minion 0 w'') = false.
Proof.
  split.
  - destruct (end_turn_thaw run_call 20 frozen_by_opponent
                (exec (_end_turn run_call 20) frozen_by_opponent))
      as (w1 & w2 & H1 & H2 & H3 & _).
    + vm_compute. reflexivity.
    + exists w1, w2. auto.
  - repeat apply conj; vm_compute; reflexivity.
Defined.

(** The claim of C9 fails for a character of the other player: at the end
    of the turn of player "two", minion 0 of player "one" is frozen with
    [frozen_this_turn] not set, and it is still frozen afterwards. *)
Lemma thaw_rule_fails_for_other_player :
  _end_turn run_call 20 frozen_on_own_turn =
    Ok tt (exec (_end_turn run_call 20) frozen_on_own_turn) ∧
  World.other_player frozen_on_own_turn = P0 ∧
  Player.minions (get_player P0 frozen_on_own_turn) = [0%nat] ∧
  is_Some (minion_base 0 frozen_on_own_turn) ∧
  is_Some (minion_base 0 (exec (_end_turn run_call 20) frozen_on_own_turn)) ∧
  ¬ thaw_rule (the_minion 0 frozen_on_own_turn)
              (the_minion 0 (exec (_end_turn run_call 20) frozen_on_own_turn)).
Proof.
  repeat apply conj; try (vm_compute; reflexivity).
  - vm_compute. eexists. reflexivity.
  - vm_compute. eexists. reflexivity.
  - vm_compute. discriminate.
Qed.

(** ** Wind fury *)

Lemma get_character_state (o : obj) (w w' : World.t) (c : Character.t) :
  get_character o w = Ok c w' → w' = w.
Proof.
  destruct o as [|p|p|m|k]; simpl; try discriminate.
  - by intros [= _ <-].
  - unfold and_then, get_minion. destruct (World.minions w !! m); simpl; [|discriminate].
    by intros [= _ <-].
Qed.

Lemma modify_character_get (o : obj) (f : Character.t → Character.t) (w w' : World.t) :
  modify_character o f w = Ok tt w' →
  ∃ c, get_character o w = Ok c w ∧ get_character o w' = Ok (f c) w'.
Proof.
  destruct o as [|p|p|m|k]; simpl; try discriminate.
  - intros [= <-]. exists (hero_base p w). split; [reflexivity|].
    fold (hero_update p f w). f_equal.
    change (hero_base p (hero_update p f w) = f (hero_base p w)).
    by rewrite hero_update_base, decide_True.
  - intros Hm. apply modify_minion_inv in Hm as (x & Hx & ->).
    exists (Minion.base x). split.
    + by step (get_minion_Ok m w x Hx).
    + erewrite and_then_step by (apply get_minion_Ok; simpl; apply lookup_insert_eq).
      reflexivity.
Qed.

Lemma attack_resolve_false (call : fn → list val → M unit) (fuel : nat)
    (self target : obj) (w w' : World.t) :
  attack_resolve call fuel self target w = Ok false w' →
  ∃ c, get_character self w' = Ok c w' ∧ Character.dead c = true.
Proof.
  intros Hrun.
  assert (Hcase : ∀ (first second : M unit) (k : Character.t → M bool),
    (∀ c v v', Character.dead c = false → k c v = Ok false v' → False) →
    (first ;;; second ;;;
     let! c := get_character self in
     if Character.dead c then ret false else k c) w = Ok false w' →
    ∃ c, get_character self w' = Ok c w' ∧ Character.dead c = true).
  { intros first second k Hk H.
    apply and_then_Ok in H as ([] & w1 & _ & H).
    apply and_then_Ok in H as ([] & w2 & _ & H).
    apply and_then_Ok in H as (c & w3 & Hc & H).
    pose proof (get_character_state _ _ _ _ Hc) as ->.
    destruct (Character.dead c) eqn:Hdead.
    - injection H as <-. eauto.
    - destruct (Hk c _ _ Hdead H). }
  destruct target as [|p|p|m|k]; simpl in Hrun;
    (eapply Hcase; [|exact Hrun]); intros c v v' _ H;
    repeat (apply and_then_Ok in H as (? & ? & _ & H)); discriminate.
Qed.

(** The flags after the end of an attack. *)
Lemma attack_flags_spec (c : Character.t) :
  (Character.wind_fury c = true → Character.used_wind_fury c = false →
     Character.used_wind_fury (attack_flags c) = true ∧
     Character.active (attack_flags c) = Character.active c) ∧
  (Character.wind_fury c = false ∨ Character.used_wind_fury c = true →
     Character.active (attack_flags c) = false ∧
     Character.used_wind_fury (attack_flags c) = Character.used_wind_fury c) ∧
  Character.stealth (attack_flags c) = false.
Proof.
  unfold attack_flags.
  destruct c as [? ? ? ? ? [|] [|] ? ? ? ? ? ? ?]; simpl;
    repeat apply conj; try reflexivity; intros; try discriminate;
    try (split; reflexivity); destruct H; discriminate.
Qed.

Lemma can_attack_value (self : obj) (w : World.t) (c : Character.t) :
  get_character self w = Ok c w →
  can_attack self w =
    Ok ((0 <? Character.attack_power c + Character.temp_attack c)
        && Character.active c && negb (Character.frozen c)) w.
Proof. intros Hc. unfold can_attack. step Hc. reflexivity. Qed.

Lemma cannot_attack (call : fn → list val → M unit) (fuel : nat)
    (choose : pid → list obj → World.t → obj) (self : obj) (w : World.t) (c : Character.t) :
  get_character self w = Ok c w → Character.active c = false →
  Character_attack call fuel choose self w =
    Raise (GameException "That minion cannot attack") w.
Proof.
  intros Hc Hactive. unfold Character_attack.
  step (can_attack_value self w c Hc).
  rewrite Hactive, andb_false_r. reflexivity.
Qed.

Lemma get_minion_state (m : nat) (w w' : World.t) (x : Minion.t) :
  get_minion m w = Ok x w' → w' = w.
Proof.
  unfold get_minion. destruct (World.minions w !! m); simpl; [|discriminate].
  by intros [= _ <-].
Qed.

Lemma attack_scan_state (enemies : list nat) :
  ∀ found_taunt targets w w' r,
    attack_scan enemies found_taunt targets w = Ok r w' → w' = w.
Proof.
  induction enemies as [|e enemies IH]; intros found_taunt targets w w' r H.
  - by injection H as _ <-.
  - simpl in H. apply and_then_Ok in H as (x & w1 & Hx & H).
    apply get_minion_state in Hx as ->. by eapply IH.
Qed.

Lemma taunt_only_state (targets : list nat) :
  ∀ w w' r, taunt_only targets w = Ok r w' → w' = w.
Proof.
  induction targets as [|t targets IH]; intros w w' r H.
  - by injection H as _ <-.
  - simpl in H. apply and_then_Ok in H as (x & w1 & Hx & H).
    apply get_minion_state in Hx as ->.
    apply and_then_Ok in H as (rest & w2 & Hrest & H).
    apply IH in Hrest as ->. by injection H as _ <-.
Qed.

Lemma attribute_state {A} (o : option A) (w w' : World.t) (a : A) :
  attribute o w = Ok a w' → o = Some a ∧ w' = w.
Proof. destruct o; simpl; [|discriminate]. by intros [= <- <-]. Qed.

Lemma attack_targets_state (self : obj) (w w' : World.t) (targets : list obj) :
  attack_targets self w = Ok targets w' → w' = w.
Proof.
  intros H. unfold attack_targets in H.
  apply and_then_Ok in H as (c & w1 & Hc & H). apply get_character_state in Hc as ->.
  apply and_then_Ok in H as (p & w2 & Hp & H). apply attribute_state in Hp as [_ ->].
  rewrite and_then_get in H. cbv zeta in H.
  apply and_then_Ok in H as (scan & w3 & Hscan & H).
  apply attack_scan_state in Hscan as ->.
  destruct (fst scan).
  - apply and_then_Ok in H as (ts & w4 & Hts & H).
    apply taunt_only_state in Hts as ->. by injection H as _ <-.
  - by injection H as _ <-.
Qed.

Lemma choose_target_state (choose : pid → list obj → World.t → obj) (self : obj)
    (targets : list obj) (w w' : World.t) (target : obj) :
  Character_choose_target choose self targets w = Ok target w' → w' = w.
Proof.
  intros H. unfold Character_choose_target in H.
  apply and_then_Ok in H as (c & w1 & Hc & H). apply get_character_state in Hc as ->.
  apply and_then_Ok in H as (p & w2 & Hp & H). apply attribute_state in Hp as [_ ->].
  rewrite and_then_get in H. by injection H as _ <-.
Qed.

Lemma attack_flags_fields (c : Character.t) :
  Character.attack_power (attack_flags c) = Character.attack_power c ∧
  Character.temp_attack (attack_flags c) = Character.temp_attack c ∧
  Character.frozen (attack_flags c) = Character.frozen c.
Proof.
  unfold attack_flags.
  by destruct (Character.wind_fury c && negb (Character.used_wind_fury c)).
Qed.

(** C8: an attack that returns was made by an attacker that could attack:
    the handlers of "attacking" ran in the world of the call, and the target
    was chosen and the exchange resolved in the world they left.  If the
    resolution ended with the attacker dead, the attack returned in the
    world the resolution left.  Otherwise the delayed events of the attacker
    were flushed in that world, and the flags were assigned to the attacker
    as the flush left it, which gives the world the attack returns: with
    wind fury set and not yet used, [used_wind_fury] is set and [active] and
    all that [can_attack] reads stay as they are, so that a second attack is
    legal if the attacker is still able to attack; otherwise [active] is
    cleared and the next attack raises.  An attacker that is not active
    cannot attack: [attack] raises.  The witness runs a wind-fury minion:
    two attacks return, the third raises. *)
Theorem wind_fury_attack (call : fn → list val → M unit) (fuel : nat)
    (choose : pid → list obj → World.t → obj) (self : obj) (w w' : World.t) :
  Character_attack call fuel choose self w = Ok tt w' →
  (∃ c0 p wa target goes_on wr,
     get_character self w = Ok c0 w ∧
     0 < Character.attack_power c0 + Character.temp_attack c0 ∧
     Character.active c0 = true ∧ Character.frozen c0 = false ∧
     Character.player c0 = Some p ∧
     trigger call (OPlayer p) "attacking" [VRef self] w = Ok tt wa ∧
     (∃ targets,
        attack_targets self w = Ok targets w ∧
        Character_choose_target choose self targets wa = Ok target wa) ∧
     attack_resolve call fuel self target wa = Ok goes_on wr ∧
     if goes_on then
       ∃ wf c,
         activate_delayed call fuel self wr = Ok tt wf ∧
         get_character self wf = Ok c wf ∧
         modify_character self attack_flags wf = Ok tt w' ∧
         get_character self w' = Ok (attack_flags c) w' ∧
         Character.stealth (attack_flags c) = false ∧
         (Character.wind_fury c = true → Character.used_wind_fury c = false →
            Character.used_wind_fury (attack_flags c) = true ∧
            Character.active (attack_flags c) = Character.active c ∧
            can_attack self w'
            = Ok ((0 <? Character.attack_power c + Character.temp_attack c)
                  && Character.active c && negb (Character.frozen c)) w') ∧
         (Character.wind_fury c = false ∨ Character.used_wind_fury c = true →
            Character.active (attack_flags c) = false ∧
            Character.used_wind_fury (attack_flags c) = Character.used_wind_fury c ∧
            Character_attack call fuel choose self w'
            = Raise (GameException "That minion cannot attack") w')
     else
       w' = wr ∧ ∃ c, get_character self w' = Ok c w' ∧ Character.dead c = true) ∧
  (∀ v c, get_character self v = Ok c v → Character.active c = false →
     Character_attack call fuel choose self v =
       Raise (GameException "That minion cannot attack") v).
Proof.
  intros Hrun. split; [|intros v c; apply cannot_attack].
  unfold Character_attack in Hrun.
  apply and_then_Ok in Hrun as (able & w0 & Hable & Hrun).
  unfold can_attack in Hable.
  apply and_then_Ok in Hable as (c0 & w0' & Hc0 & Hable).
  pose proof (get_character_state _ _ _ _ Hc0) as ->.
  injection Hable as <- <-.
  destruct (_ && _ && _) eqn:Hcan in Hrun; cbn [negb] in Hrun; [|discriminate].
  apply andb_prop in Hcan as [Hcan Hfrozen]. apply andb_prop in Hcan as [Hpos Hactive].
  apply Z.ltb_lt in Hpos. apply negb_true_iff in Hfrozen.
  apply and_then_Ok in Hrun as (targets & w1 & Htargets & Hrun).
  pose proof (attack_targets_state _ _ _ _ Htargets) as ->.
  rewrite (and_then_step _ _ _ _ _ Hc0) in Hrun.
  apply and_then_Ok in Hrun as (p & w3 & Hp & Hrun).
  apply attribute_state in Hp as [Hp ->].
  apply and_then_Ok in Hrun as ([] & wa & Hattacking & Hrun).
  apply and_then_Ok in Hrun as (target & w5 & Hchoose & Hrun).
  pose proof (choose_target_state _ _ _ _ _ _ Hchoose) as ->.
  apply and_then_Ok in Hrun as (goes_on & wr & Hresolve & Hrun).
  exists c0, p, wa, target, goes_on, wr.
  do 5 (split; [done|]). split; [exact Hattacking|].
  split; [by exists targets|]. split; [exact Hresolve|].
  destruct goes_on; cbn [when] in Hrun.
  - unfold attack_finish in Hrun.
    apply and_then_Ok in Hrun as ([] & wf & Hflush & Hflags).
    destruct (modify_character_get _ _ _ _ Hflags) as (c & Hc & Hc').
    exists wf, c. destruct (attack_flags_spec c) as (Hfury & Hplain & Hstealth).
    destruct (attack_flags_fields c) as (Hap & Hta & Hfr).
    split; [exact Hflush|]. split; [exact Hc|]. split; [exact Hflags|].
    split; [exact Hc'|]. split; [exact Hstealth|]. split.
    + intros Hwf Hused. destruct (Hfury Hwf Hused) as [Hu Ha].
      split; [exact Hu|]. split; [exact Ha|].
      rewrite (can_attack_value self w' _ Hc'). by rewrite Hap, Hta, Hfr, Ha.
    + intros Hcase. destruct (Hplain Hcase) as [Ha Hu].
      split; [exact Ha|]. split; [exact Hu|].
      by apply (cannot_attack call fuel choose self w' _ Hc').
  - injection Hrun as <-. split; [reflexivity|]. by eapply attack_resolve_false.
Qed.

(** The wind-fury minion attacks the hero twice; after the first attack it
    has used its wind fury and is still active, after the second it is not
    active, and the third attack raises. *)
Lemma wind_fury_attack_witness :
  Character_attack run_call 20 first_target (OMinion 0) fury_board = Ok tt fury_once ∧
  Character.used_wind_fury (the_minion 0 fury_once) = true ∧
  Character.active (the_minion 0 fury_once) = true ∧
  Character_attack run_call 20 first_target (OMinion 0) fury_once = Ok tt fury_twice ∧
  Character.active (the_minion 0 fury_twice) = false ∧
  Character.health (hero_base P1 fury_twice) = 26 ∧
  Character_attack run_call 20 first_target (OMinion 0) fury_twice =
    Raise (GameException "That minion cannot attack") fury_twice.
Proof.
  assert (H1 : Character_attack run_call 20 first_target (OMinion 0) fury_board
               = Ok tt fury_once) by (vm_compute; reflexivity).
  split; [exact H1|].
  do 5 (split; [vm_compute; reflexivity|]).
  refine (proj2 (wind_fury_attack run_call 20 first_target (OMinion 0)
                   fury_board fury_once H1)
            fury_twice (the_minion 0 fury_twice) _ _); vm_compute; reflexivity.
Defined.

(** ** The exchange of damage *)

(** C1: when the target is a minion and the attacker is not dead after the
    reactions to "attack_minion" and "attacked", both amounts are read in
    the state [w1] those reactions leave: the attacker is hit for the
    target's [attack_power], the target for the attacker's [attack_power +
    temp_attack].  Whatever state [w2] the handlers of the first hit leave,
    the second hit is dealt with the amount read in [w1]. *)
Theorem attack_exchange_simultaneous (call : fn → list val → M unit) (fuel : nat)
    (self : obj) (t : nat) (w w1 : World.t) (c ct : Character.t) :
  (trigger call self "attack_minion" [VRef (OMinion t)] ;;;
   trigger call (OMinion t) "attacked" [VRef self]) w = Ok tt w1 →
  get_character self w1 = Ok c w1 → Character.dead c = false →
  get_character (OMinion t) w1 = Ok ct w1 →
  attack_resolve call fuel self (OMinion t) w =
    (physical_damage call self (Character.attack_power ct) (VRef (OMinion t)) ;;;
     physical_damage call (OMinion t)
       (Character.attack_power c + Character.temp_attack c) (VRef self) ;;;
     activate_delayed call fuel (OMinion t) ;;;
     ret true) w1 ∧
  (∀ w2,
     physical_damage call self (Character.attack_power ct) (VRef (OMinion t)) w1 = Ok tt w2 →
     attack_resolve call fuel self (OMinion t) w =
       (physical_damage call (OMinion t)
          (Character.attack_power c + Character.temp_attack c) (VRef self) ;;;
        activate_delayed call fuel (OMinion t) ;;;
        ret true) w2).
Proof.
  intros Hreact Hc Hdead Hct.
  apply and_then_Ok in Hreact as ([] & w0 & Hfirst & Hsecond).
  assert (Heq : attack_resolve call fuel self (OMinion t) w =
    (physical_damage call self (Character.attack_power ct) (VRef (OMinion t)) ;;;
     physical_damage call (OMinion t)
       (Character.attack_power c + Character.temp_attack c) (VRef self) ;;;
     activate_delayed call fuel (OMinion t) ;;;
     ret true) w1).
  { unfold attack_resolve. step Hfirst. step Hsecond. step Hc.
    rewrite Hdead. step Hct. reflexivity. }
  split; [exact Heq|].
  intros w2 Hhit. rewrite Heq. step Hhit. reflexivity.
Qed.

(** The 3/2 minion attacks the 2/3 minion.  The first hit makes the
    handlers raise both attacks by 5, to 8 and 7; the target still takes 3
    and the attacker 2, so both end at health 0. *)
Lemma attack_exchange_simultaneous_witness :
  attack_resolve run_call 20 (OMinion 0) (OMinion 1) exchange_board =
    (physical_damage run_call (OMinion 0)
       (Character.attack_power (the_minion 1 exchange_reacted)) (VRef (OMinion 1)) ;;;
     physical_damage run_call (OMinion 1)
       (Character.attack_power (the_minion 0 exchange_reacted)
        + Character.temp_attack (the_minion 0 exchange_reacted)) (VRef (OMinion 0)) ;;;
     activate_delayed run_call 20 (OMinion 1) ;;;
     ret true) exchange_reacted ∧
  Character.attack_power (the_minion 0 exchange_reacted) = 3 ∧
  Character.attack_power (the_minion 1 exchange_reacted) = 2 ∧
  attack_resolve run_call 20 (OMinion 0) (OMinion 1) exchange_board =
    Ok true exchange_resolved ∧
  Character.attack_power (the_minion 0 exchange_resolved) = 8 ∧
  Character.attack_power (the_minion 1 exchange_resolved) = 7 ∧
  Character.health (the_minion 0 exchange_resolved) = 0 ∧
  Character.health (the_minion 1 exchange_resolved) = 0.
Proof.
  split.
  - refine (proj1 (attack_exchange_simultaneous run_call 20 (OMinion 0) 1
                     exchange_board exchange_reacted
                     (the_minion 0 exchange_reacted) (the_minion 1 exchange_reacted)
                     _ _ _ _)); vm_compute; reflexivity.
  - repeat apply conj; vm_compute; reflexivity.
Defined.

(** ** Playing a card *)

Lemma cards_only_refl (w : World.t) : cards_only w w.
Proof. by destruct w. Qed.

Lemma cards_only_trans (w1 w2 w3 : World.t) :
  cards_only w1 w2 → cards_only w2 w3 → cards_only w1 w3.
Proof. unfold cards_only. intros H12 H23. rewrite H23, H12. reflexivity. Qed.

Lemma get_card_state (c : nat) (w w' : World.t) (x : Card.t) :
  get_card c w = Ok x w' → w' = w.
Proof.
  unfold get_card. destruct (World.cards w !! c); simpl; [|discriminate].
  by intros [= _ <-].
Qed.

Lemma modify_card_frame (c : nat) (f : Card.t → Card.t) (w w' : World.t) :
  modify_card c f w = Ok tt w' → cards_only w w'.
Proof.
  intros H. apply and_then_Ok in H as (x & w1 & Hx & H).
  apply get_card_state in Hx as ->. injection H as <-. reflexivity.
Qed.

Lemma mana_cost_state (c : nat) (p : pid) (w w' : World.t) (z : Z) :
  mana_cost c p w = Ok z w' → w' = w.
Proof.
  intros H. apply and_then_Ok in H as (x & w1 & Hx & H).
  apply get_card_state in Hx as ->. by injection H as _ <-.
Qed.

Lemma secret_names_state (l : list nat) (w w' : World.t) (names : list string) :
  secret_names l w = Ok names w' → w' = w.
Proof.
  revert names w'. induction l as [|s l IH]; intros names w' H.
  - by injection H as _ <-.
  - simpl in H. apply and_then_Ok in H as (x & w1 & Hx & H).
    apply get_card_state in Hx as ->.
    apply and_then_Ok in H as (rest & w2 & Hrest & H).
    apply IH in Hrest as ->. by injection H as _ <-.
Qed.

Lemma Card_can_use_frame (get_targets : nat → World.t → option (list obj))
    (c : nat) (p : pid) (w w' : World.t) (b : bool) :
  Card_can_use get_targets c p w = Ok b w' → cards_only w w'.
Proof.
  intros H. unfold Card_can_use in H.
  apply and_then_Ok in H as (x & w1 & Hx & H). apply get_card_state in Hx as ->.
  apply and_then_Ok in H as (no_target & w2 & Hcheck & H).
  assert (Hframe : cards_only w w2).
  { destruct (Card.targetable x).
    - rewrite and_then_get in Hcheck.
      apply and_then_Ok in Hcheck as ([] & w3 & Hmod & Hret).
      injection Hret as _ <-. by eapply modify_card_frame.
    - injection Hcheck as _ <-. apply cards_only_refl. }
  destruct no_target.
  - by injection H as _ <-.
  - apply and_then_Ok in H as (cost & w3 & Hcost & H).
    apply mana_cost_state in Hcost as ->. by injection H as _ <-.
Qed.

Lemma can_use_frame (get_targets : nat → World.t → option (list obj))
    (c : nat) (p : pid) (w w' : World.t) (b : bool) :
  can_use get_targets c p w = Ok b w' → cards_only w w'.
Proof.
  intros H. unfold can_use in H.
  apply and_then_Ok in H as (x & w1 & Hx & H). apply get_card_state in Hx as ->.
  destruct (Card.kind x); try by eapply Card_can_use_frame.
  unfold SecretCard_can_use in H.
  apply and_then_Ok in H as (usable & w2 & Huse & H).
  apply Card_can_use_frame in Huse.
  destruct usable; [|by injection H as _ <-].
  apply and_then_Ok in H as (y & w3 & Hy & H). apply get_card_state in Hy as ->.
  rewrite and_then_get in H.
  apply and_then_Ok in H as (names & w4 & Hnames & H).
  apply secret_names_state in Hnames as ->. by injection H as _ <-.
Qed.

Lemma set_player_current (p : pid) (x : Player.t) (w : World.t) :
  World.current_player (set_player p x w) = World.current_player w.
Proof. destruct p; reflexivity. Qed.

Lemma set_player_trace (p : pid) (x : Player.t) (w : World.t) :
  World.trace (set_player p x w) = World.trace w.
Proof. destruct p; reflexivity. Qed.

Lemma get_set_player (p q : pid) (x : Player.t) (w : World.t) :
  get_player q (set_player p x w) = if decide (q = p) then x else get_player q w.
Proof. destruct p, q; reflexivity. Qed.

Lemma cards_only_player (w w' : World.t) (p : pid) :
  cards_only w w' → get_player p w' = get_player p w.
Proof. intros ->. destruct p; reflexivity. Qed.

Lemma cards_only_trace (w w' : World.t) :
  cards_only w w' → World.trace w' = World.trace w.
Proof. intros ->. reflexivity. Qed.

(** C10, as amended: when the first check of [play_card] passes and the
    check before the mana deduction fails, [play_card] raises in the state
    [w3] that check leaves: "card_played" has been dispatched (its handlers
    ran, [w1] is what they left), the card is gone from the hand of the
    current player, nothing has been journaled since the dispatch ([use] is
    not entered), and [play_card] itself has deducted no mana: the mana of
    every player is what the dispatch left.  It is the mana before the call
    only if the handlers of "card_played" did not change it. *)
Theorem play_card_recheck_not_atomic (call : fn → list val → M unit) (fuel : nat)
    (choose : pid → list obj → World.t → obj) (index_of : pid → nat → World.t → Z)
    (get_targets : nat → World.t → option (list obj)) (create : nat → pid → M nat)
    (card : nat) (w w0 w1 w3 : World.t) (hand : list nat) :
  World.game_ended w = false →
  can_use get_targets card (World.current_player w) w = Ok true w0 →
  trigger call (OPlayer (World.current_player w)) "card_played" [VRef (OCard card)] w0
    = Ok tt w1 →
  py_remove card (Player.hand (get_player (World.current_player w1) w1)) = Some hand →
  can_use get_targets card (World.current_player w1)
    (set_player (World.current_player w1)
       (Player.set_hand hand (get_player (World.current_player w1) w1)) w1) = Ok false w3 →
  play_card call fuel choose index_of get_targets create card w =
    Raise (GameException "Tried to play card that could not be played") w3 ∧
  Player.hand (get_player (World.current_player w1) w3) = hand ∧
  World.trace w3 = World.trace w1 ∧
  (∀ p, Player.mana (get_player p w3) = Player.mana (get_player p w1)) ∧
  (∀ p, Player.mana (get_player p w1) = Player.mana (get_player p w) →
        Player.mana (get_player p w3) = Player.mana (get_player p w)).
Proof.
  intros Hgame Hfirst Hdispatch Hhand Hsecond.
  pose proof (can_use_frame _ _ _ _ _ _ Hfirst) as Hf0.
  pose proof (can_use_frame _ _ _ _ _ _ Hsecond) as Hf3.
  assert (Hcur0 : World.current_player w0 = World.current_player w)
    by (rewrite Hf0; reflexivity).
  assert (Hmana : ∀ p, Player.mana (get_player p w3) = Player.mana (get_player p w1)).
  { intros p. rewrite (cards_only_player _ _ p Hf3), get_set_player.
    by case_decide; subst. }
  split; [|split; [|split; [|split]]].
  - unfold play_card. rewrite and_then_get, Hgame. step Hfirst. cbn [negb].
    rewrite and_then_get, Hcur0. step Hdispatch.
    rewrite and_then_get. cbv zeta. rewrite Hhand.
    unfold modify_player at 1, modify at 1. unfold and_then at 1.
    rewrite and_then_get, set_player_current.
    step Hsecond. reflexivity.
  - rewrite (cards_only_player _ _ _ Hf3), get_set_player, decide_True by done.
    reflexivity.
  - by rewrite (cards_only_trace _ _ Hf3), set_player_trace.
  - exact Hmana.
  - intros p Hp. by rewrite Hmana.
Qed.

(** The card example: the handler of "card_played" raises the cost of the
    card from 3 to 8; [play_card] raises with the card gone from the hand,
    the 5 mana of the player untouched, and a journal that holds the
    dispatch of "card_played" and no entry of [use]. *)
Lemma play_card_recheck_not_atomic_witness :
  play_card run_call 20 first_target end_of_board no_targets no_minion 7 card_board =
    Raise (GameException "Tried to play card that could not be played") card_played ∧
  Player.hand (get_player P0 card_board) = [7%nat] ∧
  Player.hand (get_player P0 card_played) = [] ∧
  Player.mana (get_player P0 card_board) = 5 ∧
  Player.mana (get_player P0 card_played) = 5 ∧
  World.trace card_played =
    [Triggered (OPlayer P0) "card_played" [VRef (OCard 7)]; Invoked 4 (External 4) [VRef (OCard 7)]].
Proof.
  split.
  - refine (proj1 (play_card_recheck_not_atomic run_call 20 first_target end_of_board
                     no_targets no_minion 7 card_board card_checked card_dispatched
                     card_played [] _ _ _ _ _)); vm_compute; reflexivity.
  - repeat apply conj; vm_compute; reflexivity.
Defined.

(** The claim of C10 as it was stated fails: in the drain example the first
    check passes, the handler of "card_played" empties the mana, the check
    before the deduction fails and [play_card] raises with the card gone
    from the hand, and the mana of the player is 0 and no longer the 5 it
    was before the call. *)
Lemma play_card_mana_changed_by_handler :
  World.game_ended drain_board = false ∧
  can_use no_targets 7 (World.current_player drain_board) drain_board = Ok true drain_board ∧
  play_card run_call 20 first_target end_of_board no_targets no_minion 7 drain_board =
    Raise (GameException "Tried to play card that could not be played") drain_played ∧
  World.current_player drain_board = P0 ∧
  Player.hand (get_player P0 drain_played) = [] ∧
  Player.mana (get_player P0 drain_board) = 5 ∧
  Player.mana (get_player P0 drain_played) = 0 ∧
  Player.mana (get_player P0 drain_played) ≠ Player.mana (get_player P0 drain_board).
Proof.
  repeat apply conj; try (vm_compute; reflexivity).
  vm_compute. discriminate.
Qed.

(** * Further properties *)

(** ** Deck: round trips and bounds *)

Module DeckLaws.
Import Deck.

Lemma drawn_restored (d : t) (s : nat) :
  used d !! s = Some false → restored (drawn d s) s = d.
Proof.
  intros Hs. destruct d as [cs us l]. unfold restored, drawn. simpl in *.
  rewrite list_insert_insert_eq, list_insert_id by done. f_equal. lia.
Qed.

Lemma first_slot_NoDup (d : t) (s c : nat) :
  NoDup (cards d) → cards d !! s = Some c → first_slot c d s.
Proof.
  intros Hnd Hs. split; [done|]. intros j c' Hj Hc' ->.
  pose proof (NoDup_lookup _ _ _ _ Hnd Hc' Hs). lia.
Qed.

Lemma put_back_drawn (d : t) (s c : nat) :
  invariant d → NoDup (cards d) →
  used d !! s = Some false → cards d !! s = Some c →
  put_back c (drawn d s) = Ok tt d.
Proof.
  intros Hinv Hnd Hs Hc.
  pose proof (lookup_lt_Some _ _ _ Hs) as Hlt.
  assert (Hfirst : first_slot c (drawn d s) s) by by apply first_slot_NoDup.
  unfold put_back. rewrite (DeckFacts.put_back_loop_first c (drawn d s) s Hfirst) by (destruct Hinv; lia).
  simpl. rewrite list_lookup_insert_eq by done.
  by rewrite drawn_restored.
Qed.

(** X1: a card that was just drawn can be put back, and that restores the
    deck as it was before the draw. *)
Theorem draw_put_back (random_func : Z → Z → Z) (d d' : t) (card : nat) :
  invariant d → length (cards d) = 30%nat → NoDup (cards d) →
  0 ≤ random_func 0 (left d - 1) ≤ left d - 1 →
  draw random_func d = Ok card d' →
  put_back card d' = Ok tt d.
Proof.
  intros Hinv Hcs Hnd Hidx Hdraw.
  destruct (DeckFacts.draw_at random_func d Hinv Hcs Hidx) as (s & c & Hs & _ & Hc & Hd).
  rewrite Hd in Hdraw. injection Hdraw as <- <-.
  by apply put_back_drawn.
Qed.

Lemma draw_put_back_witness :
  put_back 0%nat (drawn (init (seq 0 30)) 0) = Ok tt (init (seq 0 30)).
Proof.
  apply (draw_put_back (λ a _, a) (init (seq 0 30))).
  - apply DeckFacts.init_invariant.
  - reflexivity.
  - apply NoDup_seq.
  - simpl. lia.
  - reflexivity.
Defined.

(** X2: a card cannot be put back twice in a row: after a [put_back] that
    returned, a second [put_back] of the same card raises and leaves the
    deck as it is. *)
Theorem put_back_twice (card : nat) (d d' : t) :
  length (cards d) = 30%nat → length (used d) = 30%nat →
  put_back card d = Ok tt d' →
  put_back card d' =
    Raise (GameException "Tried to put back a card that hadn't been used yet") d'.
Proof.
  intros Hcs Hus Hput.
  destruct (DeckFacts.put_back_outcome card d Hcs) as [(i & Hi & Hu & Heq)|[e Heq]];
    rewrite Heq in Hput; [|discriminate].
  injection Hput as <-.
  pose proof (lookup_lt_Some _ _ _ Hu) as Hlt.
  unfold put_back.
  rewrite (DeckFacts.put_back_loop_first card (restored d i) i Hi)
    by (pose proof (lookup_lt_Some _ _ _ (proj1 Hi)); simpl; lia).
  simpl. by rewrite list_lookup_insert_eq.
Qed.

Lemma put_back_twice_witness :
  put_back 3%nat (restored (drawn (init (seq 0 30)) 3) 3) =
    Raise (GameException "Tried to put back a card that hadn't been used yet")
      (restored (drawn (init (seq 0 30)) 3) 3).
Proof.
  apply (put_back_twice 3%nat (drawn (init (seq 0 30)) 3)); reflexivity.
Defined.

(** X3: draws are without replacement: from a deck of distinct cards, a
    sequence of draws returns pairwise distinct cards, each from a slot that
    was not used before the sequence, and as many of them as there are
    draws, until the deck has no card left. *)
Theorem draws_distinct (sources : list (Z → Z → Z)) (d : t) :
  invariant d → length (cards d) = 30%nat → NoDup (cards d) →
  Forall in_range sources →
  NoDup (draws sources d) ∧
  (∀ c, c ∈ draws sources d → ∃ s, cards d !! s = Some c ∧ used d !! s = Some false) ∧
  length (draws sources d) = (length sources `min` Z.to_nat (left d))%nat.
Proof.
  revert d. induction sources as [|random_func sources IH];
    intros d Hinv Hcs Hnd Hall.
  - simpl. split; [constructor|]. split; [|done].
    intros c Hc. by apply elem_of_nil in Hc.
  - apply Forall_cons in Hall as [Hrf Hall].
    pose proof (DeckFacts.invariant_left d Hinv) as Hleft.
    pose proof (DeckFacts.count_unused_nonneg (used d)) as Hnn.
    destruct (decide (0 < left d)) as [Hpos|Hneg].
    + destruct (DeckFacts.draw_at random_func d Hinv Hcs) as (s & c & Hs & _ & Hc & Hd).
      { specialize (Hrf 0 (left d - 1)). lia. }
      destruct (DeckFacts.step_invariant d (Draw random_func) Hcs Hinv Hrf) as [Hinv' _].
      simpl in Hinv'. rewrite Hd in Hinv'. simpl in Hinv'.
      cbn [draws]. rewrite Hd.
      destruct (IH (drawn d s) Hinv' Hcs Hnd Hall) as (Hnd' & Hslots & Hlen).
      pose proof (lookup_lt_Some _ _ _ Hs) as Hlt.
      assert (Hother : ∀ c', c' ∈ draws sources (drawn d s) →
        ∃ s', s' ≠ s ∧ cards d !! s' = Some c' ∧ used d !! s' = Some false).
      { intros c' Hc'. destruct (Hslots c' Hc') as (s' & Hcs' & Hus').
        simpl in Hcs', Hus'. exists s'.
        destruct (decide (s' = s)) as [->|Hne].
        - rewrite list_lookup_insert_eq in Hus' by done. discriminate.
        - rewrite list_lookup_insert_ne in Hus' by done. done. }
      split; [|split].
      * constructor; [|done]. intros Hin.
        destruct (Hother c Hin) as (s' & Hne & Hcs' & _).
        apply Hne. exact (NoDup_lookup _ _ _ _ Hnd Hcs' Hc).
      * intros c' Hc'. apply elem_of_cons in Hc' as [->|Hc']; [eauto|].
        destruct (Hother c' Hc') as (s' & _ & ? & ?). eauto.
      * cbn [length]. rewrite Hlen.
        change (left (drawn d s)) with (left d - 1). lia.
    + cbn [draws]. rewrite DeckFacts.draw_empty by lia.
      destruct (IH d Hinv Hcs Hnd Hall) as (Hnd' & Hslots & Hlen).
      split; [done|]. split; [done|]. rewrite Hlen. cbn [length]. lia.
Qed.

Lemma draws_distinct_witness :
  NoDup (draws [λ a _, a; λ _ b, b; λ a _, a] (init (seq 0 30))).
Proof.
  refine (proj1 (draws_distinct [λ a _, a; λ _ b, b; λ a _, a] (init (seq 0 30)) _ _ _ _)).
  - apply DeckFacts.init_invariant.
  - reflexivity.
  - apply NoDup_seq.
  - constructor; [intros a b Hab; lia|].
    constructor; [intros a b Hab; lia|].
    constructor; [intros a b Hab; lia|]. constructor.
Defined.

Lemma draw_loop_overrun (index : Z) (rest : list bool) (count : Z) (i : nat) :
  count ≤ index → count_unused rest ≤ index - count →
  draw_loop index rest count i = None.
Proof.
  revert count i. induction rest as [|b rest IH]; intros count i Hle Hover; simpl;
    (destruct (Z.leb_spec count index); [|lia]); [done|].
  rewrite DeckFacts.count_unused_cons in Hover.
  pose proof (DeckFacts.count_unused_nonneg rest).
  destruct b; apply IH; lia.
Qed.

(** X4: a random source that answers with an index beyond the cards that
    are left makes [draw] read past the end of the slots: it raises
    [IndexError] and leaves the deck as it is. *)
Theorem draw_index_too_large (random_func : Z → Z → Z) (d : t) :
  invariant d → 0 < left d → left d ≤ random_func 0 (left d - 1) →
  draw random_func d = Raise IndexError d.
Proof.
  intros Hinv Hpos Hbig. pose proof (DeckFacts.invariant_left d Hinv) as Hleft.
  unfold draw, can_draw. destruct (Z.ltb_spec 0 (left d)); [|lia]. simpl.
  rewrite draw_loop_overrun; [done|lia|lia].
Qed.

Lemma draw_index_too_large_witness :
  draw (λ _ _, 30) (init (seq 0 30)) = Raise IndexError (init (seq 0 30)).
Proof.
  apply draw_index_too_large.
  - apply DeckFacts.init_invariant.
  - reflexivity.
  - simpl. lia.
Defined.

(** X5: a random source that answers with a negative index makes [draw]
    skip its loop and use position -1: it marks the last slot used, returns
    the last card and decrements [left], whether or not that slot was used
    already; if it was, the deck invariant is lost. *)
Theorem draw_negative_index (random_func : Z → Z → Z) (d : t) (card : nat) :
  0 < left d → random_func 0 (left d - 1) < 0 →
  length (used d) = 30%nat → length (cards d) = 30%nat →
  cards d !! 29%nat = Some card →
  draw random_func d = Ok card (drawn d 29) ∧
  (invariant d → used d !! 29%nat = Some true → ¬ invariant (drawn d 29)).
Proof.
  intros Hpos Hneg Hus Hcs Hcard. split.
  - assert (Hloop : draw_loop (random_func 0 (left d - 1)) (used d) 0 0 = Some 0%nat).
    { destruct (used d); simpl;
        by destruct (Z.leb_spec 0 (random_func 0 (left d - 1))); [lia|]. }
    assert (Hlast : ∀ A (l : list A), length l = 30%nat →
              py_index l (Z.of_nat 0 - 1) = Some 29%nat).
    { intros A l Hl. unfold py_index. rewrite Hl. reflexivity. }
    unfold draw, can_draw. destruct (Z.ltb_spec 0 (left d)); [|lia].
    cbn [negb]. cbv zeta. rewrite Hloop. unfold py_set, py_get.
    rewrite (Hlast _ _ Hus), (Hlast _ _ Hcs), Hcard. reflexivity.
  - intros [_ Hsum] Hlast [_ Hsum']. simpl in Hsum'.
    rewrite list_insert_id in Hsum' by done. lia.
Qed.

Lemma draw_negative_index_witness :
  draw (λ _ _, -1) (init (seq 0 30)) = Ok 29%nat (drawn (init (seq 0 30)) 29).
Proof.
  refine (proj1 (draw_negative_index (λ _ _, -1) (init (seq 0 30)) 29%nat _ _ _ _ _));
    reflexivity.
Defined.

End DeckLaws.

(** ** Bindable: binding and unbinding *)

Lemma get_events_Ok (self : obj) (w : World.t) (reg : gmap string (list nat)) :
  World.events w !! self = Some reg → get_events self w = Ok reg w.
Proof. unfold get_events. by intros ->. Qed.

Lemma get_handler_Ok (h : nat) (w : World.t) (x : Handler.t) :
  World.handlers w !! h = Some x → get_handler h w = Ok x w.
Proof. unfold get_handler. by intros ->. Qed.

Lemma bind_handler_Ok (remove : bool) (self : obj) (event : string) (f : fn)
    (args : list val) (w : World.t) (reg : gmap string (list nat)) :
  World.events w !! self = Some reg →
  bind_handler remove self event f args w = Ok tt (bound remove self event f args reg w).
Proof.
  intros Hreg. unfold bind_handler, new_handler, and_then at 1. cbv zeta.
  erewrite and_then_step by (apply get_events_Ok; exact Hreg). reflexivity.
Qed.

Lemma unbind_filter_spec (f : fn) (l : list nat) (w : World.t) :
  (∀ h, h ∈ l → is_Some (World.handlers w !! h)) →
  unbind_filter f l w = Ok (filter (λ h, ¬ bound_with f w h) l) w.
Proof.
  induction l as [|h l IH]; intros Hall; [reflexivity|].
  destruct (Hall h) as [x Hx]; [by left|].
  simpl. step (get_handler_Ok h w x Hx).
  rewrite (and_then_step _ _ _ _ _ (IH (λ k Hk, Hall k (list_elem_of_further _ _ _ Hk)))).
  cbv beta. unfold ret. rewrite filter_cons.
  assert (Hb : bound_with f w h ↔ Handler.function x = f).
  { unfold bound_with. rewrite Hx. simpl. split; congruence. }
  destruct (decide (Handler.function x = f)) as [Heq|Hne].
  - rewrite decide_False; [done|]. intros Hn. apply Hn. by apply Hb.
  - rewrite decide_True; [done|]. intros Hn. apply Hne. by apply Hb.
Qed.

Lemma unbind_Ok (self : obj) (event : string) (f : fn) (w : World.t)
    (reg : gmap string (list nat)) (l : list nat) :
  World.events w !! self = Some reg → reg !! event = Some l →
  (∀ h, h ∈ l → is_Some (World.handlers w !! h)) →
  unbind self event f w =
    Ok tt (World.set_events
             (<[self := unbound event (filter (λ h, ¬ bound_with f w h) l) reg]>
                (World.events w)) w).
Proof.
  intros Hreg Hl Hall. unfold unbind. step (get_events_Ok self w reg Hreg).
  rewrite Hl. step (unbind_filter_spec f l w Hall).
  unfold unbound. by case_decide.
Qed.

Lemma filter_keeps_all {A} (P : A → Prop) `{!∀ x, Decision (P x)} (l : list A) :
  (∀ x, x ∈ l → P x) → filter P l = l.
Proof.
  induction l as [|a l IH]; intros Hl; [reflexivity|].
  rewrite filter_cons, decide_True by (apply Hl; left).
  f_equal. apply IH. intros x Hx. apply Hl. by right.
Qed.

(** X6: [unbind] removes every handler of the event that was bound with the
    function, by [bind] or by [bind_once], and only those; the other
    handlers keep their order, the key of the event is dropped when no
    handler is left, and the other events and objects are untouched. *)
Theorem unbind_removes (self : obj) (event : string) (f : fn) (w : World.t)
    (reg : gmap string (list nat)) (l : list nat) :
  World.events w !! self = Some reg → reg !! event = Some l →
  (∀ h, h ∈ l → is_Some (World.handlers w !! h)) →
  ∃ w',
    unbind self event f w = Ok tt w' ∧
    World.handlers w' = World.handlers w ∧
    handlers_of self event w' =
      (if decide (filter (λ h, ¬ bound_with f w h) l = [])
       then None else Some (filter (λ h, ¬ bound_with f w h) l)) ∧
    (∀ e, e ≠ event → handlers_of self e w' = handlers_of self e w) ∧
    (∀ o e, o ≠ self → handlers_of o e w' = handlers_of o e w).
Proof.
  intros Hreg Hl Hall. eexists. split; [by apply unbind_Ok|].
  split; [reflexivity|]. unfold handlers_of. simpl.
  split; [|split].
  - rewrite lookup_insert_eq. simpl. unfold unbound.
    destruct (filter _ l) as [|h l'] eqn:Hf; simpl.
    + by rewrite lookup_delete_eq.
    + by rewrite lookup_insert_eq.
  - intros e He. rewrite lookup_insert_eq, Hreg. simpl. unfold unbound.
    case_decide.
    + by rewrite lookup_delete_ne.
    + by rewrite lookup_insert_ne.
  - intros o e Ho. by rewrite lookup_insert_ne.
Qed.

(** In the registry of the re-entrancy example, unbinding the function of
    the persistent handler leaves the one-shot handler. *)
Lemma unbind_removes_witness :
  ∃ w',
    unbind OGame "e" (External 1) reentrant_bus = Ok tt w' ∧
    handlers_of OGame "e" w' = Some [5%nat].
Proof.
  destruct (unbind_removes OGame "e" (External 1) reentrant_bus
              {["e" := [4%nat; 5%nat]]} [4%nat; 5%nat]) as (w' & Hrun & _ & Hl & _).
  - vm_compute. reflexivity.
  - vm_compute. reflexivity.
  - intros h Hh.
    apply elem_of_cons in Hh as [-> | Hh]; [vm_compute; eexists; reflexivity|].
    apply elem_of_cons in Hh as [-> | Hh]; [vm_compute; eexists; reflexivity|].
    apply elem_of_nil in Hh. destruct Hh.
  - exists w'. split; [exact Hrun|]. rewrite Hl. vm_compute. reflexivity.
Defined.

(** X7: binding a function to an event and unbinding it again restores the
    registry, when no other handler of that event was bound with the same
    function. *)
Theorem bind_unbind (self : obj) (event : string) (f : fn) (args : list val)
    (w : World.t) (reg : gmap string (list nat)) :
  World.events w !! self = Some reg →
  (reg !! event = None ∨
   ∃ l, reg !! event = Some l ∧ l ≠ [] ∧
        ∀ h, h ∈ l → h ≠ World.next_handler w ∧
                     ∃ x, World.handlers w !! h = Some x ∧ Handler.function x ≠ f) →
  ∃ w',
    (bind self event f args ;;; unbind self event f) w = Ok tt w' ∧
    World.events w' = World.events w.
Proof.
  intros Hreg Hevent.
  set (w1 := bound false self event f args reg w).
  set (l := default [] (reg !! event)).
  assert (Hreg1 : World.events w1 !! self
                  = Some (<[event := l ++ [World.next_handler w]]> reg))
    by (unfold w1, bound; simpl; apply lookup_insert_eq).
  assert (Hall : ∀ h, h ∈ l ++ [World.next_handler w] →
                      is_Some (World.handlers w1 !! h)).
  { intros h Hh. unfold w1, bound. simpl.
    destruct (decide (h = World.next_handler w)) as [->|Hne].
    - rewrite lookup_insert_eq. eauto.
    - rewrite lookup_insert_ne by done.
      apply elem_of_app in Hh as [Hh|Hh]; [|apply list_elem_of_singleton in Hh; done].
      destruct Hevent as [Hnone|(l0 & Hl0 & _ & Hold)].
      + unfold l in Hh. rewrite Hnone in Hh. by apply elem_of_nil in Hh.
      + unfold l in Hh. rewrite Hl0 in Hh. simpl in Hh.
        destruct (Hold h Hh) as (_ & x & Hx & _). eauto. }
  assert (Hfilter : filter (λ h, ¬ bound_with f w1 h) (l ++ [World.next_handler w]) = l).
  { rewrite filter_app, filter_cons, filter_nil.
    rewrite decide_False.
    2:{ intros Hn. apply Hn. unfold bound_with, w1, bound. simpl.
        by rewrite lookup_insert_eq. }
    rewrite app_nil_r.
    apply filter_keeps_all. intros h Hh.
    destruct Hevent as [Hnone|(l0 & Hl0 & _ & Hold)].
    - unfold l in Hh. rewrite Hnone in Hh. by apply elem_of_nil in Hh.
    - unfold l in Hh. rewrite Hl0 in Hh. simpl in Hh.
      destruct (Hold h Hh) as (Hne & x & Hx & Hfx).
      unfold bound_with, w1, bound. simpl. rewrite lookup_insert_ne by done.
      rewrite Hx. simpl. congruence. }
  eexists. split.
  - unfold bind. rewrite (and_then_step _ _ _ _ _ (bind_handler_Ok _ _ _ _ _ _ _ Hreg)).
    cbv beta. fold w1. fold l.
    rewrite (unbind_Ok self event f w1 _ _ Hreg1 (lookup_insert_eq _ _ _) Hall).
    reflexivity.
  - simpl. rewrite Hfilter, insert_insert_eq. unfold unbound.
    destruct Hevent as [Hnone|(l0 & Hl0 & Hne & _)].
    + unfold l. rewrite Hnone. simpl.
      rewrite delete_insert_eq, delete_id by done. by apply insert_id.
    + unfold l. rewrite Hl0. simpl.
      rewrite decide_False by (destruct l0; [done|simpl; lia]).
      rewrite insert_insert_eq, (insert_id reg) by done. by apply insert_id.
Qed.

(** Binding and unbinding a new function on event "e" of the re-entrancy
    example restores its registry. *)
Lemma bind_unbind_witness :
  ∃ w',
    (bind OGame "e" (External 9) [] ;;; unbind OGame "e" (External 9)) reentrant_bus
      = Ok tt w' ∧
    World.events w' = World.events reentrant_bus.
Proof.
  apply (bind_unbind OGame "e" (External 9) [] reentrant_bus {["e" := [4%nat; 5%nat]]}).
  - vm_compute. reflexivity.
  - right. exists [4%nat; 5%nat]. split; [vm_compute; reflexivity|]. split; [done|].
    intros h Hh.
    apply elem_of_cons in Hh as [-> | Hh].
    { split; [vm_compute; lia|]. eexists. split; [vm_compute; reflexivity|]. discriminate. }
    apply elem_of_cons in Hh as [-> | Hh].
    { split; [vm_compute; lia|]. eexists. split; [vm_compute; reflexivity|]. discriminate. }
    apply elem_of_nil in Hh. destruct Hh.
Defined.

(** ** Bindable: dispatch *)

Lemma py_remove_middle `{EqDecision A} (x : A) (l1 l2 : list A) :
  x ∉ l1 → py_remove x (l1 ++ x :: l2) = Some (l1 ++ l2).
Proof.
  induction l1 as [|a l1 IH]; intros Hx; simpl.
  - by rewrite decide_True.
  - apply not_elem_of_cons in Hx as [Hne Hx].
    rewrite decide_False by done. by rewrite IH.
Qed.







Lemma trigger_absent (call : fn → list val → M unit) (self : obj) (event : string)
    (args : list val) (w : World.t) (reg : gmap string (list nat)) :
  World.events w !! self = Some reg → reg !! event = None →
  trigger call self event args w
  = Ok tt (World.set_trace (World.trace w ++ [Triggered self event args]) w).
Proof.
  intros Hreg Hnone. unfold trigger, journal, modify. unfold and_then at 1.
  erewrite and_then_step by (apply get_events_Ok; exact Hreg).
  by rewrite Hnone.
Qed.


Lemma handlers_of_unbound (self : obj) (event : string) (l : list nat)
    (reg : gmap string (list nat)) (w w' : World.t) :
  World.events w !! self = Some reg →
  World.events w' = <[self := unbound event l reg]> (World.events w) →
  handlers_of self event w' = (if decide (l = []) then None else Some l) ∧
  (∀ e, e ≠ event → handlers_of self e w' = handlers_of self e w) ∧
  (∀ o e, o ≠ self → handlers_of o e w' = handlers_of o e w).
Proof.
  intros Hreg Hev. unfold handlers_of. rewrite Hev.
  split; [|split].
  - rewrite lookup_insert_eq. simpl. unfold unbound.
    destruct l as [|h l']; simpl.
    + by rewrite lookup_delete_eq.
    + by rewrite lookup_insert_eq.
  - intros e He. rewrite lookup_insert_eq, Hreg. simpl. unfold unbound.
    case_decide.
    + by rewrite lookup_delete_ne.
    + by rewrite lookup_insert_ne.
  - intros o e Ho. by rewrite lookup_insert_ne.
Qed.








(** ** The cost of a card *)

Lemma mana_cost_loop_floor (x : Card.t) (lo : Z) (filters : list ManaFilter.t) :
  (∀ f, f ∈ filters → ManaFilter.filter f x = true → lo ≤ ManaFilter.min f) →
  ∀ calc_mana, lo ≤ calc_mana → lo ≤ mana_cost_loop x filters calc_mana.
Proof.
  induction filters as [|f filters IH]; intros Hall calc_mana Hlo; [exact Hlo|].
  assert (Hrest : ∀ g, g ∈ filters → ManaFilter.filter g x = true → lo ≤ ManaFilter.min g)
    by (intros g Hg; apply Hall; by right).
  cbn [mana_cost_loop]. destruct (ManaFilter.filter f x) eqn:Hf; [|by apply IH].
  destruct (calc_mana - ManaFilter.amount f <? ManaFilter.min f) eqn:Hlt.
  - apply Hall; [by left|done].
  - apply IH; [done|]. apply Z.ltb_ge in Hlt.
    specialize (Hall f ltac:(left) Hf). lia.
Qed.

(** X10: the mana cost of a card never falls below a bound that lies under
    its base cost and under the floor of every mana filter that applies to
    the card; with floors of 0 and a base cost of 0 or more, no card costs
    less than nothing. *)
Theorem mana_cost_floor (card : nat) (p : pid) (w : World.t) (x : Card.t) (lo : Z) :
  World.cards w !! card = Some x → lo ≤ Card.mana x →
  (∀ f, f ∈ Player.mana_filters (get_player p w) →
        ManaFilter.filter f x = true → lo ≤ ManaFilter.min f) →
  ∃ cost, mana_cost card p w = Ok cost w ∧ lo ≤ cost.
Proof.
  intros Hx Hlo Hall. eexists. split.
  - unfold mana_cost, and_then, get_card. rewrite Hx. reflexivity.
  - by apply mana_cost_loop_floor.
Qed.

(** The card of the card example costs 0 or more under its mana filter. *)
Lemma mana_cost_floor_witness :
  ∃ cost, mana_cost 7 P0 card_dispatched = Ok cost card_dispatched ∧ 0 ≤ cost.
Proof.
  apply (mana_cost_floor 7 P0 card_dispatched
           (Card.mk "Spell" 3 false false None None Spell None) 0).
  - vm_compute. reflexivity.
  - vm_compute. discriminate.
  - intros f Hf _.
    assert (He : Player.mana_filters (get_player P0 card_dispatched)
                 = [ManaFilter.mk (-5) (λ _, true) 0]) by (vm_compute; reflexivity).
    rewrite He in Hf. clear He.
    apply list_elem_of_singleton in Hf. rewrite Hf. simpl. lia.
Defined.

(** ** The armour of a hero *)

(** X11: damage to a hero that its armour covers, and any damage to an
    immune hero, only lowers the armour, to 0 at least: the health is
    untouched, no event is triggered and the hero does not die.  An immune
    hero loses its armour all the same. *)
Theorem armour_absorbs (call : fn → list val → M unit) (p : pid) (amount : Z)
    (attacker : val) (w : World.t) :
  amount ≤ Hero.armour (Player.hero (get_player p w)) ∨
  Character.immune (hero_base p w) = true →
  Hero_damage call p amount attacker w
  = Ok tt (with_armour p (Z.max 0 (Hero.armour (Player.hero (get_player p w)) - amount)) w).
Proof.
  intros Hcase. unfold Hero_damage, modify_player, modify. unfold and_then at 1.
  rewrite and_then_get.
  assert (Ha : Hero.armour (Player.hero (get_player p
                 (set_player p (Player.set_hero
                    (Hero.set_armour (Hero.armour (Player.hero (get_player p w)) - amount)
                       (Player.hero (get_player p w))) (get_player p w)) w)))
               = Hero.armour (Player.hero (get_player p w)) - amount)
    by (destruct p; reflexivity).
  rewrite Ha.
  destruct (Hero.armour (Player.hero (get_player p w)) - amount <? 0) eqn:Hneg.
  - apply Z.ltb_lt in Hneg. destruct Hcase as [Hle|Himm]; [lia|].
    rewrite Z.max_l by lia. cbn [when]. unfold and_then at 1.
    unfold Character_damage, get_character. unfold and_then at 1.
    replace (Character.immune _) with true; [by destruct p|].
    rewrite <- Himm. by destruct p.
  - apply Z.ltb_ge in Hneg. rewrite Z.max_r by lia. reflexivity.
Qed.

(** 3 damage on 5 armour leaves 2 armour. *)
Lemma armour_absorbs_witness :
  Hero_damage run_call P0 3 VNone armoured_hero = Ok tt (with_armour P0 2 armoured_hero).
Proof.
  rewrite (armour_absorbs run_call P0 3 VNone armoured_hero).
  - vm_compute. reflexivity.
  - left. vm_compute. discriminate.
Defined.

(** ** Frozen characters and the targets of an attack *)

Lemma modify_character_Ok (o : obj) (f : Character.t → Character.t) (w : World.t)
    (c : Character.t) :
  get_character o w = Ok c w →
  ∃ w', modify_character o f w = Ok tt w' ∧ get_character o w' = Ok (f c) w'.
Proof.
  intros Hc.
  destruct o as [|p|p|m|k]; simpl in Hc; try discriminate.
  - injection Hc as <-. exists (hero_update p f w). split; [reflexivity|].
    simpl. f_equal.
    change (hero_base p (hero_update p f w) = f (hero_base p w)).
    by rewrite hero_update_base, decide_True.
  - unfold and_then, get_minion in Hc.
    destruct (World.minions w !! m) as [x|] eqn:Hx; simpl in Hc; [|discriminate].
    injection Hc as <-. eexists. split; [by apply modify_minion_Ok|].
    simpl. erewrite and_then_step by (apply get_minion_Ok; simpl; apply lookup_insert_eq).
    reflexivity.
Qed.

(** X12: a character that was frozen cannot attack: [freeze] returns and
    sets both frozen flags, and an attack after it raises and changes
    nothing. *)
Theorem frozen_cannot_attack (call : fn → list val → M unit) (fuel : nat)
    (choose : pid → list obj → World.t → obj) (self : obj) (w : World.t) (c : Character.t) :
  get_character self w = Ok c w →
  ∃ w',
    freeze self w = Ok tt w' ∧
    get_character self w'
    = Ok (Character.set_frozen true (Character.set_frozen_this_turn true c)) w' ∧
    Character_attack call fuel choose self w'
    = Raise (GameException "That minion cannot attack") w'.
Proof.
  intros Hc.
  destruct (modify_character_Ok self (Character.set_frozen_this_turn true) w c Hc)
    as (w1 & Hrun1 & Hc1).
  destruct (modify_character_Ok self (Character.set_frozen true) w1 _ Hc1)
    as (w2 & Hrun2 & Hc2).
  exists w2. split; [|split; [exact Hc2|]].
  - unfold freeze. by step Hrun1.
  - unfold Character_attack. step (can_attack_value self w2 _ Hc2).
    simpl. rewrite andb_false_r. reflexivity.
Qed.

(** The wind-fury minion, once frozen, cannot attack. *)
Lemma frozen_cannot_attack_witness :
  ∃ w',
    freeze (OMinion 0) fury_board = Ok tt w' ∧
    Character_attack run_call 20 first_target (OMinion 0) w'
    = Raise (GameException "That minion cannot attack") w'.
Proof.
  destruct (frozen_cannot_attack run_call 20 first_target (OMinion 0) fury_board
              (the_minion 0 fury_board)) as (w' & Hrun & _ & Hraise).
  - vm_compute. reflexivity.
  - exists w'. split; [exact Hrun|exact Hraise].
Defined.

(** X13: the targets of an attack are never empty; each is the hero of the
    other player or a minion on the board of the other player that can be
    attacked (none is stealthed); and the hero is among them exactly when
    every taunted minion of the other player is stealthed. *)
Theorem attack_targets_offer (self : obj) (w : World.t) (c : Character.t) (p : pid) :
  get_character self w = Ok c w → Character.player c = Some p →
  (∀ m, m ∈ Player.minions (get_player (World.other_player w) w) →
        is_Some (World.minions w !! m)) →
  ∃ targets,
    attack_targets self w = Ok targets w ∧
    targets ≠ [] ∧
    (∀ o, o ∈ targets →
       o = OHero (World.other_player w) ∨
       ∃ m, o = OMinion m ∧
            m ∈ Player.minions (get_player (World.other_player w) w) ∧
            is_attackable w m = true) ∧
    (OHero (World.other_player w) ∈ targets ↔
     ∀ m, m ∈ Player.minions (get_player (World.other_player w) w) →
          has_taunt w m = true → is_attackable w m = false).
Proof.
  intros Hc Hp Hall. exists (legal_targets w).
  split; [by eapply attack_targets_legal|].
  unfold legal_targets.
  set (enemies := Player.minions (get_player (World.other_player w) w)).
  set (attackable := filter (λ m, is_attackable w m) enemies).
  assert (Hatt : ∀ m, m ∈ attackable ↔ m ∈ enemies ∧ is_attackable w m = true).
  { intros m. unfold attackable. rewrite list_elem_of_filter.
    split; [intros [Ha Hm]|intros [Hm Ha]].
    - split; [done|]. by destruct (is_attackable w m).
    - split; [by rewrite Ha|done]. }
  destruct (existsb (has_taunt w) attackable) eqn:Hex.
  - apply existsb_exists in Hex as (t & Ht & Htaunt).
    apply list_elem_of_In in Ht.
    assert (Hin : t ∈ filter (λ m, has_taunt w m) attackable).
    { apply list_elem_of_filter. rewrite Htaunt. done. }
    split; [|split].
    + intros Hnil. apply fmap_nil_inv in Hnil. rewrite Hnil in Hin.
      by apply elem_of_nil in Hin.
    + intros o Ho. apply list_elem_of_fmap in Ho as (m & -> & Hm).
      apply list_elem_of_filter in Hm as [_ Hm]. apply Hatt in Hm. right. eauto.
    + split.
      * intros Ho. apply list_elem_of_fmap in Ho as (m & Hm & _). discriminate.
      * intros Hnone. apply Hatt in Ht as [Hte Hta].
        specialize (Hnone t Hte Htaunt). congruence.
  - split; [|split].
    + intros Hnil. by apply app_eq_nil in Hnil as [_ ?].
    + intros o Ho. apply elem_of_app in Ho as [Ho|Ho].
      * apply list_elem_of_fmap in Ho as (m & -> & Hm). apply Hatt in Hm. right. eauto.
      * apply list_elem_of_singleton in Ho. by left.
    + split.
      * intros _ m Hm Htaunt.
        destruct (is_attackable w m) eqn:Ha; [|done].
        assert (Hex' : existsb (has_taunt w) attackable = true).
        { apply existsb_exists. exists m. split; [|done].
          apply list_elem_of_In. apply Hatt. done. }
        congruence.
      * intros _. apply elem_of_app. right. by apply list_elem_of_singleton.
Qed.

(** On the board of the taunt example there are targets and the hero is not
    one of them. *)
Lemma attack_targets_offer_witness :
  ∃ targets,
    attack_targets (OMinion 0) taunt_board = Ok targets taunt_board ∧
    targets ≠ [] ∧ OHero P1 ∉ targets.
Proof.
  destruct (attack_targets_offer (OMinion 0) taunt_board (the_minion 0 taunt_board) P0)
    as (targets & Hrun & Hne & _ & Hhero).
  - vm_compute. reflexivity.
  - vm_compute. reflexivity.
  - intros m Hm.
    assert (He : Player.minions (get_player (World.other_player taunt_board) taunt_board)
                 = [1%nat; 2%nat]) by (vm_compute; reflexivity).
    rewrite He in Hm. clear He.
    apply elem_of_cons in Hm as [-> | Hm]; [vm_compute; eexists; reflexivity|].
    apply elem_of_cons in Hm as [-> | Hm]; [vm_compute; eexists; reflexivity|].
    apply elem_of_nil in Hm. destruct Hm.
  - exists targets. split; [exact Hrun|]. split; [exact Hne|].
    intros Hin.
    assert (Hother : World.other_player taunt_board = P1) by (vm_compute; reflexivity).
    rewrite Hother in Hhero. pose proof (proj1 Hhero Hin 1%nat) as Hone.
    assert (Hfalse : is_attackable taunt_board 1 = false); [|vm_compute in Hfalse; discriminate].
    apply Hone.
    + vm_compute. left.
    + vm_compute. reflexivity.
Defined.

(** ** Healing and temporary attack *)

Lemma get_character_journal (o : obj) (c : Character.t) (t : list Ev) (w : World.t) :
  get_character o w = Ok c w →
  get_character o (World.set_trace t w) = Ok c (World.set_trace t w).
Proof.
  destruct o as [|p|p|m|k]; simpl; try discriminate.
  - intros [= <-]. by destruct p.
  - unfold and_then, get_minion. simpl.
    destruct (World.minions w !! m); simpl; [|discriminate].
    by intros [= <-].
Qed.

Lemma modify_character_events (o : obj) (f : Character.t → Character.t) (w w' : World.t) :
  modify_character o f w = Ok tt w' → World.events w' = World.events w.
Proof.
  destruct o as [|p|p|m|k]; simpl; try discriminate.
  - intros [= <-]. by destruct p.
  - intros Hm. by apply modify_minion_inv in Hm as (x & Hx & ->).
Qed.

(** X14: [heal] never leaves the health above the maximal health, whatever
    the handlers of "healed" do; with no handler bound to "healed" it
    returns and sets the health to the smaller of the maximal health and the
    old health plus the amount.  A negative amount lowers the health. *)
Theorem heal_clamps (call : fn → list val → M unit) (self : obj) (amount : Z)
    (w : World.t) (c : Character.t) :
  get_character self w = Ok c w →
  (∀ w', heal call self amount w = Ok tt w' →
     ∃ c', get_character self w' = Ok c' w' ∧
           Character.health c' ≤ Character.max_health c') ∧
  (∀ reg, World.events w !! self = Some reg → reg !! "healed" = None →
     ∃ w', heal call self amount w = Ok tt w' ∧
           get_character self w'
           = Ok (Character.set_health
                   (Z.min (Character.max_health c) (Character.health c + amount)) c) w').
Proof.
  intros Hc. split.
  - intros w' Hrun. unfold heal in Hrun.
    apply and_then_Ok in Hrun as (c0 & w0 & _ & Hrun).
    apply and_then_Ok in Hrun as ([] & w1 & _ & Hrun).
    apply and_then_Ok in Hrun as ([] & w2 & Hmod & Hrun).
    apply and_then_Ok in Hrun as (c2 & w3 & Hc2 & Hrun).
    pose proof (get_character_state _ _ _ _ Hc2) as ->.
    destruct (Character.max_health c2 <? Character.health c2) eqn:Hgt; cbn [when] in Hrun.
    + apply modify_character_get in Hrun as (c3 & Hc3 & Hc').
      eexists. split; [exact Hc'|]. simpl. lia.
    + injection Hrun as <-. exists c2. split; [exact Hc2|]. by apply Z.ltb_ge in Hgt.
  - intros reg Hreg Hnone. unfold heal. step Hc.
    step (trigger_absent call self "healed" [VInt amount] w reg Hreg Hnone).
    set (w1 := World.set_trace _ w).
    pose proof (get_character_journal self c (World.trace w1) w Hc) as Hc1. fold w1 in Hc1.
    destruct (modify_character_Ok self
                (λ c, Character.set_health (Character.health c + amount) c) w1 c Hc1)
      as (w2 & Hmod & Hc2).
    step Hmod. step Hc2. cbn [Character.max_health Character.health Character.set_health].
    destruct (Character.max_health c <? Character.health c + amount) eqn:Hgt; cbn [when].
    + apply Z.ltb_lt in Hgt. rewrite Z.min_l by lia.
      destruct (modify_character_Ok self
                  (λ c, Character.set_health (Character.max_health c) c) w2 _ Hc2)
        as (w3 & Hmod3 & Hc3).
      exists w3. split; [exact Hmod3|]. exact Hc3.
    + apply Z.ltb_ge in Hgt. rewrite Z.min_r by lia.
      exists w2. split; [reflexivity|exact Hc2].
Qed.

(** Healing the hero of a new game by 7 leaves it at 30 health. *)
Lemma heal_clamps_witness :
  ∃ w', heal run_call (OHero P0) 7 game = Ok tt w' ∧
        Character.health (hero_base P0 w') = 30.
Proof.
  destruct (heal_clamps run_call (OHero P0) 7 game (hero_base P0 game)) as [_ Hexact].
  - vm_compute. reflexivity.
  - destruct (Hexact (World.events game !!! OHero P0)) as (w' & Hrun & Hc').
    + vm_compute. reflexivity.
    + vm_compute. reflexivity.
    + exists w'. split; [exact Hrun|].
      simpl in Hc'. injection Hc' as Hc'. unfold hero_base. simpl. rewrite Hc'.
      vm_compute. reflexivity.
Defined.

(** X15: [turn_complete] never leaves a temporary attack above 0, whatever
    the handlers of "attack_decreased" do; and, with no handler bound, a
    temporary attack given by [increase_temp_attack] to a character that had
    none is gone after [turn_complete] if it was positive, and stays for
    good if it was negative. *)
Theorem temp_attack_expires (call : fn → list val → M unit) (self : obj) (amount : Z)
    (w : World.t) (c : Character.t) :
  get_character self w = Ok c w →
  (∀ w', turn_complete call self w = Ok tt w' →
     ∃ c', get_character self w' = Ok c' w' ∧ Character.temp_attack c' ≤ 0) ∧
  (∀ reg, Character.temp_attack c = 0 →
     World.events w !! self = Some reg →
     reg !! "attack_increased" = None → reg !! "attack_decreased" = None →
     ∃ w', (increase_temp_attack call self amount ;;; turn_complete call self) w = Ok tt w' ∧
           get_character self w'
           = Ok (if 0 <? amount then c else Character.set_temp_attack amount c) w').
Proof.
  intros Hc. split.
  - intros w' Hrun. unfold turn_complete in Hrun.
    rewrite (and_then_step _ _ _ _ _ Hc) in Hrun.
    destruct (0 <? Character.temp_attack c) eqn:Hpos; cbn [when] in Hrun.
    + apply and_then_Ok in Hrun as ([] & w1 & _ & Hrun).
      apply modify_character_get in Hrun as (c1 & _ & Hc').
      eexists. split; [exact Hc'|]. simpl. lia.
    + injection Hrun as <-. exists c. split; [exact Hc|]. by apply Z.ltb_ge in Hpos.
  - intros reg Htemp Hreg Hinc Hdec.
    unfold increase_temp_attack. unfold and_then at 1. unfold and_then at 1. rewrite Hc.
    unfold and_then at 1.
    rewrite (trigger_absent call self "attack_increased" [VInt amount] w reg Hreg Hinc).
    set (w1 := World.set_trace _ w).
    pose proof (get_character_journal self c (World.trace w1) w Hc) as Hc1. fold w1 in Hc1.
    destruct (modify_character_Ok self
                (λ c, Character.set_temp_attack (Character.temp_attack c + amount) c) w1 c Hc1)
      as (w2 & Hmod & Hc2).
    rewrite Hmod. rewrite Htemp, Z.add_0_l in Hc2.
    assert (Hreg2 : World.events w2 !! self = Some reg)
      by (rewrite (modify_character_events _ _ _ _ Hmod); exact Hreg).
    unfold turn_complete. step Hc2. cbn [Character.temp_attack Character.set_temp_attack].
    destruct (0 <? amount) eqn:Hpos; cbn [when].
    + step (trigger_absent call self "attack_decreased" [VInt amount] w2 reg Hreg2 Hdec).
      set (w3 := World.set_trace _ w2).
      pose proof (get_character_journal self _ (World.trace w3) w2 Hc2) as Hc3. fold w3 in Hc3.
      destruct (modify_character_Ok self (Character.set_temp_attack 0) w3 _ Hc3)
        as (w4 & Hmod4 & Hc4).
      exists w4. split; [exact Hmod4|]. rewrite Hc4. f_equal.
      destruct c; simpl in *; by subst.
    + exists w2. split; [reflexivity|exact Hc2].
Qed.

(** The wind-fury minion gets 2 temporary attack and is as before after the
    end of the turn. *)
Lemma temp_attack_expires_witness :
  ∃ w', (increase_temp_attack run_call (OMinion 0) 2 ;;; turn_complete run_call (OMinion 0))
          fury_board = Ok tt w' ∧
        get_character (OMinion 0) w' = Ok (the_minion 0 fury_board) w'.
Proof.
  destruct (temp_attack_expires run_call (OMinion 0) 2 fury_board (the_minion 0 fury_board))
    as [_ Hexact].
  - vm_compute. reflexivity.
  - apply (Hexact ∅).
    + vm_compute. reflexivity.
    + vm_compute. reflexivity.
    + vm_compute. reflexivity.
    + vm_compute. reflexivity.
Defined.

(** ** Drawing and putting back by a player *)

Lemma set_player_events (p : pid) (x : Player.t) (w : World.t) :
  World.events (set_player p x w) = World.events w.
Proof. destruct p; reflexivity. Qed.

Lemma get_player_journal (p : pid) (t : list Ev) (w : World.t) :
  get_player p (World.set_trace t w) = get_player p w.
Proof. destruct p; reflexivity. Qed.

Lemma draw_can_draw (random_func : Z → Z → Z) (d d' : Deck.t) (card : nat) :
  Deck.draw random_func d = Ok card d' → Deck.can_draw d = true.
Proof. unfold Deck.draw. destruct (Deck.can_draw d); [done|discriminate]. Qed.

Lemma py_remove_absent `{EqDecision A} (x : A) (l : list A) :
  x ∉ l → py_remove x l = None.
Proof.
  induction l as [|a l IH]; intros Hx; [reflexivity|].
  apply not_elem_of_cons in Hx as [Hne Hx]. simpl.
  rewrite decide_False by done. by rewrite IH.
Qed.

Lemma py_remove_present `{EqDecision A} (x : A) (l : list A) :
  x ∈ l → ∃ l', py_remove x l = Some l' ∧ length l = S (length l').
Proof.
  induction l as [|a l IH]; intros Hx; [by apply elem_of_nil in Hx|].
  simpl. destruct (decide (a = x)) as [->|Hne]; [eauto|].
  apply elem_of_cons in Hx as [->|Hx]; [done|].
  destruct (IH Hx) as (l' & -> & Hlen). eexists. split; [reflexivity|]. simpl. lia.
Qed.

(** The world after [Player.draw] has drawn [card] from the deck. *)
Lemma Player_draw_Ok (call : fn → list val → M unit) (fuel : nat)
    (random_func : World.t → Z → Z → Z) (p : pid) (w : World.t)
    (reg : gmap string (list nat)) (card : nat) (d' : Deck.t) :
  Deck.draw (random_func w) (Player.deck (get_player p w)) = Ok card d' →
  World.events w !! OPlayer p = Some reg →
  reg !! "card_drawn" = None → reg !! "card_destroyed" = None →
  ∃ w',
    Player_draw call fuel random_func p w = Ok tt w' ∧
    get_player p w'
    = Player.set_hand
        (if (length (Player.hand (get_player p w)) <? 10)%nat
         then Player.hand (get_player p w) ++ [card]
         else Player.hand (get_player p w))
        (Player.set_deck d' (get_player p w)) ∧
    World.events w' = World.events w ∧
    w' = set_player p (get_player p w') (World.set_trace (World.trace w') w) ∧
    World.trace w'
    = World.trace w ++ Triggered (OPlayer p) "card_drawn" [VRef (OCard card)]
        :: (if (length (Player.hand (get_player p w)) <? 10)%nat then []
            else [Triggered (OPlayer p) "card_destroyed" [VRef (OCard card)]]).
Proof.
  intros Hdraw Hreg Hdrawn Hdestroyed.
  unfold Player_draw. rewrite and_then_get.
  rewrite (draw_can_draw _ _ _ _ Hdraw).
  set (w1 := set_player p (Player.set_deck d' (get_player p w)) w).
  assert (Hdd : deck_draw random_func p w = Ok card w1)
    by (unfold deck_draw; by rewrite Hdraw).
  step Hdd.
  assert (Hreg1 : World.events w1 !! OPlayer p = Some reg)
    by (unfold w1; by rewrite set_player_events).
  step (trigger_absent call (OPlayer p) "card_drawn" [VRef (OCard card)] w1 reg Hreg1 Hdrawn).
  set (w2 := World.set_trace _ w1). rewrite and_then_get.
  assert (Hpl : get_player p w2 = Player.set_deck d' (get_player p w)).
  { unfold w2. rewrite get_player_journal. unfold w1. by rewrite get_set_player, decide_True. }
  rewrite Hpl. cbn [Player.hand Player.set_deck].
  destruct (length (Player.hand (get_player p w)) <? 10)%nat eqn:Hlen.
  - eexists. split; [reflexivity|]. unfold modify_player, modify. cbv beta.
    rewrite Hpl.
    split; [by rewrite get_set_player, decide_True|].
    split; [rewrite set_player_events; unfold w2, w1; simpl; by rewrite set_player_events|].
    split.
    + rewrite get_set_player, decide_True by done. rewrite set_player_trace.
      unfold w2, w1. destruct p, w; reflexivity.
    + rewrite set_player_trace. unfold w2, w1. simpl. by rewrite set_player_trace.
  - assert (Hreg2 : World.events w2 !! OPlayer p = Some reg) by exact Hreg1.
    rewrite (trigger_absent call (OPlayer p) "card_destroyed" [VRef (OCard card)] w2 reg
               Hreg2 Hdestroyed).
    eexists. split; [reflexivity|].
    split; [rewrite get_player_journal, Hpl; by destruct (get_player p w)|].
    split; [unfold w2, w1; simpl; by rewrite set_player_events|].
    split.
    + rewrite get_player_journal, Hpl. unfold w2, w1. destruct p, w; reflexivity.
    + unfold w2, w1. simpl. rewrite set_player_trace, <- app_assoc. reflexivity.
Qed.

(** X16: a draw from a deck that returns a card, with no handler bound to
    "card_drawn" and "card_destroyed", takes the card from the deck and
    puts it at the end of the hand if the hand holds fewer than 10 cards;
    otherwise the hand is as before, the card is gone from the deck all the
    same and "card_destroyed" is triggered.  A hand of at most 10 cards
    stays one. *)
Theorem draw_hand_cap (call : fn → list val → M unit) (fuel : nat)
    (random_func : World.t → Z → Z → Z) (p : pid) (w : World.t)
    (reg : gmap string (list nat)) (card : nat) (d' : Deck.t) :
  Deck.draw (random_func w) (Player.deck (get_player p w)) = Ok card d' →
  World.events w !! OPlayer p = Some reg →
  reg !! "card_drawn" = None → reg !! "card_destroyed" = None →
  ∃ w',
    Player_draw call fuel random_func p w = Ok tt w' ∧
    Player.deck (get_player p w') = d' ∧
    Player.hand (get_player p w')
    = (if (length (Player.hand (get_player p w)) <? 10)%nat
       then Player.hand (get_player p w) ++ [card]
       else Player.hand (get_player p w)) ∧
    ((length (Player.hand (get_player p w)) ≤ 10)%nat →
     (length (Player.hand (get_player p w')) ≤ 10)%nat) ∧
    ((10 ≤ length (Player.hand (get_player p w)))%nat →
     last (World.trace w') = Some (Triggered (OPlayer p) "card_destroyed" [VRef (OCard card)])).
Proof.
  intros Hdraw Hreg Hdrawn Hdestroyed.
  destruct (Player_draw_Ok call fuel random_func p w reg card d' Hdraw Hreg Hdrawn Hdestroyed)
    as (w' & Hrun & Hpl & _ & _ & Htr).
  exists w'. split; [exact Hrun|]. rewrite Hpl, Htr. cbn [Player.deck Player.hand Player.set_hand].
  split; [reflexivity|]. split; [reflexivity|].
  destruct (length (Player.hand (get_player p w)) <? 10)%nat eqn:Hlen.
  - apply Nat.ltb_lt in Hlen. split; [|lia].
    intros _. rewrite length_app. simpl. lia.
  - split; [done|]. intros _.
    rewrite (cons_middle _ (World.trace w) [_]), app_assoc. apply last_snoc.
Qed.

(** The first draw of player "one" with the lower bound as random source
    puts card 0 into the hand. *)
Lemma draw_hand_cap_witness :
  ∃ w',
    Player_draw run_call 20 lower_bound P0 game = Ok tt w' ∧
    Player.hand (get_player P0 w') = [0%nat].
Proof.
  destruct (draw_hand_cap run_call 20 lower_bound P0 game
              (World.events game !!! OPlayer P0) 0%nat
              (Deck.drawn (Deck.init (seq 0 30)) 0))
    as (w' & Hrun & _ & Hhand & _).
  - vm_compute. reflexivity.
  - vm_compute. reflexivity.
  - vm_compute. reflexivity.
  - vm_compute. reflexivity.
  - exists w'. split; [exact Hrun|]. rewrite Hhand. vm_compute. reflexivity.
Defined.

(** X17: a player that draws a card and puts it back is as before: the
    hand, the deck and everything else are restored, and the journal has
    the two events "card_drawn" and "card_put_back".  The deck holds 30
    different cards, the hand is not full and did not hold the card, and no
    handler is bound to the events. *)
Theorem player_draw_put_back (call : fn → list val → M unit) (fuel : nat)
    (random_func : World.t → Z → Z → Z) (p : pid) (w : World.t)
    (reg : gmap string (list nat)) (card : nat) (d' : Deck.t) :
  Deck.invariant (Player.deck (get_player p w)) → length (Deck.cards (Player.deck (get_player p w))) = 30%nat →
  NoDup (Deck.cards (Player.deck (get_player p w))) →
  0 ≤ random_func w 0 (Deck.left (Player.deck (get_player p w)) - 1) ≤ Deck.left (Player.deck (get_player p w)) - 1 →
  Deck.draw (random_func w) (Player.deck (get_player p w)) = Ok card d' →
  World.events w !! OPlayer p = Some reg →
  reg !! "card_drawn" = None → reg !! "card_destroyed" = None →
  reg !! "card_put_back" = None →
  (length (Player.hand (get_player p w)) < 10)%nat → card ∉ Player.hand (get_player p w) →
  ∃ w',
    (Player_draw call fuel random_func p ;;; Player_put_back call p card) w = Ok tt w' ∧
    w' = World.set_trace
           (World.trace w ++ [Triggered (OPlayer p) "card_drawn" [VRef (OCard card)];
                              Triggered (OPlayer p) "card_put_back" [VRef (OCard card)]]) w.
Proof.
  set (pl := get_player p w).
  intros Hinv Hcs Hnd Hidx Hdraw Hreg Hdrawn Hdestroyed Hback Hlen Hnew.
  destruct (Player_draw_Ok call fuel random_func p w reg card d' Hdraw Hreg Hdrawn Hdestroyed)
    as (w1 & Hrun & Hpl & Hev & Hw1 & Htr).
  fold pl in Hpl, Htr. apply Nat.ltb_lt in Hlen. rewrite Hlen in Hpl, Htr.
  step Hrun. unfold Player_put_back. rewrite and_then_get, Hpl.
  cbn [Player.hand Player.set_hand].
  rewrite (py_remove_middle card (Player.hand pl) [] Hnew), app_nil_r.
  unfold modify_player, modify. unfold and_then at 1. rewrite Hpl.
  set (w2 := set_player p _ w1).
  assert (Hpl2 : get_player p w2 = Player.set_deck d' pl).
  { unfold w2. rewrite get_set_player, decide_True by done. by destruct pl. }
  assert (Hput : deck_put_back p card w2 = Ok tt (set_player p pl w2)).
  { unfold deck_put_back. rewrite Hpl2. cbn [Player.deck Player.set_deck].
    assert (Hrestore : Deck.put_back card d' = Ok tt (Player.deck pl)).
    { destruct (DeckFacts.draw_at _ _ Hinv Hcs Hidx) as (s & c & Hs & _ & Hc & Hd).
      fold pl in Hd. rewrite Hd in Hdraw. injection Hdraw as <- <-.
      by apply DeckLaws.put_back_drawn. }
    rewrite Hrestore.
    f_equal. f_equal. by destruct pl. }
  step Hput.
  assert (Hreg3 : World.events (set_player p pl w2) !! OPlayer p = Some reg).
  { rewrite set_player_events. unfold w2. rewrite set_player_events, Hev. exact Hreg. }
  rewrite (trigger_absent call (OPlayer p) "card_put_back" [VRef (OCard card)] _ reg
             Hreg3 Hback).
  eexists. split; [reflexivity|].
  rewrite set_player_trace. unfold w2. rewrite set_player_trace, Htr, <- app_assoc.
  cbn [app]. rewrite Hw1. unfold pl. destruct p, w; reflexivity.
Qed.

(** Player "one" of the examples draws card 0 and puts it back. *)
Lemma player_draw_put_back_witness :
  ∃ w',
    (Player_draw run_call 20 lower_bound P0 ;;; Player_put_back run_call P0 0) game
    = Ok tt w' ∧
    get_player P0 w' = get_player P0 game.
Proof.
  assert (Hdeck : Player.deck (get_player P0 game) = Deck.init (seq 0 30))
    by (vm_compute; reflexivity).
  assert (Hhand : Player.hand (get_player P0 game) = []) by (vm_compute; reflexivity).
  destruct (player_draw_put_back run_call 20 lower_bound P0 game
              (World.events game !!! OPlayer P0) 0%nat
              (Deck.drawn (Deck.init (seq 0 30)) 0))
    as (w' & Hrun & Hw').
  - rewrite Hdeck. split; vm_compute; reflexivity.
  - rewrite Hdeck. vm_compute. reflexivity.
  - rewrite Hdeck. apply NoDup_seq.
  - rewrite Hdeck. unfold lower_bound. simpl. lia.
  - vm_compute. reflexivity.
  - vm_compute. reflexivity.
  - vm_compute. reflexivity.
  - vm_compute. reflexivity.
  - vm_compute. reflexivity.
  - rewrite Hhand. simpl. lia.
  - rewrite Hhand. apply not_elem_of_nil.
  - exists w'. split; [exact Hrun|]. rewrite Hw'. apply get_player_journal.
Defined.

(** X18: [Player.put_back] of a card that is not in the hand raises
    [ValueError] and changes nothing; of a card in the hand that is not a
    card of the deck, it raises the [GameException] of the deck after the
    card has left the hand: the player ends with one card less and the deck
    as it was. *)
Theorem put_back_errors (call : fn → list val → M unit) (p : pid) (card : nat)
    (w : World.t) :
  length (Deck.cards (Player.deck (get_player p w))) = 30%nat →
  (card ∉ Player.hand (get_player p w) →
   Player_put_back call p card w = Raise ValueError w) ∧
  (card ∈ Player.hand (get_player p w) →
   card ∉ Deck.cards (Player.deck (get_player p w)) →
   ∃ w',
     Player_put_back call p card w
     = Raise (GameException "Tried to put back a card that didn't come from this deck") w' ∧
     py_remove card (Player.hand (get_player p w)) = Some (Player.hand (get_player p w')) ∧
     length (Player.hand (get_player p w)) = S (length (Player.hand (get_player p w'))) ∧
     Player.deck (get_player p w') = Player.deck (get_player p w)).
Proof.
  intros Hcs. split.
  - intros Hout. unfold Player_put_back. rewrite and_then_get.
    by rewrite (py_remove_absent _ _ Hout).
  - intros Hin Hforeign.
    destruct (py_remove_present _ _ Hin) as (hand & Hrm & Hlen).
    unfold Player_put_back. rewrite and_then_get, Hrm.
    unfold modify_player, modify. unfold and_then at 1.
    set (w1 := set_player p _ w).
    assert (Hpl1 : get_player p w1 = Player.set_hand hand (get_player p w))
      by (unfold w1; by rewrite get_set_player, decide_True).
    unfold and_then at 1. unfold deck_put_back. rewrite Hpl1.
    cbn [Player.deck Player.set_hand]. unfold Deck.put_back.
    rewrite DeckFacts.put_back_loop_absent.
    + eexists. split; [reflexivity|].
      rewrite get_set_player, decide_True by done.
      cbn [Player.hand Player.deck Player.set_deck Player.set_hand].
      done.
    + rewrite Hcs. lia.
    + intros j c _ Hj ->. apply Hforeign. by eapply list_elem_of_lookup_2.
Qed.

(** Card 40 leaves the hand although the deck refuses it. *)
Lemma put_back_errors_witness :
  ∃ w',
    Player_put_back run_call P0 40 foreign_hand
    = Raise (GameException "Tried to put back a card that didn't come from this deck") w' ∧
    Player.hand (get_player P0 w') = [].
Proof.
  assert (Hdeck : Deck.cards (Player.deck (get_player P0 foreign_hand)) = seq 0 30)
    by (vm_compute; reflexivity).
  assert (Hhand : Player.hand (get_player P0 foreign_hand) = [40%nat])
    by (vm_compute; reflexivity).
  destruct (put_back_errors run_call P0 40 foreign_hand) as [_ Hforeign].
  - rewrite Hdeck. reflexivity.
  - destruct Hforeign as (w' & Hrun & Hrm & _).
    + rewrite Hhand. left.
    + rewrite Hdeck. intros Hin. apply elem_of_seq in Hin. lia.
    + exists w'. split; [exact Hrun|].
      rewrite Hhand in Hrm. simpl in Hrm. simpl. by injection Hrm as <-.
Defined.

(** ** Silence *)

Lemma modify_minion_step (m : nat) (f : Minion.t → Minion.t) (w : World.t) (x : Minion.t) :
  World.minions w !! m = Some x →
  ∃ w', modify_minion m f w = Ok tt w' ∧
        World.minions w' !! m = Some (f x) ∧
        (∀ m', m' ≠ m → World.minions w' !! m' = World.minions w !! m') ∧
        (∀ q, get_player q w' = get_player q w) ∧
        World.events w' = World.events w.
Proof.
  intros Hx. eexists. split; [by apply modify_minion_Ok|]. simpl.
  split; [apply lookup_insert_eq|].
  split; [intros m' Hne; by apply lookup_insert_ne|].
  split; [by intros []|reflexivity].
Qed.

Lemma modify_player_step (p : pid) (f : Player.t → Player.t) (w : World.t) :
  ∃ w', modify_player p f w = Ok tt w' ∧
        get_player p w' = f (get_player p w) ∧
        (∀ q, q ≠ p → get_player q w' = get_player q w) ∧
        World.minions w' = World.minions w ∧
        World.events w' = World.events w.
Proof.
  eexists. split; [reflexivity|].
  split; [by rewrite get_set_player, decide_True|].
  split; [intros q Hq; by rewrite get_set_player, decide_False|].
  split; [by destruct p|apply set_player_events].
Qed.

Lemma and_then_assoc {A B C} (m : M A) (k : A → M B) (k' : B → M C) (w : World.t) :
  and_then (and_then m k) k' w = and_then m (λ a, and_then (k a) k') w.
Proof. unfold and_then. by destruct (m w). Qed.

Lemma Minion_silence_Ok (call : fn → list val → M unit) (m : nat) (w : World.t)
    (x : Minion.t) (p : pid) (reg : gmap string (list nat)) :
  World.minions w !! m = Some x → Character.player (Minion.base x) = Some p →
  World.events w !! OMinion m = Some reg → reg !! "silenced" = None →
  ∃ w',
    Minion_silence call m w = Ok tt w' ∧
    World.minions w' !! m = Some (silenced x) ∧
    (∀ m', m' ≠ m → World.minions w' !! m' = World.minions w !! m') ∧
    get_player p w'
    = Player.set_spell_power (Player.spell_power (get_player p w) - Minion.spell_power x)
        (get_player p w) ∧
    (∀ q, q ≠ p → get_player q w' = get_player q w) ∧
    World.events w' = World.events w.
Proof.
  intros Hx Hp Hreg Hnone. unfold Minion_silence, journal, modify.
  unfold and_then at 1. set (w0 := World.set_trace _ w).
  assert (Hreg0 : World.events w0 !! OMinion m = Some reg) by exact Hreg.
  unfold Character_silence. rewrite and_then_assoc.
  step (trigger_absent call (OMinion m) "silenced" [] w0 reg Hreg0 Hnone).
  set (w1 := World.set_trace _ w0).
  assert (Hx1 : World.minions w1 !! m = Some x) by exact Hx.
  assert (Hq1 : ∀ q, get_player q w1 = get_player q w) by (by intros []).
  cbn [modify_character].
  epose proof (modify_minion_step m _ w1 x Hx1) as (w2 & Hr2 & Hx2 & Ho2 & Hq2 & He2).
  rewrite and_then_assoc. step Hr2.
  epose proof (modify_minion_step m _ w2 _ Hx2) as (w3 & Hr3 & Hx3 & Ho3 & Hq3 & He3).
  rewrite and_then_assoc. step Hr3.
  epose proof (modify_minion_step m _ w3 _ Hx3) as (w4 & Hr4 & Hx4 & Ho4 & Hq4 & He4).
  step Hr4.
  epose proof (modify_minion_step m _ w4 _ Hx4) as (w5 & Hr5 & Hx5 & Ho5 & Hq5 & He5).
  step Hr5.
  epose proof (modify_minion_step m _ w5 _ Hx5) as (w6 & Hr6 & Hx6 & Ho6 & Hq6 & He6).
  step Hr6.
  epose proof (modify_minion_step m _ w6 _ Hx6) as (w7 & Hr7 & Hx7 & Ho7 & Hq7 & He7).
  step Hr7.
  unfold minion_player. rewrite and_then_assoc. step (get_minion_Ok m w7 _ Hx7).
  cbn [Minion.base Minion.set_charge Minion.set_base Minion.set_taunt Character.player
       Character.set_stealth Character.set_frozen_this_turn Character.set_frozen
       Character.set_wind_fury].
  rewrite Hp. cbn [attribute]. unfold ret at 1. unfold and_then at 1.
  step (get_minion_Ok m w7 _ Hx7).
  epose proof (modify_player_step p _ w7) as (w8 & Hr8 & Hp8 & Hq8 & Hm8 & He8).
  step Hr8.
  assert (Hx8 : World.minions w8 !! m = Some _) by (rewrite Hm8; exact Hx7).
  epose proof (modify_minion_step m _ w8 _ Hx8) as (w9 & Hr9 & Hx9 & Ho9 & Hq9 & He9).
  step Hr9.
  epose proof (modify_minion_step m _ w9 _ Hx9) as (w10 & Hr10 & Hx10 & Ho10 & Hq10 & He10).
  step Hr10.
  epose proof (modify_minion_step m _ w10 _ Hx10) as (w11 & Hr11 & Hx11 & Ho11 & Hq11 & He11).
  step Hr11.
  epose proof (modify_minion_step m _ w11 _ Hx11) as (w12 & Hr12 & Hx12 & Ho12 & Hq12 & He12).
  exists w12. split; [exact Hr12|].
  split; [rewrite Hx12; f_equal; by destruct x as [[] ?]|].
  split.
  { intros m' Hne. rewrite Ho12, Ho11, Ho10, Ho9, Hm8, Ho7, Ho6, Ho5, Ho4, Ho3, Ho2 by done.
    reflexivity. }
  split.
  { rewrite Hq12, Hq11, Hq10, Hq9, Hp8, Hq7, Hq6, Hq5, Hq4, Hq3, Hq2, Hq1. reflexivity. }
  split.
  { intros q Hq. rewrite Hq12, Hq11, Hq10, Hq9, Hq8, Hq7, Hq6, Hq5, Hq4, Hq3, Hq2, Hq1 by done.
    reflexivity. }
  rewrite He12, He11, He10, He9, He8, He7, He6, He5, He4, He3, He2. reflexivity.
Qed.

(** X19: [Minion.silence] on a minion on a board, with no handler bound to
    "silenced", returns and leaves the minion with wind fury, the frozen
    flags, stealth, taunt, charge, spell power, divine shield, battlecry and
    deathrattle cleared and its attack, health and position as they were;
    its player loses the spell power of the minion.  A second silence
    changes no minion and no player: the spell power is not taken twice. *)
Theorem silence_twice (call : fn → list val → M unit) (m : nat) (w : World.t)
    (x : Minion.t) (p : pid) (reg : gmap string (list nat)) :
  World.minions w !! m = Some x → Character.player (Minion.base x) = Some p →
  World.events w !! OMinion m = Some reg → reg !! "silenced" = None →
  ∃ w',
    Minion_silence call m w = Ok tt w' ∧
    World.minions w' !! m = Some (silenced x) ∧
    Player.spell_power (get_player p w')
    = Player.spell_power (get_player p w) - Minion.spell_power x ∧
    ∃ w'',
      Minion_silence call m w' = Ok tt w'' ∧
      World.minions w'' = World.minions w' ∧
      ∀ q, get_player q w'' = get_player q w'.
Proof.
  intros Hx Hp Hreg Hnone.
  destruct (Minion_silence_Ok call m w x p reg Hx Hp Hreg Hnone)
    as (w' & Hrun & Hx' & _ & Hp' & _ & He').
  exists w'. split; [exact Hrun|]. split; [exact Hx'|].
  split; [by rewrite Hp'|].
  assert (Hreg' : World.events w' !! OMinion m = Some reg) by (by rewrite He').
  destruct (Minion_silence_Ok call m w' (silenced x) p reg Hx' Hp Hreg' Hnone)
    as (w'' & Hrun' & Hx'' & Ho'' & Hp'' & Hq'' & _).
  exists w''. split; [exact Hrun'|]. split.
  - apply map_eq. intros m'. destruct (decide (m' = m)) as [->|Hne].
    + by rewrite Hx'', Hx'.
    + by apply Ho''.
  - intros q. destruct (decide (q = p)) as [->|Hne]; [|by apply Hq''].
    rewrite Hp''. cbn [silenced Minion.spell_power]. rewrite Z.sub_0_r.
    by destruct (get_player p w').
Qed.

(** Silencing the minion with spell power 1 of the death example leaves its
    player with spell power 0. *)
Lemma silence_twice_witness :
  ∃ w',
    Minion_silence run_call 1 death_board = Ok tt w' ∧
    Player.spell_power (get_player P1 w') = 0.
Proof.
  destruct (silence_twice run_call 1 death_board
              (default (new_minion 0 0 0) (World.minions death_board !! 1%nat)) P1 ∅)
    as (w' & Hrun & _ & Hpower & _).
  - vm_compute. reflexivity.
  - vm_compute. reflexivity.
  - vm_compute. reflexivity.
  - vm_compute. reflexivity.
  - exists w'. split; [exact Hrun|]. rewrite Hpower. vm_compute. reflexivity.
Defined.

(** ** Secrets *)

Lemma get_card_Ok (c : nat) (w : World.t) (x : Card.t) :
  World.cards w !! c = Some x → get_card c w = Ok x w.
Proof. intros Hx. unfold get_card. by rewrite Hx. Qed.

Lemma secret_names_Ok (l : list nat) (w : World.t) :
  (∀ s, s ∈ l → is_Some (World.cards w !! s)) →
  ∃ names,
    secret_names l w = Ok names w ∧
    ∀ s x, s ∈ l → World.cards w !! s = Some x → Card.name x ∈ names.
Proof.
  induction l as [|s l IH]; intros Hall.
  - exists []. split; [reflexivity|]. intros s x Hs. by apply elem_of_nil in Hs.
  - destruct (Hall s ltac:(left)) as [x Hx].
    destruct IH as (names & Hrun & Hnames); [intros s' Hs'; apply Hall; by right|].
    exists (Card.name x :: names). split.
    + simpl. step (get_card_Ok s w x Hx). step Hrun. reflexivity.
    + intros s' x' Hs' Hx'. apply elem_of_cons in Hs' as [->|Hs'].
      * rewrite Hx in Hx'. injection Hx' as <-. left.
      * right. by eapply Hnames.
Qed.

(** The world after [SecretCard.use]. *)
Lemma SecretCard_use_Ok (choose : pid → list obj → World.t → obj) (card : nat) (p : pid)
    (w : World.t) (x : Card.t) :
  World.cards w !! card = Some x → Card.targetable x = false →
  SecretCard_use choose card p w
  = Ok tt (World.set_cards (<[card := Card.set_player (Some p) x]> (World.cards w))
             (set_player p
                (Player.set_secrets (Player.secrets (get_player p w) ++ [card])
                   (get_player p w)) w)).
Proof.
  intros Hx Htarget. unfold SecretCard_use, Card_use.
  rewrite and_then_assoc. step (get_card_Ok card w x Hx). rewrite Htarget.
  cbn [when]. unfold ret at 1. unfold and_then at 1.
  unfold modify_player, modify. unfold and_then at 1.
  unfold modify_card. erewrite and_then_step.
  2:{ apply get_card_Ok. destruct p; exact Hx. }
  cbv beta. unfold modify. f_equal. by destruct p.
Qed.

(** X20: [SecretCard.use] puts the card at the end of the secrets of the
    player and makes the player the owner of the card; after it no secret of
    the same name can be used by that player, the same card included:
    [can_use] returns [False] whatever the mana. *)
Theorem secret_not_twice (choose : pid → list obj → World.t → obj)
    (get_targets : nat → World.t → option (list obj))
    (card : nat) (p : pid) (w : World.t) (x : Card.t) :
  World.cards w !! card = Some x → Card.targetable x = false →
  (∀ s, s ∈ Player.secrets (get_player p w) → is_Some (World.cards w !! s)) →
  ∃ w',
    SecretCard_use choose card p w = Ok tt w' ∧
    Player.secrets (get_player p w') = Player.secrets (get_player p w) ++ [card] ∧
    Card.player <$> World.cards w' !! card = Some (Some p) ∧
    ∀ card' x',
      World.cards w' !! card' = Some x' → Card.kind x' = SecretCard →
      Card.targetable x' = false → Card.name x' = Card.name x →
      can_use get_targets card' p w' = Ok false w'.
Proof.
  intros Hx Htarget Hall. eexists. split; [by apply SecretCard_use_Ok|].
  set (w' := World.set_cards _ _).
  assert (Hsecrets : Player.secrets (get_player p w')
                     = Player.secrets (get_player p w) ++ [card]).
  { unfold w'. transitivity (Player.secrets (get_player p (set_player p
       (Player.set_secrets (Player.secrets (get_player p w) ++ [card]) (get_player p w)) w))).
    - by destruct p.
    - by rewrite get_set_player, decide_True. }
  assert (Hcard : World.cards w' !! card = Some (Card.set_player (Some p) x))
    by (unfold w'; simpl; apply lookup_insert_eq).
  split; [exact Hsecrets|]. split; [by rewrite Hcard|].
  intros card' x' Hx' Hkind Htarget' Hname.
  unfold can_use. step (get_card_Ok card' w' x' Hx'). rewrite Hkind.
  unfold SecretCard_can_use, Card_can_use.
  rewrite and_then_assoc. step (get_card_Ok card' w' x' Hx'). rewrite Htarget'.
  rewrite and_then_assoc. unfold ret at 1. unfold and_then at 1.
  rewrite and_then_assoc. unfold mana_cost. rewrite and_then_assoc.
  step (get_card_Ok card' w' x' Hx'). rewrite and_then_assoc, and_then_get.
  unfold ret at 1. unfold and_then at 1. rewrite and_then_assoc, and_then_get.
  unfold ret at 1. unfold and_then at 1.
  destruct (_ <=? _); [|reflexivity].
  step (get_card_Ok card' w' x' Hx'). rewrite and_then_get.
  destruct (secret_names_Ok (Player.secrets (get_player p w')) w') as (names & Hrun & Hnames).
  { intros s Hs. rewrite Hsecrets in Hs. unfold w'. cbn [World.cards World.set_cards].
    destruct (decide (s = card)) as [->|Hne].
    - rewrite lookup_insert_eq. eauto.
    - rewrite lookup_insert_ne by done.
      apply elem_of_app in Hs as [Hs|Hs]; [by apply Hall|].
      by apply list_elem_of_singleton in Hs. }
  step Hrun. unfold ret. f_equal. apply bool_decide_eq_false. intros Hnot. apply Hnot.
  rewrite Hname.
  apply (Hnames card (Card.set_player (Some p) x)); [|exact Hcard].
  rewrite Hsecrets. apply elem_of_app. right. by apply list_elem_of_singleton.
Qed.

(** The secret of the secret example cannot be used a second time. *)
Lemma secret_not_twice_witness :
  ∃ w',
    SecretCard_use first_target 8 P0 secret_board = Ok tt w' ∧
    can_use no_targets 8 P0 w' = Ok false w'.
Proof.
  destruct (secret_not_twice first_target no_targets 8 P0 secret_board
              (Card.mk "Trap" 2 false false None None SecretCard None))
    as (w' & Hrun & _ & Hplayer & Htwice).
  - vm_compute. reflexivity.
  - reflexivity.
  - intros s Hs.
    assert (He : Player.secrets (get_player P0 secret_board) = []) by (vm_compute; reflexivity).
    rewrite He in Hs. by apply elem_of_nil in Hs.
  - exists w'. split; [exact Hrun|].
    destruct (World.cards w' !! 8%nat) as [x'|] eqn:Hx'; [|discriminate].
    apply (Htwice 8%nat x' Hx').
    + injection Hrun as <-. vm_compute in Hx'. by injection Hx' as <-.
    + injection Hrun as <-. vm_compute in Hx'. by injection Hx' as <-.
    + injection Hrun as <-. vm_compute in Hx'. by injection Hx' as <-.
Defined.

(** X21: [SecretCard.reveal] of a secret that was never used raises
    [AttributeError] and changes nothing; after [SecretCard.use], with no
    handler bound to "secret_revealed", it triggers that event on the
    player and takes the secret out of play again: the secrets of the
    player are as before the use. *)
Theorem reveal_after_use (call : fn → list val → M unit)
    (choose : pid → list obj → World.t → obj)
    (card : nat) (p : pid) (w : World.t) (x : Card.t) (reg : gmap string (list nat)) :
  World.cards w !! card = Some x → Card.targetable x = false →
  card ∉ Player.secrets (get_player p w) →
  World.events w !! OPlayer p = Some reg → reg !! "secret_revealed" = None →
  (Card.player x = None → reveal call card w = Raise AttributeError w) ∧
  ∃ w',
    (SecretCard_use choose card p ;;; reveal call card) w = Ok tt w' ∧
    Player.secrets (get_player p w') = Player.secrets (get_player p w) ∧
    last (World.trace w') = Some (Triggered (OPlayer p) "secret_revealed" [VRef (OCard card)]).
Proof.
  intros Hx Htarget Hnew Hreg Hnone. split.
  - intros Hplayer. unfold reveal. step (get_card_Ok card w x Hx). by rewrite Hplayer.
  - step (SecretCard_use_Ok choose card p w x Hx Htarget).
    set (w1 := World.set_cards _ _).
    assert (Hx1 : World.cards w1 !! card = Some (Card.set_player (Some p) x))
      by (unfold w1; simpl; apply lookup_insert_eq).
    assert (Hreg1 : World.events w1 !! OPlayer p = Some reg).
    { unfold w1. cbn [World.events World.set_cards]. by rewrite set_player_events. }
    assert (Hpl1 : get_player p w1
                   = Player.set_secrets (Player.secrets (get_player p w) ++ [card])
                       (get_player p w)).
    { unfold w1. transitivity (get_player p (set_player p
         (Player.set_secrets (Player.secrets (get_player p w) ++ [card]) (get_player p w)) w)).
      - by destruct p.
      - by rewrite get_set_player, decide_True. }
    unfold reveal. step (get_card_Ok card w1 _ Hx1).
    cbn [Card.player Card.set_player attribute]. unfold ret at 1. unfold and_then at 1.
    step (trigger_absent call (OPlayer p) "secret_revealed" [VRef (OCard card)] w1 reg
            Hreg1 Hnone).
    set (w2 := World.set_trace _ w1).
    assert (Hx2 : World.cards w2 !! card = Some (Card.set_player (Some p) x)) by exact Hx1.
    step (get_card_Ok card w2 _ Hx2).
    cbn [Card.player Card.set_player attribute]. unfold ret at 1. unfold and_then at 1.
    rewrite and_then_get. unfold w2 at 1. rewrite get_player_journal, Hpl1.
    cbn [Player.secrets Player.set_secrets].
    rewrite (py_remove_middle card (Player.secrets (get_player p w)) [] Hnew), app_nil_r.
    eexists. split; [reflexivity|]. split.
    + rewrite get_set_player, decide_True by done. reflexivity.
    + rewrite set_player_trace. unfold w2. cbn [World.trace World.set_trace].
      apply last_snoc.
Qed.

(** The secret of the secret example is used and revealed. *)
Lemma reveal_after_use_witness :
  ∃ w',
    (SecretCard_use first_target 8 P0 ;;; reveal run_call 8) secret_board = Ok tt w' ∧
    Player.secrets (get_player P0 w') = [].
Proof.
  destruct (reveal_after_use run_call first_target 8 P0 secret_board
              (Card.mk "Trap" 2 false false None None SecretCard None)
              (World.events secret_board !!! OPlayer P0))
    as (_ & w' & Hrun & Hsecrets & _).
  - vm_compute. reflexivity.
  - reflexivity.
  - assert (He : Player.secrets (get_player P0 secret_board) = []) by (vm_compute; reflexivity).
    rewrite He. apply not_elem_of_nil.
  - vm_compute. reflexivity.
  - vm_compute. reflexivity.
  - exists w'. split; [exact Hrun|]. rewrite Hsecrets. vm_compute. reflexivity.
Defined.

(** ** The start of a turn *)

(** X22: [Game._start_turn], when the player whose turn ends has no secret
    and the player whose turn starts has a deck with a card left and no
    handler bound to "turn_started", "card_drawn" and "card_destroyed",
    returns: the players have changed places, the maximal mana of the new
    current player has grown by 1 unless it was 10 or more, its mana is its
    maximal mana, and it has drawn a card of its deck, which is in its hand
    if the hand held fewer than 10 cards. *)
Theorem start_turn_refills (call : fn → list val → M unit) (fuel : nat)
    (random_func : World.t → Z → Z → Z) (w : World.t) (reg : gmap string (list nat)) :
  (0 < fuel)%nat → (∀ v, Deck.in_range (random_func v)) →
  Player.secrets (get_player (World.current_player w) w) = [] →
  World.events w !! OPlayer (next_player w) = Some reg →
  reg !! "turn_started" = None → reg !! "card_drawn" = None →
  reg !! "card_destroyed" = None →
  Deck.invariant (Player.deck (get_player (next_player w) w)) →
  length (Deck.cards (Player.deck (get_player (next_player w) w))) = 30%nat →
  0 < Deck.left (Player.deck (get_player (next_player w) w)) →
  ∃ w' card,
    _start_turn call fuel random_func w = Ok tt w' ∧
    World.current_player w' = next_player w ∧
    World.other_player w' = World.current_player w ∧
    Player.max_mana (get_player (next_player w) w')
    = (if Player.max_mana (get_player (next_player w) w) <? 10
       then Player.max_mana (get_player (next_player w) w) + 1
       else Player.max_mana (get_player (next_player w) w)) ∧
    Player.mana (get_player (next_player w) w')
    = Player.max_mana (get_player (next_player w) w') ∧
    card ∈ Deck.cards (Player.deck (get_player (next_player w) w)) ∧
    Player.hand (get_player (next_player w) w')
    = (if (length (Player.hand (get_player (next_player w) w)) <? 10)%nat
       then Player.hand (get_player (next_player w) w) ++ [card]
       else Player.hand (get_player (next_player w) w)) ∧
    Deck.left (Player.deck (get_player (next_player w) w'))
    = Deck.left (Player.deck (get_player (next_player w) w)) - 1.
Proof.
  intros Hfuel Hrange Hsecrets Hreg Hstarted Hdrawn Hdestroyed Hinv Hcs Hleft.
  set (q := next_player w) in *.
  destruct fuel as [|n]; [lia|].
  set (w1 := World.set_other_player (World.current_player w) (World.set_current_player q w)).
  assert (Hswap : (if decide (World.current_player w = P0)
                   then modify (World.set_current_player P1) ;;; modify (World.set_other_player P0)
                   else modify (World.set_current_player P0) ;;; modify (World.set_other_player P1))
                    w = Ok tt w1).
  { unfold w1, q, next_player.
    destruct (World.current_player w) eqn:Hcur; reflexivity. }
  assert (Hpl1 : ∀ r, get_player r w1 = get_player r w) by (by intros []).
  set (mm := if Player.max_mana (get_player q w) <? 10
             then Player.max_mana (get_player q w) + 1 else Player.max_mana (get_player q w)).
  set (w3 := set_player q (Player.set_mana mm (Player.set_max_mana mm (get_player q w))) w1).
  assert (Hq3 : get_player q w3 = Player.set_mana mm (Player.set_max_mana mm (get_player q w)))
    by (unfold w3; by rewrite get_set_player, decide_True).
  assert (Hreg3 : World.events w3 !! OPlayer q = Some reg)
    by (unfold w3; rewrite set_player_events; exact Hreg).
  set (w4 := World.set_trace (World.trace w3 ++ [Triggered (OPlayer q) "turn_started" []]) w3).
  assert (Hq4 : get_player q w4 = Player.set_mana mm (Player.set_max_mana mm (get_player q w)))
    by (unfold w4; by rewrite get_player_journal).
  assert (Hprefix :
    (_start_turn call (S n) random_func) w
    = Player_draw call (S n) random_func q w4).
  { unfold _start_turn. rewrite and_then_get. step Hswap.
    rewrite and_then_get.
    assert (Hc1 : World.current_player w1 = q) by reflexivity.
    assert (Ho1 : World.other_player w1 = World.current_player w) by reflexivity.
    rewrite Hc1, Hpl1.
    set (w2 := set_player q (Player.set_max_mana mm (get_player q w)) w1).
    assert (Hmax : when (Player.max_mana (get_player q w) <? 10)
                     (modify_player q (λ pl, Player.set_max_mana (Player.max_mana pl + 1) pl)) w1
                   = Ok tt w2).
    { unfold w2, mm. destruct (Player.max_mana (get_player q w) <? 10); cbn [when].
      - unfold modify_player, modify. by rewrite Hpl1.
      - unfold ret. f_equal. rewrite <- (Hpl1 q). destruct q, w1; simpl.
        + by destruct players_0.
        + by destruct players_1. }
    step Hmax. rewrite and_then_get.
    assert (Ho2 : World.other_player w2 = World.current_player w)
      by (unfold w2; destruct q; reflexivity).
    assert (Hc2 : World.current_player w2 = q) by (unfold w2; apply set_player_current).
    rewrite Ho2. cbn [activate_loop]. rewrite and_then_assoc, and_then_get.
    assert (Hs2 : Player.secrets (get_player (World.current_player w) w2) = []).
    { unfold w2. rewrite get_set_player.
      destruct (decide (World.current_player w = q)) as [Heq|Hne].
      - cbn [Player.secrets Player.set_max_mana]. rewrite <- Heq. exact Hsecrets.
      - by rewrite Hpl1. }
    rewrite Hs2, lookup_nil. unfold ret at 1. unfold and_then at 1.
    rewrite and_then_get, Hc2.
    assert (Hmana : modify_player q (λ pl, Player.set_mana (Player.max_mana pl) pl) w2
                    = Ok tt w3).
    { unfold modify_player, modify, w3, w2. rewrite get_set_player, decide_True by done.
      f_equal. destruct q; reflexivity. }
    step Hmana. rewrite and_then_get.
    assert (Hc3 : World.current_player w3 = q) by (unfold w3; apply set_player_current).
    rewrite Hc3.
    step (trigger_absent call (OPlayer q) "turn_started" [] w3 reg Hreg3 Hstarted).
    rewrite and_then_get. fold w4.
    change (World.current_player w4) with (World.current_player w3).
    by rewrite Hc3. }
  rewrite Hprefix.
  assert (Hdeck : Player.deck (get_player q w4) = Player.deck (get_player q w))
    by (by rewrite Hq4).
  destruct (DeckFacts.draw_at (random_func w4) (Player.deck (get_player q w)) Hinv Hcs)
    as (s & card & Hs & _ & Hcard & Hdraw); [apply Hrange; lia|].
  rewrite <- Hdeck in Hdraw.
  assert (Hreg4 : World.events w4 !! OPlayer q = Some reg) by exact Hreg3.
  destruct (Player_draw_Ok call (S n) random_func q w4 reg card _ Hdraw Hreg4 Hdrawn Hdestroyed)
    as (w' & Hrun & Hq' & _ & Hw' & _).
  exists w', card. split; [exact Hrun|].
  rewrite Hq', Hq4. cbn [Player.max_mana Player.mana Player.hand Player.deck
                         Player.set_hand Player.set_deck Player.set_mana Player.set_max_mana].
  split.
  { rewrite Hw', set_player_current. unfold w4, w3. cbn [World.current_player World.set_trace].
    by rewrite set_player_current. }
  split.
  { rewrite Hw'. unfold w4, w3, w1. clear. by destruct q. }
  split; [reflexivity|]. split; [reflexivity|].
  split; [by eapply list_elem_of_lookup_2|].
  split; reflexivity.
Qed.

(** The first turn of the game of the examples: player "two" starts with 1
    mana. *)
Lemma start_turn_refills_witness :
  ∃ w',
    _start_turn run_call 20 lower_bound game = Ok tt w' ∧
    World.current_player w' = P1 ∧
    Player.mana (get_player P1 w') = 1.
Proof.
  assert (Hdeck : Player.deck (get_player (next_player game) game) = Deck.init (seq 0 30))
    by (vm_compute; reflexivity).
  destruct (start_turn_refills run_call 20 lower_bound game
              (World.events game !!! OPlayer P1))
    as (w' & card & Hrun & Hcur & _ & Hmax & Hmana & _).
  - lia.
  - intros v a b Hab. unfold lower_bound. lia.
  - vm_compute. reflexivity.
  - vm_compute. reflexivity.
  - vm_compute. reflexivity.
  - vm_compute. reflexivity.
  - vm_compute. reflexivity.
  - rewrite Hdeck. split; vm_compute; reflexivity.
  - rewrite Hdeck. vm_compute. reflexivity.
  - rewrite Hdeck. vm_compute. reflexivity.
  - exists w'. split; [exact Hrun|]. split; [exact Hcur|].
    change (next_player game) with P1 in Hmana, Hmax.
    rewrite Hmana, Hmax. vm_compute. reflexivity.
Defined.

(** ** Playing a spell *)

Lemma can_use_spell (get_targets : nat → World.t → option (list obj)) (card : nat) (p : pid)
    (w : World.t) (x : Card.t) :
  World.cards w !! card = Some x → Card.kind x = Spell → Card.targetable x = false →
  can_use get_targets card p w
  = Ok (mana_cost_loop x (Player.mana_filters (get_player p w)) (Card.mana x)
        <=? Player.mana (get_player p w)) w.
Proof.
  intros Hx Hkind Htarget. unfold can_use. step (get_card_Ok card w x Hx). rewrite Hkind.
  unfold Card_can_use. step (get_card_Ok card w x Hx). rewrite Htarget.
  unfold ret at 1. unfold and_then at 1.
  unfold mana_cost. rewrite and_then_assoc. step (get_card_Ok card w x Hx).
  reflexivity.
Qed.

Lemma get_list_Ok (r : nat) (w : World.t) (l : list val) :
  World.lists w !! r = Some l → get_list r w = Ok l w.
Proof. intros Hl. unfold get_list. by rewrite Hl. Qed.

(** X23: [Game.play_card] of a spell without target that is in the hand of
    the current player and that the player can pay, with no handler bound to
    "card_played", "spell_cast" and "card_used", a spell effect that changes
    nothing and no delayed minion: it returns, the card has left the hand,
    the mana is lowered by the mana cost, and the events are "card_played",
    "spell_cast", the use of the card and "card_used", in that order. *)
Theorem play_spell (call : fn → list val → M unit) (fuel : nat)
    (choose_target : pid → list obj → World.t → obj)
    (choose_index : pid → nat → World.t → Z)
    (get_targets : nat → World.t → option (list obj))
    (create_minion : nat → pid → M nat)
    (card : nat) (w : World.t) (x : Card.t) (reg : gmap string (list nat)) :
  World.game_ended w = false →
  World.cards w !! card = Some x →
  Card.kind x = Spell → Card.targetable x = false → Card.cancel x = false →
  card ∈ Player.hand (get_player (World.current_player w) w) →
  mana_cost_loop x (Player.mana_filters (get_player (World.current_player w) w)) (Card.mana x)
  ≤ Player.mana (get_player (World.current_player w) w) →
  World.events w !! OPlayer (World.current_player w) = Some reg →
  reg !! "card_played" = None → reg !! "spell_cast" = None → reg !! "card_used" = None →
  (∀ v, call (Subclass_use card) [VRef (OPlayer (World.current_player w))] v = Ok tt v) →
  (0 < fuel)%nat → World.lists w !! World.delayed_minions w = Some [] →
  ∃ w',
    play_card call fuel choose_target choose_index get_targets create_minion card w
    = Ok tt w' ∧
    py_remove card (Player.hand (get_player (World.current_player w) w))
    = Some (Player.hand (get_player (World.current_player w) w')) ∧
    Player.mana (get_player (World.current_player w) w')
    = Player.mana (get_player (World.current_player w) w)
      - mana_cost_loop x (Player.mana_filters (get_player (World.current_player w) w))
          (Card.mana x) ∧
    World.trace w'
    = World.trace w
      ++ [Triggered (OPlayer (World.current_player w)) "card_played" [VRef (OCard card)];
          Triggered (OPlayer (World.current_player w)) "spell_cast" [VRef (OCard card)];
          Entered "use" (OCard card);
          Triggered (OPlayer (World.current_player w)) "card_used" [VRef (OCard card)]].
Proof.
  intros Hended Hx Hkind Htarget Hcancel Hin Hcost Hreg Hplayed Hcast Hused Hspell Hfuel Hlist.
  set (p := World.current_player w) in *.
  set (pl := get_player p w) in *.
  set (cost := mana_cost_loop x (Player.mana_filters pl) (Card.mana x)) in *.
  destruct (py_remove_present _ _ Hin) as (hand & Hrm & _). rewrite Hrm.
  destruct fuel as [|n]; [lia|].
  unfold play_card. rewrite and_then_get, Hended. fold p.
  step (can_use_spell get_targets card p w x Hx Hkind Htarget). fold pl. fold cost.
  rewrite (proj2 (Z.leb_le _ _) Hcost). cbn [negb].
  rewrite and_then_get. fold p.
  step (trigger_absent call (OPlayer p) "card_played" [VRef (OCard card)] w reg Hreg Hplayed).
  set (wa := World.set_trace _ w).
  assert (Hpa : World.current_player wa = p) by reflexivity.
  assert (Hpla : get_player p wa = pl) by apply get_player_journal.
  rewrite and_then_get, Hpa, Hpla, Hrm.
  unfold modify_player at 1. unfold modify at 1. unfold and_then at 1. rewrite Hpla.
  set (wb := set_player p (Player.set_hand hand pl) wa).
  assert (Hpb : World.current_player wb = p) by (unfold wb; by rewrite set_player_current).
  assert (Hplb : get_player p wb = Player.set_hand hand pl)
    by (unfold wb; by rewrite get_set_player, decide_True).
  assert (Hxb : World.cards wb !! card = Some x) by (unfold wb; by destruct p).
  assert (Hregb : World.events wb !! OPlayer p = Some reg)
    by (unfold wb; by rewrite set_player_events).
  assert (Hlb : World.lists wb !! World.delayed_minions wb = Some [])
    by (unfold wb; by destruct p).
  rewrite and_then_get, Hpb.
  step (can_use_spell get_targets card p wb x Hxb Hkind Htarget). rewrite Hplb.
  cbn [Player.mana_filters Player.mana Player.set_hand]. fold cost.
  rewrite (proj2 (Z.leb_le _ _) Hcost).
  rewrite and_then_get, Hpb.
  unfold mana_cost. rewrite and_then_assoc. step (get_card_Ok card wb x Hxb).
  rewrite and_then_assoc, and_then_get. unfold ret at 1. unfold and_then at 1.
  rewrite Hplb. cbn [Player.mana_filters Player.set_hand]. fold cost.
  unfold modify_player at 1. unfold modify at 1. unfold and_then at 1. rewrite Hplb.
  set (wc := set_player p _ wb).
  assert (Hpc : World.current_player wc = p) by (unfold wc; by rewrite set_player_current).
  assert (Hplc : get_player p wc
                 = Player.set_mana (Player.mana pl - cost) (Player.set_hand hand pl))
    by (unfold wc; by rewrite get_set_player, decide_True).
  assert (Hxc : World.cards wc !! card = Some x) by (unfold wc; by destruct p).
  assert (Hregc : World.events wc !! OPlayer p = Some reg)
    by (unfold wc; by rewrite set_player_events).
  assert (Hlc : World.lists wc !! World.delayed_minions wc = Some [])
    by (unfold wc; by destruct p).
  step (get_card_Ok card wc x Hxc).
  assert (Hspell_card : is_spell x = true) by (unfold is_spell; by rewrite Hkind).
  rewrite Hspell_card. cbn [when]. rewrite and_then_assoc, and_then_get, Hpc.
  step (trigger_absent call (OPlayer p) "spell_cast" [VRef (OCard card)] wc reg Hregc Hcast).
  set (wd := World.set_trace _ wc).
  assert (Hxd : World.cards wd !! card = Some x) by exact Hxc.
  step (get_card_Ok card wd x Hxd). rewrite Hcancel. cbn [negb when].
  rewrite and_then_get. change (World.current_player wd) with (World.current_player wc).
  rewrite Hpc.
  unfold use, journal. unfold modify at 1. rewrite and_then_assoc. unfold and_then at 1.
  set (we := World.set_trace _ wd).
  assert (Hxe : World.cards we !! card = Some x) by exact Hxc.
  rewrite and_then_assoc. step (get_card_Ok card we x Hxe). rewrite Hkind.
  unfold Card_use. rewrite !and_then_assoc. step (get_card_Ok card we x Hxe).
  rewrite Htarget. cbn [when]. unfold ret at 1. unfold and_then at 1.
  step (Hspell we).
  rewrite and_then_get. change (World.current_player we) with (World.current_player wc).
  rewrite Hpc.
  assert (Hrege : World.events we !! OPlayer p = Some reg) by exact Hregc.
  step (trigger_absent call (OPlayer p) "card_used" [VRef (OCard card)] we reg Hrege Hused).
  set (wf := World.set_trace _ we).
  rewrite and_then_get. cbn [delayed_minions_loop].
  assert (Hlf : World.lists wf !! World.delayed_minions wf = Some []) by exact Hlc.
  rewrite !and_then_assoc. step (get_list_Ok _ wf [] Hlf). rewrite lookup_nil.
  unfold ret at 1. unfold and_then at 1.
  eexists. split; [reflexivity|].
  cbn [new_list modify World.trace World.set_trace World.set_delayed_minions
       World.set_next_list World.set_lists].
  split; [|split].
  - f_equal. symmetry. change (Player.hand (get_player p wc) = hand). by rewrite Hplc.
  - change (Player.mana (get_player p wc) = Player.mana pl - cost). by rewrite Hplc.
  - unfold wf, we, wd. cbn [World.trace World.set_trace].
    unfold wc. rewrite set_player_trace. unfold wb. rewrite set_player_trace.
    unfold wa. cbn [World.trace World.set_trace].
    rewrite <- !app_assoc. reflexivity.
Qed.

(** Playing the spell of the spell example leaves an empty hand and 2
    mana. *)
Lemma play_spell_witness :
  ∃ w',
    play_card run_call 20 first_target end_of_board no_targets no_minion 7 spell_board
    = Ok tt w' ∧
    Player.hand (get_player P0 w') = [] ∧
    Player.mana (get_player P0 w') = 2.
Proof.
  assert (Hcur : World.current_player spell_board = P0) by (vm_compute; reflexivity).
  destruct (play_spell run_call 20 first_target end_of_board no_targets no_minion 7
              spell_board (Card.mk "Spell" 3 false false None None Spell None)
              (World.events spell_board !!! OPlayer P0))
    as (w' & Hrun & Hhand & Hmana & _).
  - vm_compute. reflexivity.
  - vm_compute. reflexivity.
  - reflexivity.
  - reflexivity.
  - reflexivity.
  - vm_compute. left.
  - vm_compute. discriminate.
  - vm_compute. reflexivity.
  - vm_compute. reflexivity.
  - vm_compute. reflexivity.
  - vm_compute. reflexivity.
  - intros v. reflexivity.
  - lia.
  - vm_compute. reflexivity.
  - exists w'. split; [exact Hrun|]. rewrite Hcur in Hhand, Hmana. split.
    + assert (Hh : py_remove 7%nat (Player.hand (get_player P0 spell_board)) = Some [])
        by (vm_compute; reflexivity).
      rewrite Hh in Hhand. injection Hhand as Hhand. symmetry. exact Hhand.
    + rewrite Hmana. vm_compute. reflexivity.
Defined.

(** ** The positions on a board *)

(** The loop of [add_to_board] over the board. *)
Lemma for_each_shift (index : Z) (l : list nat) :
  NoDup l → ∀ w,
  (∀ o, o ∈ l → is_Some (World.minions w !! o)) →
  ∃ w',
    for_each l
      (λ other,
         let! y := get_minion other in
         when (index <=? Minion.index y)
           (modify_minion other (Minion.set_index (Minion.index y + 1)))) w = Ok tt w' ∧
    w' = World.set_minions (World.minions w') w ∧
    (∀ o, o ∈ l →
       World.minions w' !! o
       = (λ y, if index <=? Minion.index y then Minion.set_index (Minion.index y + 1) y else y)
           <$> World.minions w !! o) ∧
    (∀ o, o ∉ l → World.minions w' !! o = World.minions w !! o).
Proof.
  induction 1 as [|a l Ha Hl IH]; intros w Hall.
  - exists w. split; [reflexivity|]. split; [by destruct w|].
    split; [|done]. intros o Ho. by apply elem_of_nil in Ho.
  - destruct (Hall a ltac:(left)) as [y Hy].
    cbn [for_each]. rewrite and_then_assoc. step (get_minion_Ok a w y Hy).
    set (y' := if index <=? Minion.index y then Minion.set_index (Minion.index y + 1) y else y).
    set (w1 := World.set_minions (<[a := y']> (World.minions w)) w).
    assert (Hstep : when (index <=? Minion.index y)
                      (modify_minion a (Minion.set_index (Minion.index y + 1))) w
                    = Ok tt w1 ∨
                    (when (index <=? Minion.index y)
                      (modify_minion a (Minion.set_index (Minion.index y + 1))) w
                    = Ok tt w ∧ y' = y)).
    { unfold w1, y'. destruct (index <=? Minion.index y); cbn [when].
      - left. by rewrite (modify_minion_Ok a _ w y Hy).
      - right. done. }
    assert (Hstep' : ∃ w1',
              when (index <=? Minion.index y)
                (modify_minion a (Minion.set_index (Minion.index y + 1))) w = Ok tt w1' ∧
              w1' = World.set_minions (World.minions w1') w ∧
              World.minions w1' !! a = Some y' ∧
              ∀ o, o ≠ a → World.minions w1' !! o = World.minions w !! o).
    { destruct Hstep as [Hs|[Hs Hsame]].
      - exists w1. split; [exact Hs|]. split; [reflexivity|].
        split; [apply lookup_insert_eq|]. intros o Ho. by apply lookup_insert_ne.
      - exists w. split; [exact Hs|]. split; [by destruct w|].
        split; [by rewrite Hsame|done]. }
    destruct Hstep' as (w1' & Hs & Hframe1 & Ha1 & Ho1).
    step Hs.
    destruct (IH w1') as (w' & Hrun & Hframe & Hin & Hout).
    { intros o Ho. rewrite Ho1 by (intros ->; contradiction). apply Hall. by right. }
    exists w'. split; [exact Hrun|]. split.
    { rewrite Hframe at 1. rewrite Hframe1. reflexivity. }
    split.
    + intros o Ho. apply elem_of_cons in Ho as [->|Ho].
      * rewrite (Hout a Ha), Ha1, Hy. reflexivity.
      * rewrite (Hin o Ho), Ho1 by (intros ->; contradiction). reflexivity.
    + intros o Ho. apply not_elem_of_cons in Ho as [Hne Ho].
      rewrite (Hout o Ho). by apply Ho1.
Qed.

Lemma py_insert_inside {A} (l : list A) (k : nat) (a : A) :
  (k ≤ length l)%nat → py_insert l (Z.of_nat k) a = take k l ++ a :: drop k l.
Proof.
  intros Hk. unfold py_insert.
  destruct (Z.of_nat k <? 0) eqn:Hneg; [apply Z.ltb_lt in Hneg; lia|].
  rewrite Z.min_l by lia. by rewrite Nat2Z.id.
Qed.

Lemma NoDup_insert_at {A} (l : list A) (k : nat) (a : A) :
  NoDup l → a ∉ l → NoDup (take k l ++ a :: drop k l).
Proof.
  intros Hnd Ha. rewrite <- (take_drop k l) in Hnd, Ha.
  apply NoDup_app in Hnd as (Ht & Hdis & Hd).
  apply not_elem_of_app in Ha as [Hat Had].
  apply NoDup_app. split; [done|]. split.
  - intros y Hy Hy'. apply elem_of_cons in Hy' as [->|Hy']; [done|]. by apply (Hdis y).
  - by apply NoDup_cons.
Qed.

Lemma elem_of_insert_at {A} (l : list A) (k : nat) (a o : A) :
  o ∈ take k l ++ a :: drop k l ↔ o = a ∨ o ∈ l.
Proof.
  assert (Hl : o ∈ l ↔ o ∈ take k l ∨ o ∈ drop k l)
    by (by rewrite <- elem_of_app, take_drop).
  rewrite elem_of_app, elem_of_cons, Hl. tauto.
Qed.

Lemma modify_minion_bus (m : nat) (f : Minion.t → Minion.t) (w w' : World.t) :
  modify_minion m f w = Ok tt w' →
  World.handlers w' = World.handlers w ∧ World.next_handler w' = World.next_handler w.
Proof. intros Hm. by apply modify_minion_inv in Hm as (x & Hx & ->). Qed.

Lemma modify_player_bus (p : pid) (f : Player.t → Player.t) (w w' : World.t) :
  modify_player p f w = Ok tt w' →
  World.handlers w' = World.handlers w ∧ World.next_handler w' = World.next_handler w.
Proof. intros [= <-]. by destruct p. Qed.

Lemma get_player_bound (q : pid) (remove : bool) (self : obj) (event : string) (f : fn)
    (args : list val) (reg : gmap string (list nat)) (w : World.t) :
  get_player q (bound remove self event f args reg w) = get_player q w.
Proof. by destruct q. Qed.

(** The world after [add_to_board] of a minion without battlecry. *)
Lemma add_to_board_Ok (call : fn → list val → M unit) (m card : nat) (p : pid) (k : nat)
    (w : World.t) (x : Minion.t) (rg rm rp : gmap string (list nat)) :
  World.minions w !! m = Some x → Minion.battlecry x = None →
  NoDup (Player.minions (get_player p w)) → m ∉ Player.minions (get_player p w) →
  (∀ o, o ∈ Player.minions (get_player p w) → is_Some (World.minions w !! o)) →
  (k ≤ length (Player.minions (get_player p w)))%nat →
  World.events w !! OGame = Some rg → rg !! "minion_added" = None →
  World.events w !! OMinion m = Some rm → rm !! "added_to_board" = None →
  World.events w !! OPlayer p = Some rp →
  ∃ w' x',
    add_to_board call m card p (Z.of_nat k) w = Ok tt w' ∧
    get_player p w'
    = Player.set_spell_power (Player.spell_power (get_player p w) + Minion.spell_power x)
        (Player.set_minions
           (take k (Player.minions (get_player p w))
            ++ m :: drop k (Player.minions (get_player p w)))
           (get_player p w)) ∧
    (∀ q, q ≠ p → get_player q w' = get_player q w) ∧
    World.minions w' !! m = Some x' ∧
    Minion.index x' = Z.of_nat k ∧
    Character.player (Minion.base x') = Some p ∧
    Character.active (Minion.base x') = Minion.charge x || Character.active (Minion.base x) ∧
    (∀ o, o ∈ Player.minions (get_player p w) →
       World.minions w' !! o
       = (λ y, if Z.of_nat k <=? Minion.index y
               then Minion.set_index (Minion.index y + 1) y else y)
           <$> World.minions w !! o) ∧
    (∀ o, o ≠ m → o ∉ Player.minions (get_player p w) →
       World.minions w' !! o = World.minions w !! o) ∧
    World.events w'
    = <[OPlayer p := <["turn_ended" := default [] (rp !! "turn_ended")
                                       ++ [World.next_handler w]]> rp]> (World.events w) ∧
    World.handlers w'
    = <[World.next_handler w := Handler.mk [] (Bound_turn_complete (OMinion m)) false false]>
        (World.handlers w).
Proof.
  intros Hx Hcry Hnd Hnew Hstore Hk Hrg Hadded Hrm Hboard Hrp.
  set (board := Player.minions (get_player p w)) in *.
  set (board' := take k board ++ m :: drop k board).
  unfold add_to_board.
  epose proof (modify_minion_step m _ w x Hx) as (w1 & Hr1 & Hm1 & Ho1 & Hq1 & He1).
  step Hr1. destruct (modify_minion_bus _ _ _ _ Hr1) as [Hh1 Hn1].
  epose proof (modify_player_step p _ w1) as (w2 & Hr2 & Hp2 & Hq2 & Hs2 & He2).
  step Hr2. destruct (modify_player_bus _ _ _ _ Hr2) as [Hh2 Hn2]. rewrite Hq1 in Hp2. cbv beta in Hp2. fold board in Hp2.
  rewrite (py_insert_inside board k m Hk) in Hp2. fold board' in Hp2.
  assert (Hm2 : World.minions w2 !! m = Some (Minion.set_card (Some card) x))
    by (rewrite Hs2; exact Hm1).
  epose proof (modify_minion_step m _ w2 _ Hm2) as (w3 & Hr3 & Hm3 & Ho3 & Hq3 & He3).
  step Hr3. destruct (modify_minion_bus _ _ _ _ Hr3) as [Hh3 Hn3]. cbn [modify_character].
  epose proof (modify_minion_step m _ w3 _ Hm3) as (w4 & Hr4 & Hm4 & Ho4 & Hq4 & He4).
  step Hr4. destruct (modify_minion_bus _ _ _ _ Hr4) as [Hh4 Hn4]. cbv beta in Hm4.
  step (get_minion_Ok m w4 _ Hm4).
  epose proof (modify_player_step p _ w4) as (w5 & Hr5 & Hp5 & Hq5 & Hs5 & He5).
  step Hr5. destruct (modify_player_bus _ _ _ _ Hr5) as [Hh5 Hn5]. rewrite Hq4, Hq3, Hp2 in Hp5. cbv beta in Hp5.
  cbn [Minion.spell_power Minion.set_base Minion.set_game Minion.set_card
       Minion.battlecry Player.spell_power Player.set_minions] in Hp5 |- *.
  rewrite Hcry. unfold ret at 1. unfold and_then at 1.
  rewrite and_then_get, Hp5. cbn [Player.minions Player.set_spell_power Player.set_minions].
  assert (Hm5 : World.minions w5 !! m = Some _) by (rewrite Hs5; exact Hm4).
  assert (Ho5 : ∀ o, o ≠ m → World.minions w5 !! o = World.minions w !! o).
  { intros o Ho. rewrite Hs5, Ho4, Ho3, Hs2, Ho1 by done. reflexivity. }
  destruct (for_each_shift (Z.of_nat k) board' (NoDup_insert_at board k m Hnd Hnew) w5)
    as (w7 & Hr7 & Hframe7 & Hin7 & Hout7).
  { intros o Ho. destruct (decide (o = m)) as [->|Hne]; [rewrite Hm5; eauto|].
    rewrite Ho5 by done. apply Hstore.
    by apply elem_of_insert_at in Ho as [->|Ho]. }
  step Hr7.
  assert (Hmem : m ∈ board') by (apply elem_of_insert_at; by left).
  pose proof (Hin7 m Hmem) as Hm7. rewrite Hm5 in Hm7. cbn [fmap option_fmap option_map] in Hm7.
  epose proof (modify_minion_step m _ w7 _ Hm7) as (w8 & Hr8 & Hm8 & Ho8 & Hq8 & He8).
  step Hr8. destruct (modify_minion_bus _ _ _ _ Hr8) as [Hh8 Hn8]. step (get_minion_Ok m w8 _ Hm8).
  set (x8 := Minion.set_index (Z.of_nat k) _) in *.
  assert (Hcharge : ∃ w9 x9,
            when (Minion.charge x8)
              (modify_character (OMinion m) (Character.set_active true)) w8 = Ok tt w9 ∧
            World.minions w9 !! m = Some x9 ∧
            Minion.index x9 = Minion.index x8 ∧ Minion.game x9 = Minion.game x8 ∧
            Character.player (Minion.base x9) = Character.player (Minion.base x8) ∧
            Character.active (Minion.base x9)
            = Minion.charge x8 || Character.active (Minion.base x8) ∧
            (∀ o, o ≠ m → World.minions w9 !! o = World.minions w8 !! o) ∧
            (∀ q, get_player q w9 = get_player q w8) ∧
            World.events w9 = World.events w8 ∧
            World.handlers w9 = World.handlers w8 ∧
            World.next_handler w9 = World.next_handler w8).
  { destruct (Minion.charge x8) eqn:Hch; cbn [when modify_character].
    - epose proof (modify_minion_step m _ w8 _ Hm8) as (w9 & Hr9 & Hm9 & Ho9 & Hq9 & He9).
      destruct (modify_minion_bus _ _ _ _ Hr9) as [Hh9 Hn9].
      exists w9. eexists. split; [exact Hr9|]. split; [exact Hm9|]. done.
    - exists w8, x8. split; [reflexivity|]. split; [exact Hm8|]. done. }
  destruct Hcharge
    as (w9 & x9 & Hr9 & Hm9 & Hi9 & Hg9 & Hpl9 & Hact9 & Ho9 & Hq9 & He9 & Hh9 & Hn9).
  step Hr9.
  assert (Hplayers7 : ∀ q, get_player q w7 = get_player q w5)
    by (intros q; rewrite Hframe7; by destruct q).
  assert (Hevents7 : World.events w7 = World.events w5) by (by rewrite Hframe7).
  assert (Hev9 : World.events w9 = World.events w).
  { by rewrite He9, He8, Hevents7, He5, He4, He3, He2, He1. }
  unfold minion_game. rewrite and_then_assoc. step (get_minion_Ok m w9 x9 Hm9).
  assert (Hgame : Minion.game x9 = true).
  { rewrite Hg9. unfold x8. cbn [Minion.game Minion.set_index].
    by destruct (Z.of_nat k <=? _). }
  rewrite Hgame. unfold ret at 1. unfold and_then at 1.
  assert (Hrg9 : World.events w9 !! OGame = Some rg) by (by rewrite Hev9).
  step (trigger_absent call OGame "minion_added" [VRef (OMinion m)] w9 rg Hrg9 Hadded).
  set (w11 := World.set_trace _ w9).
  assert (Hrm11 : World.events w11 !! OMinion m = Some rm) by (unfold w11; simpl; by rewrite Hev9).
  step (trigger_absent call (OMinion m) "added_to_board"
          [VRef (OMinion m); VInt (Z.of_nat k)] w11 rm Hrm11 Hboard).
  set (w12 := World.set_trace _ w11).
  assert (Hrp12 : World.events w12 !! OPlayer p = Some rp)
    by (unfold w12, w11; simpl; by rewrite Hev9).
  unfold bind. rewrite (bind_handler_Ok _ _ _ _ _ _ _ Hrp12).
  assert (Hplayers : ∀ q, get_player q w12 = get_player q w5).
  { intros q. unfold w12, w11. rewrite !get_player_journal.
    by rewrite Hq9, Hq8, Hplayers7. }
  assert (Hmin : World.minions
                   (bound false (OPlayer p) "turn_ended" (Bound_turn_complete (OMinion m)) []
                      rp w12) = World.minions w9) by reflexivity.
  eexists. exists x9. split; [reflexivity|].
  split; [rewrite get_player_bound, Hplayers; exact Hp5|].
  split.
  { intros q Hq. rewrite get_player_bound, Hplayers, Hq5, Hq4, Hq3, Hq2, Hq1 by done.
    reflexivity. }
  split; [exact Hm9|].
  split; [rewrite Hi9; reflexivity|].
  split.
  { rewrite Hpl9. unfold x8. cbn [Minion.base Minion.set_index].
    by destruct (Z.of_nat k <=? _). }
  split.
  { rewrite Hact9. unfold x8. cbn [Minion.base Minion.set_index Minion.charge].
    by destruct (Z.of_nat k <=? _). }
  split.
  { intros o Ho. assert (Hne : o ≠ m) by (intros ->; contradiction).
    rewrite Hmin, Ho9, Ho8 by done.
    rewrite Hin7, Ho5 by (try done; apply elem_of_insert_at; by right).
    reflexivity. }
  split.
  { intros o Hne Ho. rewrite Hmin, Ho9, Ho8 by done.
    rewrite Hout7, Ho5; [reflexivity|done|].
    intros Hin. by apply elem_of_insert_at in Hin as [->|Hin]. }
  assert (Hh12 : World.handlers w12 = World.handlers w).
  { unfold w12, w11. cbn [World.handlers World.set_trace].
    rewrite Hh9, Hh8, Hframe7. cbn [World.handlers World.set_minions].
    by rewrite Hh5, Hh4, Hh3, Hh2, Hh1. }
  assert (Hn12 : World.next_handler w12 = World.next_handler w).
  { unfold w12, w11. cbn [World.next_handler World.set_trace].
    rewrite Hn9, Hn8, Hframe7. cbn [World.next_handler World.set_minions].
    by rewrite Hn5, Hn4, Hn3, Hn2, Hn1. }
  unfold bound. cbn [World.events World.handlers World.set_events World.set_next_handler
                     World.set_handlers].
  rewrite Hh12, Hn12. split; [|reflexivity].
  unfold w12, w11. cbn [World.events World.set_trace]. by rewrite Hev9.
Qed.

(** X24: [Minion.add_to_board] of a minion without battlecry at a position
    of the board, with no handler bound to "minion_added" of the game and
    "added_to_board" of the minion, returns: the minion is in the list of
    the player at that position, the minions before it keep their index and
    those after it have it raised by 1, so that every minion of the board
    has its position as index again; the spell power of the player is
    raised by that of the minion, and [turn_complete] of the minion is bound
    to "turn_ended" of the player by a new handler at the end of the
    list. *)
Theorem add_to_board_positions (call : fn → list val → M unit) (m card : nat) (p : pid)
    (k : nat) (w : World.t) (x : Minion.t) (rg rm rp : gmap string (list nat)) :
  World.minions w !! m = Some x → Minion.battlecry x = None →
  in_position p w →
  NoDup (Player.minions (get_player p w)) → m ∉ Player.minions (get_player p w) →
  (k ≤ length (Player.minions (get_player p w)))%nat →
  World.events w !! OGame = Some rg → rg !! "minion_added" = None →
  World.events w !! OMinion m = Some rm → rm !! "added_to_board" = None →
  World.events w !! OPlayer p = Some rp →
  ∃ w',
    add_to_board call m card p (Z.of_nat k) w = Ok tt w' ∧
    Player.minions (get_player p w')
    = take k (Player.minions (get_player p w)) ++ m :: drop k (Player.minions (get_player p w)) ∧
    in_position p w' ∧
    Player.spell_power (get_player p w')
    = Player.spell_power (get_player p w) + Minion.spell_power x ∧
    handlers_of (OPlayer p) "turn_ended" w'
    = Some (default [] (rp !! "turn_ended") ++ [World.next_handler w]) ∧
    bound_with (Bound_turn_complete (OMinion m)) w' (World.next_handler w).
Proof.
  intros Hx Hcry Hpos Hnd Hnew Hk Hrg Hadded Hrm Hboard Hrp.
  assert (Hstore : ∀ o, o ∈ Player.minions (get_player p w) → is_Some (World.minions w !! o)).
  { intros o Ho. apply list_elem_of_lookup in Ho as [j Hj].
    specialize (Hpos j o Hj). destruct (World.minions w !! o); [eauto|discriminate]. }
  destruct (add_to_board_Ok call m card p k w x rg rm rp Hx Hcry Hnd Hnew Hstore Hk
              Hrg Hadded Hrm Hboard Hrp)
    as (w' & x' & Hrun & Hpl & _ & Hm & Hidx & _ & _ & Hin & _ & Hev & Hhs).
  exists w'. split; [exact Hrun|].
  set (board := Player.minions (get_player p w)) in *.
  rewrite Hpl. cbn [Player.minions Player.spell_power Player.set_spell_power Player.set_minions].
  split; [reflexivity|]. split; [|split; [reflexivity|split]].
  - intros j o Hj. rewrite Hpl in Hj.
    cbn [Player.minions Player.set_spell_power Player.set_minions] in Hj.
    assert (Hlen : length (take k board) = k) by (rewrite length_take; lia).
    destruct (decide (j < k)%nat) as [Hlt|Hge].
    + rewrite lookup_app_l, lookup_take_lt in Hj by lia.
      assert (Ho : o ∈ board) by (by eapply list_elem_of_lookup_2).
      rewrite (Hin o Ho). specialize (Hpos j o Hj).
      destruct (World.minions w !! o) as [y|]; [|discriminate].
      cbn in Hpos |- *. injection Hpos as Hy. rewrite Hy.
      destruct (Z.of_nat k <=? Z.of_nat j) eqn:Hle; [apply Z.leb_le in Hle; lia|].
      by rewrite Hy.
    + rewrite lookup_app_r in Hj by lia. rewrite Hlen in Hj.
      destruct (j - k)%nat as [|i] eqn:Hjk.
      * injection Hj as <-. rewrite Hm. cbn. f_equal. rewrite Hidx. f_equal. lia.
      * change (drop k board !! i = Some o) in Hj. rewrite lookup_drop in Hj.
        assert (Ho : o ∈ board) by (by eapply list_elem_of_lookup_2).
        rewrite (Hin o Ho). specialize (Hpos _ o Hj).
        destruct (World.minions w !! o) as [y|]; [|discriminate].
        cbn in Hpos |- *. injection Hpos as Hy. rewrite Hy.
        destruct (Z.of_nat k <=? Z.of_nat (k + i)) eqn:Hle; [|apply Z.leb_gt in Hle; lia].
        cbn. f_equal. lia.
  - unfold handlers_of. rewrite Hev, lookup_insert_eq. cbn. apply lookup_insert_eq.
  - unfold bound_with. rewrite Hhs, lookup_insert_eq. reflexivity.
Qed.

Lemma newcomer_board : Player.minions (get_player P1 newcomer) = [1%nat; 2%nat].
Proof. vm_compute. reflexivity. Qed.

Lemma newcomer_in_position : in_position P1 newcomer.
Proof.
  intros k o Hk. rewrite newcomer_board in Hk.
  destruct k as [|[|k]].
  - injection Hk as <-. vm_compute. reflexivity.
  - injection Hk as <-. vm_compute. reflexivity.
  - discriminate.
Qed.

(** Minion 3 is put between the minions 1 and 2 of player "two". *)
Lemma add_to_board_positions_witness :
  ∃ w',
    add_to_board run_call 3 0 P1 1 newcomer = Ok tt w' ∧
    Player.minions (get_player P1 w') = [1%nat; 3%nat; 2%nat] ∧
    in_position P1 w'.
Proof.
  destruct (add_to_board_positions run_call 3 0 P1 1 newcomer
              (default (new_minion 0 0 0) (World.minions newcomer !! 3%nat))
              (World.events newcomer !!! OGame) ∅ (World.events newcomer !!! OPlayer P1))
    as (w' & Hrun & Hminions & Hpos & _).
  - vm_compute. reflexivity.
  - vm_compute. reflexivity.
  - exact newcomer_in_position.
  - rewrite newcomer_board. apply NoDup_cons. split; [|apply NoDup_singleton].
    intros Hin. apply list_elem_of_singleton in Hin. discriminate.
  - rewrite newcomer_board. intros Hin.
    apply elem_of_cons in Hin as [Hin|Hin]; [discriminate|].
    apply list_elem_of_singleton in Hin. discriminate.
  - rewrite newcomer_board. simpl. lia.
  - vm_compute. reflexivity.
  - vm_compute. reflexivity.
  - vm_compute. reflexivity.
  - vm_compute. reflexivity.
  - vm_compute. reflexivity.
  - exists w'. split; [exact Hrun|]. split; [|exact Hpos].
    rewrite Hminions, newcomer_board. reflexivity.
Defined.

(** ** Leaving a board *)

(** The loop of [remove_from_board] over the board. *)
Lemma for_each_unshift (m : nat) (x : Minion.t) (l : list nat) :
  NoDup l → ∀ w,
  World.minions w !! m = Some x →
  (∀ o, o ∈ l → is_Some (World.minions w !! o)) →
  ∃ w',
    for_each l
      (λ other,
         let! y := get_minion other in
         let! x := get_minion m in
         when (Minion.index x <? Minion.index y)
           (modify_minion other (Minion.set_index (Minion.index y - 1)))) w = Ok tt w' ∧
    w' = World.set_minions (World.minions w') w ∧
    World.minions w' !! m = Some x ∧
    (∀ o, o ∈ l →
       World.minions w' !! o
       = (λ y, if Minion.index x <? Minion.index y
               then Minion.set_index (Minion.index y - 1) y else y)
           <$> World.minions w !! o) ∧
    (∀ o, o ∉ l → World.minions w' !! o = World.minions w !! o).
Proof.
  induction 1 as [|a l Ha Hl IH]; intros w Hx Hall.
  - exists w. split; [reflexivity|]. split; [by destruct w|]. split; [exact Hx|].
    split; [|done]. intros o Ho. by apply elem_of_nil in Ho.
  - destruct (Hall a ltac:(left)) as [y Hy].
    cbn [for_each]. rewrite and_then_assoc. step (get_minion_Ok a w y Hy).
    rewrite and_then_assoc. step (get_minion_Ok m w x Hx).
    set (y' := if Minion.index x <? Minion.index y
               then Minion.set_index (Minion.index y - 1) y else y).
    assert (Hstep : ∃ w1,
              when (Minion.index x <? Minion.index y)
                (modify_minion a (Minion.set_index (Minion.index y - 1))) w = Ok tt w1 ∧
              w1 = World.set_minions (World.minions w1) w ∧
              World.minions w1 !! a = Some y' ∧
              World.minions w1 !! m = Some x ∧
              ∀ o, o ≠ a → World.minions w1 !! o = World.minions w !! o).
    { unfold y'. destruct (Minion.index x <? Minion.index y) eqn:Hlt; cbn [when].
      - eexists. split; [by apply modify_minion_Ok|]. split; [reflexivity|].
        cbn [World.minions World.set_minions].
        split; [apply lookup_insert_eq|]. split.
        + rewrite lookup_insert_ne; [exact Hx|].
          intros ->. rewrite Hx in Hy. injection Hy as ->.
          apply Z.ltb_lt in Hlt. lia.
        + intros o Ho. by apply lookup_insert_ne.
      - exists w. split; [reflexivity|]. split; [by destruct w|]. done. }
    destruct Hstep as (w1 & Hs & Hframe1 & Ha1 & Hm1 & Ho1).
    step Hs.
    destruct (IH w1 Hm1) as (w' & Hrun & Hframe & Hm' & Hin & Hout).
    { intros o Ho. rewrite Ho1 by (intros ->; contradiction). apply Hall. by right. }
    exists w'. split; [exact Hrun|]. split.
    { rewrite Hframe at 1. rewrite Hframe1. reflexivity. }
    split; [exact Hm'|]. split.
    + intros o Ho. apply elem_of_cons in Ho as [->|Ho].
      * rewrite (Hout a Ha), Ha1, Hy. reflexivity.
      * rewrite (Hin o Ho), Ho1 by (intros ->; contradiction). reflexivity.
    + intros o Ho. apply not_elem_of_cons in Ho as [Hne Ho].
      rewrite (Hout o Ho). by apply Ho1.
Qed.

Lemma py_remove_at `{EqDecision A} (l : list A) (k : nat) (a : A) :
  NoDup l → l !! k = Some a → py_remove a l = Some (take k l ++ drop (S k) l).
Proof.
  intros Hnd Hk. rewrite <- (take_drop_middle l k a Hk) at 1.
  apply py_remove_middle.
  rewrite <- (take_drop_middle l k a Hk) in Hnd.
  apply NoDup_app in Hnd as (_ & Hdis & _). intros Hin. apply (Hdis a Hin). left.
Qed.

Lemma filter_bound_with_handlers (f : fn) (w w' : World.t) (l : list nat) :
  World.handlers w' = World.handlers w →
  filter (λ h, ¬ bound_with f w' h) l = filter (λ h, ¬ bound_with f w h) l.
Proof.
  intros Hhs. induction l as [|h l IH]; [reflexivity|].
  rewrite !filter_cons, IH.
  assert (Hiff : bound_with f w' h ↔ bound_with f w h)
    by (unfold bound_with; by rewrite Hhs).
  destruct (decide (¬ bound_with f w' h)) as [H1|H1],
           (decide (¬ bound_with f w h)) as [H2|H2]; try reflexivity; tauto.
Qed.

(** X25: [Minion.remove_from_board] of the minion at a position of the
    board of its player, with no handler bound to "minion_removed" of the
    game, returns: the minion is gone from the list of the player, the
    minions after it have their index lowered by 1, so that every minion
    left on the board has its position as index again; the spell power of
    the player is lowered by that of the minion, and the handlers bound
    with [turn_complete] of the minion are gone from "turn_ended" of the
    player. *)
Theorem remove_from_board_positions (call : fn → list val → M unit) (m : nat) (p : pid)
    (k : nat) (w : World.t) (x : Minion.t) (rg rp : gmap string (list nat))
    (l : list nat) :
  World.minions w !! m = Some x →
  Character.player (Minion.base x) = Some p → Minion.game x = true →
  in_position p w → NoDup (Player.minions (get_player p w)) →
  Player.minions (get_player p w) !! k = Some m →
  World.events w !! OGame = Some rg → rg !! "minion_removed" = None →
  World.events w !! OPlayer p = Some rp → rp !! "turn_ended" = Some l →
  (∀ h, h ∈ l → is_Some (World.handlers w !! h)) →
  ∃ w',
    remove_from_board call m w = Ok tt w' ∧
    Player.minions (get_player p w')
    = take k (Player.minions (get_player p w)) ++ drop (S k) (Player.minions (get_player p w)) ∧
    in_position p w' ∧
    Player.spell_power (get_player p w')
    = Player.spell_power (get_player p w) - Minion.spell_power x ∧
    handlers_of (OPlayer p) "turn_ended" w'
    = (if decide (filter (λ h, ¬ bound_with (Bound_turn_complete (OMinion m)) w h) l = [])
       then None
       else Some (filter (λ h, ¬ bound_with (Bound_turn_complete (OMinion m)) w h) l)).
Proof.
  intros Hx Hp Hgame Hpos Hnd Hk Hrg Hremoved Hrp Hl Hhandlers.
  set (board := Player.minions (get_player p w)) in *.
  assert (Hstore : ∀ o, o ∈ board → is_Some (World.minions w !! o)).
  { intros o Ho. apply list_elem_of_lookup in Ho as [j Hj].
    specialize (Hpos j o Hj). destruct (World.minions w !! o); [eauto|discriminate]. }
  assert (Hidx : Minion.index x = Z.of_nat k).
  { specialize (Hpos k m Hk). rewrite Hx in Hpos. by injection Hpos. }
  unfold remove_from_board, journal, modify. unfold and_then at 1.
  set (w0 := World.set_trace _ w).
  assert (Hx0 : World.minions w0 !! m = Some x) by exact Hx.
  assert (Hmp0 : minion_player m w0 = Ok p w0).
  { unfold minion_player. step (get_minion_Ok m w0 x Hx0). by rewrite Hp. }
  step Hmp0. step (get_minion_Ok m w0 x Hx0).
  unfold modify_player at 1. unfold modify at 1. unfold and_then at 1.
  set (w1 := set_player p _ w0).
  assert (Hp1 : get_player p w1
                = Player.set_spell_power
                    (Player.spell_power (get_player p w) - Minion.spell_power x)
                    (get_player p w)).
  { unfold w1. rewrite get_set_player, decide_True by done. unfold w0.
    by rewrite get_player_journal. }
  assert (Hm1 : World.minions w1 = World.minions w) by (unfold w1; by destruct p).
  assert (He1 : World.events w1 = World.events w)
    by (unfold w1; by rewrite set_player_events).
  assert (Hh1 : World.handlers w1 = World.handlers w) by (unfold w1; by destruct p).
  rewrite and_then_get, Hp1. cbn [Player.minions Player.set_spell_power]. fold board.
  destruct (for_each_unshift m x board Hnd w1) as (w2 & Hr2 & Hframe2 & Hx2 & Hin2 & Hout2).
  { by rewrite Hm1. }
  { intros o Ho. rewrite Hm1. by apply Hstore. }
  step Hr2.
  assert (Hp2 : ∀ q, get_player q w2 = get_player q w1)
    by (intros q; rewrite Hframe2; by destruct q).
  assert (He2 : World.events w2 = World.events w) by (rewrite Hframe2; exact He1).
  assert (Hh2 : World.handlers w2 = World.handlers w) by (rewrite Hframe2; exact Hh1).
  unfold minion_game. rewrite and_then_assoc. step (get_minion_Ok m w2 x Hx2).
  rewrite Hgame. unfold ret at 1. unfold and_then at 1.
  assert (Hmp2 : minion_player m w2 = Ok p w2).
  { unfold minion_player. step (get_minion_Ok m w2 x Hx2). by rewrite Hp. }
  step Hmp2. unfold remove_minion. rewrite and_then_assoc, and_then_get.
  rewrite Hp2, Hp1. cbn [Player.minions Player.set_spell_power]. fold board.
  rewrite (py_remove_at board k m Hnd Hk).
  set (board' := take k board ++ drop (S k) board).
  unfold modify_player at 1. unfold modify at 1. rewrite and_then_assoc.
  unfold and_then at 1. rewrite Hp2, Hp1.
  set (w3 := set_player p _ w2).
  assert (Hp3 : get_player p w3
                = Player.set_minions board'
                    (Player.set_spell_power
                       (Player.spell_power (get_player p w) - Minion.spell_power x)
                       (get_player p w)))
    by (unfold w3; by rewrite get_set_player, decide_True).
  assert (Hm3 : World.minions w3 = World.minions w2) by (unfold w3; by destruct p).
  assert (He3 : World.events w3 = World.events w)
    by (unfold w3; by rewrite set_player_events).
  assert (Hh3 : World.handlers w3 = World.handlers w) by (unfold w3; by destruct p).
  assert (Hrg3 : World.events w3 !! OGame = Some rg) by (by rewrite He3).
  step (trigger_absent call OGame "minion_removed" [VRef (OMinion m); VRef (OPlayer p)]
          w3 rg Hrg3 Hremoved).
  set (w4 := World.set_trace _ w3).
  assert (Hmp4 : minion_player m w4 = Ok p w4).
  { unfold minion_player.
    erewrite and_then_step by (apply get_minion_Ok; unfold w4; simpl; rewrite Hm3; exact Hx2).
    by rewrite Hp. }
  step Hmp4.
  assert (Hrp4 : World.events w4 !! OPlayer p = Some rp)
    by (unfold w4; simpl; by rewrite He3).
  assert (Hhs4 : ∀ h, h ∈ l → is_Some (World.handlers w4 !! h)).
  { intros h Hh. unfold w4. simpl. rewrite Hh3. by apply Hhandlers. }
  rewrite (unbind_Ok (OPlayer p) "turn_ended" (Bound_turn_complete (OMinion m)) w4 rp l
             Hrp4 Hl Hhs4).
  eexists. split; [reflexivity|].
  assert (Hfilter : filter (λ h, ¬ bound_with (Bound_turn_complete (OMinion m)) w4 h) l
                    = filter (λ h, ¬ bound_with (Bound_turn_complete (OMinion m)) w h) l).
  { apply filter_bound_with_handlers. unfold w4. simpl. exact Hh3. }
  rewrite Hfilter.
  set (w5 := World.set_events _ w4).
  assert (Hp5 : get_player p w5 = get_player p w3) by (unfold w5, w4; by destruct p).
  assert (Hm5 : World.minions w5 = World.minions w2) by (unfold w5, w4; simpl; exact Hm3).
  rewrite Hp5, Hp3. cbn [Player.minions Player.spell_power Player.set_minions
                         Player.set_spell_power].
  split; [reflexivity|]. split; [|split; [reflexivity|]].
  - intros j o Hj. rewrite Hp5, Hp3 in Hj.
    cbn [Player.minions Player.set_minions] in Hj. unfold board' in Hj.
    assert (Hlt : (k < length board)%nat) by (by eapply lookup_lt_Some).
    assert (Hlen : length (take k board) = k) by (rewrite length_take; lia).
    rewrite Hm5.
    destruct (decide (j < k)%nat) as [Hjk|Hjk].
    + rewrite lookup_app_l, lookup_take_lt in Hj by lia.
      assert (Ho : o ∈ board) by (by eapply list_elem_of_lookup_2).
      rewrite (Hin2 o Ho), Hm1. specialize (Hpos j o Hj).
      destruct (World.minions w !! o) as [y|]; [|discriminate].
      cbn in Hpos |- *. injection Hpos as Hy. rewrite Hy, Hidx.
      destruct (Z.of_nat k <? Z.of_nat j) eqn:Hc; [apply Z.ltb_lt in Hc; lia|].
      by rewrite Hy.
    + rewrite lookup_app_r in Hj by lia. rewrite Hlen, lookup_drop in Hj.
      assert (Ho : o ∈ board) by (by eapply list_elem_of_lookup_2).
      rewrite (Hin2 o Ho), Hm1. specialize (Hpos _ o Hj).
      destruct (World.minions w !! o) as [y|]; [|discriminate].
      cbn in Hpos |- *. injection Hpos as Hy. rewrite Hy, Hidx.
      rewrite (proj2 (Z.ltb_lt (Z.of_nat k) _)) by lia.
      cbn [Minion.index Minion.set_index]. f_equal. lia.
  - exact (proj1 (handlers_of_unbound (OPlayer p) "turn_ended" _ rp w4 w5 Hrp4 eq_refl)).
Qed.

Lemma taunt_board_minions : Player.minions (get_player P1 taunt_board) = [1%nat; 2%nat].
Proof. vm_compute. reflexivity. Qed.

Lemma taunt_board_in_position : in_position P1 taunt_board.
Proof.
  intros k o Hk. rewrite taunt_board_minions in Hk.
  destruct k as [|[|k]].
  - injection Hk as <-. vm_compute. reflexivity.
  - injection Hk as <-. vm_compute. reflexivity.
  - discriminate.
Qed.

Lemma taunt_board_turn_ended :
  (World.events taunt_board !!! OPlayer P1) !! "turn_ended" = Some [1%nat; 5%nat; 6%nat].
Proof. vm_compute. reflexivity. Qed.

(** Minion 1 leaves the board of player "two" of the taunt example; minion
    2 moves up. *)
Lemma remove_from_board_positions_witness :
  ∃ w',
    remove_from_board run_call 1 taunt_board = Ok tt w' ∧
    Player.minions (get_player P1 w') = [2%nat] ∧
    in_position P1 w'.
Proof.
  destruct (remove_from_board_positions run_call 1 P1 0 taunt_board
              (default (new_minion 0 0 0) (World.minions taunt_board !! 1%nat))
              (World.events taunt_board !!! OGame) (World.events taunt_board !!! OPlayer P1)
              [1%nat; 5%nat; 6%nat])
    as (w' & Hrun & Hminions & Hpos & _).
  - vm_compute. reflexivity.
  - vm_compute. reflexivity.
  - vm_compute. reflexivity.
  - exact taunt_board_in_position.
  - rewrite taunt_board_minions. apply NoDup_cons. split; [|apply NoDup_singleton].
    intros Hin. apply list_elem_of_singleton in Hin. discriminate.
  - rewrite taunt_board_minions. reflexivity.
  - vm_compute. reflexivity.
  - vm_compute. reflexivity.
  - vm_compute. reflexivity.
  - exact taunt_board_turn_ended.
  - intros h Hh.
    apply elem_of_cons in Hh as [->|Hh]; [vm_compute; eexists; reflexivity|].
    apply elem_of_cons in Hh as [->|Hh]; [vm_compute; eexists; reflexivity|].
    apply elem_of_cons in Hh as [->|Hh]; [vm_compute; eexists; reflexivity|].
    apply elem_of_nil in Hh. destruct Hh.
  - exists w'. split; [exact Hrun|]. split; [|exact Hpos].
    rewrite Hminions, taunt_board_minions. reflexivity.
Defined.
